(** * ATLAS care-coordination portal: permissions, eligibility, analytics

    A shallow embedding of the business rules of the portal:
    - the role/permission table and the [usePermissions] hook
      (application shell, [PERMISSIONS], [hasPermission]);
    - the resource eligibility filter ([filteredResources]);
    - the wellness helpers and the aggregate analytics of
      [services/analytics-service.js];
    - the referral status transitions driven by the two referral pages.

    Modelling conventions.
    - A JavaScript number is a [number]: an exact rational, or one of the
      three non-finite values.  Arithmetic on finite values is exact
      (binary floating-point rounding and the sign of zero are not
      modelled); division by zero yields [NaN] or an infinity as in
      JavaScript.
    - A JavaScript object used as a dictionary is a [gmap] over its own
      keys; a lookup by a computed key goes through [get_property], which
      also finds the members inherited from [Object.prototype].
    - An expression that can throw evaluates to a [completion].
    - An optional field is an [option]; [None] stands for [undefined] or
      [null], except where the two behave differently ([nullable]).
    - The analytics service is embedded twice.  The first embedding takes
      lists of records whose wellness scores are integers; the claims
      about what the service computes are stated on it.  The second, the
      module [Raw], takes arrays whose elements may be [null] and whose
      scores may be any value, and returns completions; the claims about
      exceptions, [NaN] and the partition into trend buckets are stated
      on it.  On records with integer scores the two agree on the
      per-subject wellness, the population average and the trends. *)

From Stdlib Require Import ZArith QArith Qcanon Qround Qcabs Lia Lqa Ascii.
From stdpp Require Import gmap strings pretty list fin_maps.

Local Open Scope string_scope.

(* ===================================================================== *)
(** * JavaScript numbers *)
(* ===================================================================== *)

Inductive number : Type :=
  | Finite (q : Qc)
  | PosInfinity
  | NegInfinity
  | NaN.

Global Instance number_eq_dec : EqDecision number.
Proof. solve_decision. Defined.

Definition of_Z (z : Z) : number := Finite (Qc_of_Z z).
Definition of_nat (n : nat) : number := of_Z (Z.of_nat n).


Definition js_neg (x : number) : number :=
  match x with
  | Finite q => Finite (- q)%Qc
  | PosInfinity => NegInfinity
  | NegInfinity => PosInfinity
  | NaN => NaN
  end.

(** [x + y] *)
Definition js_add (x y : number) : number :=
  match x, y with
  | Finite a, Finite b => Finite (a + b)%Qc
  | NaN, _ | _, NaN => NaN
  | PosInfinity, NegInfinity | NegInfinity, PosInfinity => NaN
  | PosInfinity, _ | _, PosInfinity => PosInfinity
  | NegInfinity, _ | _, NegInfinity => NegInfinity
  end.

(** [x - y] *)
Definition js_sub (x y : number) : number := js_add x (js_neg y).

(** The infinity carrying the sign of [q] times the sign [pos]; [NaN] when
    [q] is zero. *)
Definition signed_infinity (pos : bool) (q : Qc) : number :=
  if decide (q = 0%Qc) then NaN
  else if bool_decide (0 < q)%Qc
       then (if pos then PosInfinity else NegInfinity)
       else (if pos then NegInfinity else PosInfinity).

(** [x * y] *)
Definition js_mul (x y : number) : number :=
  match x, y with
  | Finite a, Finite b => Finite (a * b)%Qc
  | NaN, _ | _, NaN => NaN
  | PosInfinity, Finite b => signed_infinity true b
  | NegInfinity, Finite b => signed_infinity false b
  | Finite a, PosInfinity => signed_infinity true a
  | Finite a, NegInfinity => signed_infinity false a
  | PosInfinity, PosInfinity | NegInfinity, NegInfinity => PosInfinity
  | PosInfinity, NegInfinity | NegInfinity, PosInfinity => NegInfinity
  end.

(** [x / y]: a zero divisor gives [NaN] (for [0 / 0]) or an infinity. *)
Definition js_div (x y : number) : number :=
  match x, y with
  | Finite a, Finite b =>
      if decide (b = 0%Qc) then signed_infinity true a
      else Finite (a / b)%Qc
  | NaN, _ | _, NaN => NaN
  | Finite _, (PosInfinity | NegInfinity) => Finite 0%Qc
  | PosInfinity, Finite b =>
      if bool_decide (0 ≤ b)%Qc then PosInfinity else NegInfinity
  | NegInfinity, Finite b =>
      if bool_decide (0 ≤ b)%Qc then NegInfinity else PosInfinity
  | (PosInfinity | NegInfinity), (PosInfinity | NegInfinity) => NaN
  end.

(** [Math.abs(x)] *)
Definition Math_abs (x : number) : number :=
  match x with
  | Finite q => Finite (Qcabs q)
  | PosInfinity | NegInfinity => PosInfinity
  | NaN => NaN
  end.

(** [Math.round] on a rational: the nearest integer, halves going up. *)
Definition round_half_up (q : Qc) : Z := Qfloor (q + Q2Qc (1 # 2))%Qc.

(** [Math.round(x)] *)
Definition Math_round (x : number) : number :=
  match x with
  | Finite q => of_Z (round_half_up q)
  | _ => x
  end.

(** [x > y], [x < y], [x <= y]: every comparison with [NaN] is false. *)
Definition js_lt (x y : number) : bool :=
  match x, y with
  | NaN, _ | _, NaN => false
  | Finite a, Finite b => bool_decide (a < b)%Qc
  | _, NegInfinity => false
  | NegInfinity, _ => true
  | PosInfinity, _ => false
  | Finite _, PosInfinity => true
  end.

Definition js_gt (x y : number) : bool := js_lt y x.

Definition js_le (x y : number) : bool :=
  match x, y with
  | NaN, _ | _, NaN => false
  | Finite a, Finite b => bool_decide (a ≤ b)%Qc
  | NegInfinity, _ => true
  | _, PosInfinity => true
  | _, NegInfinity => false
  | PosInfinity, Finite _ => false
  end.

(** [xs.reduce((sum, score) => sum + score, 0)] *)
Definition js_sum (xs : list number) : number :=
  foldl js_add (of_Z 0) xs.

(* ===================================================================== *)
(** * Completions and object literals *)
(* ===================================================================== *)

(** The outcome of evaluating an expression: a value, or a thrown
    [TypeError]. *)
Inductive completion (A : Type) : Type :=
  | Normal (a : A)
  | TypeError.

Arguments Normal {A} a.
Arguments TypeError {A}.

Global Instance completion_ret : MRet completion := λ A a, Normal a.

Global Instance completion_bind : MBind completion :=
  λ A B f c, match c with Normal a => f a | TypeError => TypeError end.

Global Instance completion_fmap : FMap completion :=
  λ A B f c, match c with Normal a => Normal (f a) | TypeError => TypeError end.

(** The member names that every object literal inherits from
    [Object.prototype]: eleven functions and the accessor [__proto__],
    whose value is [Object.prototype] itself.  All twelve values are
    truthy, none is a number, a string or an array. *)
Definition Object_prototype_members : list string :=
  ["constructor"; "__defineGetter__"; "__defineSetter__"; "hasOwnProperty";
   "__lookupGetter__"; "__lookupSetter__"; "isPrototypeOf";
   "propertyIsEnumerable"; "toString"; "valueOf"; "__proto__";
   "toLocaleString"].

(** What [obj[key]] finds on an object literal with the given own
    properties: an own value, an inherited member, or nothing
    ([undefined]). *)
Inductive property (V : Type) : Type :=
  | Own (v : V)
  | Inherited
  | Absent.

Arguments Own {V} v.
Arguments Inherited {V}.
Arguments Absent {V}.

Definition get_property {V : Type} (own : gmap string V) (key : string)
  : property V :=
  match own !! key with
  | Some v => Own v
  | None =>
      if bool_decide (key ∈ Object_prototype_members) then Inherited
      else Absent
  end.

(** A JavaScript value, as far as this development tells values apart;
    [VObject] is any object or function. *)
Inductive value : Type :=
  | VUndefined
  | VNull
  | VBool (b : bool)
  | VNum (n : number)
  | VStr (s : string)
  | VObject.

(** A field that the code treats differently when it is [null] and when
    it is [undefined] or missing. *)
Inductive nullable (A : Type) : Type :=
  | Undefined
  | Null
  | Defined (a : A).

Arguments Undefined {A}.
Arguments Null {A}.
Arguments Defined {A} a.

(** The field under [||], [?.] or a truthiness test, where [null] and
    [undefined] behave alike. *)
Definition defined_value {A : Type} (x : nullable A) : option A :=
  match x with Defined a => Some a | _ => None end.

(** [x.toFixed(1)]: the sign, then the integer [n] for which [n / 10] is
    closest to [|x|] (the larger one of two), written with one digit
    after the point.  From [10^21] on JavaScript switches to exponent
    notation, which depends on the binary representation; no quotient of
    two array lengths comes near that, and this function keeps writing
    plain digits there. *)
Definition toFixed1 (x : number) : string :=
  match x with
  | NaN => "NaN"
  | PosInfinity => "Infinity"
  | NegInfinity => "-Infinity"
  | Finite q =>
      let n := round_half_up (Qcabs q * Qc_of_Z 10)%Qc in
      let digits := pretty (n / 10)%Z +:+ "." +:+ pretty (n mod 10)%Z in
      if bool_decide (q < 0)%Qc then "-" +:+ digits else digits
  end.

(* ===================================================================== *)
(** * Roles and permissions *)
(* ===================================================================== *)

Definition ROLES_ADMIN : string := "Admin".
Definition ROLES_ENROLLMENT_MANAGER : string := "Enrollment Manager".
Definition ROLES_PARTNER : string := "Partner".

(** The three values of the [ROLES] object. *)
Definition ROLES : list string :=
  [ROLES_ADMIN; ROLES_ENROLLMENT_MANAGER; ROLES_PARTNER].

Definition PERMISSIONS : gmap string (list string) :=
  list_to_map [
    (* Enrollee permissions *)
    ("CREATE_ENROLLEE", ["Admin"; "Enrollment Manager"]);
    ("EDIT_ENROLLEE", ["Admin"; "Enrollment Manager"]);
    ("DELETE_ENROLLEE", ["Admin"]);
    ("VIEW_ENROLLEE", ["Admin"; "Enrollment Manager"]);
    (* Resource permissions *)
    ("CREATE_RESOURCE", ["Admin"]);
    ("EDIT_RESOURCE", ["Admin"]);
    ("DELETE_RESOURCE", ["Admin"]);
    ("VIEW_RESOURCE", ["Admin"; "Enrollment Manager"; "Partner"]);
    (* Referral permissions *)
    ("CREATE_REFERRAL", ["Admin"; "Enrollment Manager"]);
    ("EDIT_REFERRAL", ["Admin"; "Enrollment Manager"]);
    ("CANCEL_REFERRAL", ["Admin"; "Enrollment Manager"]);
    ("VIEW_REFERRAL", ["Admin"; "Enrollment Manager"; "Partner"]);
    ("RESPOND_REFERRAL", ["Admin"; "Partner"]);
    (* Care Plan permissions *)
    ("CREATE_CARE_NOTE", ["Admin"; "Enrollment Manager"]);
    ("EDIT_CARE_NOTE", ["Admin"; "Enrollment Manager"]);
    ("DELETE_CARE_NOTE", ["Admin"]);
    (* System permissions *)
    ("LOAD_SAMPLE_DATA", ["Admin"]);
    ("MANAGE_USERS", ["Admin"]);
    ("ADMIN_PORTAL", ["Admin"])
  ].

(** The stored profile document of a principal. *)
Record Profile := { role : option string }.

(** JavaScript truthiness of an optional string: [undefined], [null] and
    the empty string are falsy. *)
Definition truthy_string (s : option string) : bool :=
  match s with
  | None => false
  | Some s => negb (bool_decide (s = EmptyString))
  end.

(** [s || d] on an optional string. *)
Definition string_or (s : option string) (d : string) : string :=
  match s with
  | Some v => if truthy_string s then v else d
  | None => d
  end.

(** The role stored by the profile snapshot listener of [usePermissions]:
    [profileSnap.exists() ? (profileSnap.data().role || 'CPC') : 'CPC'].
    The argument is [None] when the profile document does not exist. *)
Definition resolveRole (profileSnap : option Profile) : string :=
  match profileSnap with
  | Some p => string_or (role p) "CPC"
  | None => "CPC"
  end.

(** [hasPermission(permission)] of [usePermissions], with the hook state
    [userRole] made an argument ([None] before the profile has loaded).
    [PERMISSIONS[permission] || []] keeps an own entry (an array is truthy
    even when empty) and an inherited member (truthy as well); only
    [undefined] is replaced by the empty array.  An inherited member has
    no [includes] method, so calling it throws. *)
Definition hasPermission (userRole : option string) (permission : string)
  : completion bool :=
  if negb (truthy_string userRole) then Normal false
  else
    match userRole with
    | Some r =>
        match get_property PERMISSIONS permission with
        | Own allowedRoles => Normal (bool_decide (r ∈ allowedRoles))
        | Inherited => TypeError
        | Absent => Normal (bool_decide (r ∈ @nil string))
        end
    | None => Normal false
    end.

(** A guard [hasPermission('NAME') && ...] in a component.  Every NAME
    written in the components is a key of [PERMISSIONS], where the check
    returns normally; a throwing check would abort the render, leaving no
    control on the screen. *)
Definition granted (userRole : option string) (permission : string) : bool :=
  match hasPermission userRole permission with
  | Normal b => b
  | TypeError => false
  end.

(* ===================================================================== *)
(** * Data model *)
(* ===================================================================== *)

(** The value stored in [riskProfile.tier]: a number, or a label such as
    ["unassessed"]. *)
Inductive tier_value : Type :=
  | TierNumber (n : Z)
  | TierLabel (s : string).

Record RiskProfile := {
  tier : option tier_value;
  (** dimension name -> score; a dimension that is missing has no key *)
  wellnessScores : option (gmap string Z);
  zCodes : option (list string)
}.

Record TeamMember := { member_role : option string }.

Record Enrollee := {
  riskProfile : option RiskProfile;
  careTeam : option (list TeamMember)
}.

Record EligibilityCriteria := {
  criteria_zCodes : option (list string);
  income : option string
}.

Record Resource := {
  resource_name : string;
  eligibilityCriteria : option EligibilityCriteria
}.

Record Referral := {
  status : option string;
  resourceName : option string;
  referringUserId : string
}.

(** [e.riskProfile?.tier], [e.riskProfile?.wellnessScores] and
    [e.riskProfile?.zCodes] *)
Definition tier_of (e : Enrollee) : option tier_value :=
  riskProfile e ≫= tier.
Definition wellnessScores_of (e : Enrollee) : option (gmap string Z) :=
  riskProfile e ≫= wellnessScores.
Definition zCodes_of (e : Enrollee) : option (list string) :=
  riskProfile e ≫= zCodes.

(** [e.riskProfile?.tier === n] *)
Definition tier_is (n : Z) (e : Enrollee) : bool :=
  match tier_of e with
  | Some (TierNumber m) => bool_decide (m = n)
  | _ => false
  end.

(** [r.status === s] *)
Definition status_is (s : string) (r : Referral) : bool :=
  bool_decide (status r = Some s).

(* ===================================================================== *)
(** * Eligibility filter *)
(* ===================================================================== *)

(** The empty object [{}] substituted for a missing [eligibilityCriteria]. *)
Definition empty_criteria : EligibilityCriteria :=
  {| criteria_zCodes := None; income := None |}.

(** The callback passed to [resources.filter] in [filteredResources]. *)
Definition isEligible (selectedEnrollee : Enrollee) (resource : Resource)
  : bool :=
  let criteria := default empty_criteria (eligibilityCriteria resource) in
  let enrolleeZCodes := default [] (zCodes_of selectedEnrollee) in
  match criteria_zCodes criteria with
  | Some codes =>
      if (0 <? length codes)%nat then
        let hasMatchingZCode :=
          existsb (λ code, bool_decide (code ∈ enrolleeZCodes)) codes in
        if negb hasMatchingZCode then false else true
      else true
  | None => true
  end.

Definition filteredResources (selectedEnrollee : option Enrollee)
    (resources : list Resource) : list Resource :=
  match selectedEnrollee with
  | Some e => List.filter (isEligible e) resources
  | None => resources
  end.

(* ===================================================================== *)
(** * Wellness helpers *)
(* ===================================================================== *)

Definition dimensions : list string :=
  ["physical"; "emotional"; "social"; "intellectual"; "occupational";
   "environmental"; "financial"; "spiritual"].

(** [score || 0] *)
Definition score_or_zero (score : option Z) : number :=
  match score with
  | Some z => if bool_decide (z = 0%Z) then of_Z 0 else of_Z z
  | None => of_Z 0
  end.

(** [calculateWellnessScore] of the application shell; the argument is
    [None] for a null enrollee. *)
Definition calculateWellnessScore (enrollee : option Enrollee) : number :=
  match enrollee ≫= wellnessScores_of with
  | None => of_Z 0
  | Some scores =>
      let dims :=
        [ score_or_zero (scores !! "physical");
          score_or_zero (scores !! "emotional");
          score_or_zero (scores !! "social");
          score_or_zero (scores !! "intellectual");
          score_or_zero (scores !! "occupational");
          score_or_zero (scores !! "environmental");
          score_or_zero (scores !! "financial");
          score_or_zero (scores !! "spiritual") ] in
      let sum := js_sum dims in
      Math_round (js_div sum (of_nat (length dims)))
  end.

(** [dimensions.map(dim => scores[dim]).filter(v => typeof v === 'number')] *)
Definition present_scores (scores : gmap string Z) : list Z :=
  omap id ((λ dim, scores !! dim) <$> dimensions).

(** [calculateEnrolleeWellness] of the analytics service. *)
Definition calculateEnrolleeWellness (enrollee : Enrollee) : number :=
  match wellnessScores_of enrollee with
  | None => of_Z 0
  | Some scores =>
      let values := present_scores scores in
      if (0 <? length values)%nat
      then js_div (js_sum (of_Z <$> values)) (of_nat (length values))
      else of_Z 0
  end.

(* ===================================================================== *)
(** * Aggregate analytics *)
(* ===================================================================== *)

(** The inner [dimensions.forEach] of [calculateAverageWellness], on the
    running pair [(totalScore, scoreCount)]. *)
Definition add_scores (scores : gmap string Z) (acc : number * nat)
  : number * nat :=
  foldl (λ '(totalScore, scoreCount) dim,
           match scores !! dim with
           | Some score => (js_add totalScore (of_Z score), S scoreCount)
           | None => (totalScore, scoreCount)
           end) acc dimensions.

(** The [enrollees.forEach] of [calculateAverageWellness]. *)
Definition wellness_totals (enrollees : list Enrollee) : number * nat :=
  foldl (λ acc enrollee,
           match wellnessScores_of enrollee with
           | Some scores => add_scores scores acc
           | None => acc
           end) (of_Z 0, 0%nat) enrollees.

Definition calculateAverageWellness (enrollees : list Enrollee) : number :=
  if (length enrollees =? 0)%nat then of_Z 0
  else
    let '(totalScore, scoreCount) := wellness_totals enrollees in
    if (0 <? scoreCount)%nat
    then Math_round (js_div totalScore (of_nat scoreCount))
    else of_Z 0.

Definition calculateWellnessDimensions (enrollees : list Enrollee)
  : gmap string number :=
  foldl (λ averages dim,
           let scores :=
             omap (λ e, wellnessScores_of e ≫= (.!! dim))
                  enrollees in
           <[dim := if (0 <? length scores)%nat
                    then js_div (js_sum (of_Z <$> scores))
                                (of_nat (length scores))
                    else of_Z 0]> averages)
        ∅ dimensions.

Record RiskDistribution := {
  tier1 : nat; tier2 : nat; tier3 : nat;
  tier1Percent : number; tier2Percent : number; tier3Percent : number
}.

(** [Math.round((count / total) * 100)] *)
Definition percent_of (count total : nat) : number :=
  Math_round (js_mul (js_div (of_nat count) (of_nat total)) (of_Z 100)).

Definition calculateRiskDistribution (enrollees : list Enrollee)
  : RiskDistribution :=
  let total := length enrollees in
  if (total =? 0)%nat then
    {| tier1 := 0; tier2 := 0; tier3 := 0;
       tier1Percent := of_Z 0; tier2Percent := of_Z 0;
       tier3Percent := of_Z 0 |}
  else
    let tier1 := length (List.filter (tier_is 1) enrollees) in
    let tier2 := length (List.filter (tier_is 2) enrollees) in
    let tier3 := length (List.filter (tier_is 3) enrollees) in
    {| tier1 := tier1; tier2 := tier2; tier3 := tier3;
       tier1Percent := percent_of tier1 total;
       tier2Percent := percent_of tier2 total;
       tier3Percent := percent_of tier3 total |}.

(** A value held by a counter object: a count, or the string that [+]
    produces once a count has been added to a member inherited from
    [Object.prototype] (the text of a function, or ["[object Object]"],
    followed by the digits added so far; the text itself is not
    modelled). *)
Inductive counter : Type :=
  | Count (n : nat)
  | Text.

(** [counts[key] = (counts[key] || 0) + 1], on a counter object created
    as [{}].  An inherited member is truthy, so [+ 1] appends to its
    text; the assignment then creates an own property, except for
    [__proto__], where assigning a string is ignored. *)
Definition bump (key : string) (counts : gmap string counter)
  : gmap string counter :=
  match get_property counts key with
  | Own (Count n) => <[key := Count (S n)]> counts
  | Own Text => <[key := Text]> counts
  | Inherited =>
      if bool_decide (key = "__proto__") then counts
      else <[key := Text]> counts
  | Absent => <[key := Count 1]> counts
  end.

(** [analyzeZCodes]; the sorted top-5 table is not part of this
    development.  [avgZCodesPerEnrollee] is the number 0 or the string
    returned by [toFixed(1)]. *)
Record ZCodeAnalysis := {
  zCodeCounts : gmap string counter;
  totalZCodes : nat;
  enrolleesWithZCodes : nat;
  avgZCodesPerEnrollee : value
}.

Definition analyzeZCodes (enrollees : list Enrollee) : ZCodeAnalysis :=
  let '(counts, total, withCodes) :=
    foldl (λ '(counts, total, withCodes) enrollee,
             let zs := default [] (zCodes_of enrollee) in
             if (0 <? length zs)%nat
             then (foldl (λ c code, bump code c) counts zs,
                   (total + length zs)%nat, S withCodes)
             else (counts, total, withCodes))
          (∅, 0%nat, 0%nat) enrollees in
  {| zCodeCounts := counts;
     totalZCodes := total;
     enrolleesWithZCodes := withCodes;
     avgZCodesPerEnrollee :=
       if (0 <? length enrollees)%nat
       then VStr (toFixed1 (js_div (of_nat total)
                                   (of_nat (length enrollees))))
       else VNum (of_Z 0) |}.

(** [analyzeCareTeams]; [avgTeamSize] is the number 0 or the string
    returned by [toFixed(1)]. *)
Record CareTeamAnalysis := {
  totalTeamMembers : nat;
  enrolleesWithTeams : nat;
  avgTeamSize : value;
  roleCounts : gmap string counter
}.

Definition analyzeCareTeams (enrollees : list Enrollee) : CareTeamAnalysis :=
  let '(total, withTeams, counts) :=
    foldl (λ '(total, withTeams, counts) enrollee,
             let team := default [] (careTeam enrollee) in
             if (0 <? length team)%nat
             then ((total + length team)%nat, S withTeams,
                   foldl (λ c member,
                            bump (string_or (member_role member) "Unknown") c)
                         counts team)
             else (total, withTeams, counts))
          (0%nat, 0%nat, ∅) enrollees in
  {| totalTeamMembers := total;
     enrolleesWithTeams := withTeams;
     avgTeamSize :=
       if (0 <? length enrollees)%nat
       then VStr (toFixed1 (js_div (of_nat total)
                                   (of_nat (length enrollees))))
       else VNum (of_Z 0);
     roleCounts := counts |}.

(** [analyzeReferrals]: the status counts, the acceptance rate and the
    per-resource counters; the sorted top-5 table is not part of this
    development. *)
Record ReferralMetrics := {
  statusCounts : gmap string nat;
  acceptanceRate : number;
  resourceCounts : gmap string counter
}.

Definition analyzeReferrals (referrals : list Referral) : ReferralMetrics :=
  let statusCounts : gmap string nat :=
    list_to_map
      [("Pending", length (List.filter (status_is "Pending") referrals));
       ("Accepted", length (List.filter (status_is "Accepted") referrals));
       ("Rejected", length (List.filter (status_is "Rejected") referrals))] in
  let acceptanceRate :=
    if (0 <? length referrals)%nat
    then percent_of (default 0%nat (statusCounts !! "Accepted"))
                    (length referrals)
    else of_Z 0 in
  let resourceCounts :=
    foldl (λ c referral,
             bump (string_or (resourceName referral) "Unknown") c)
          ∅ referrals in
  {| statusCounts := statusCounts;
     acceptanceRate := acceptanceRate;
     resourceCounts := resourceCounts |}.

Record Trends := {
  improving : nat; stable : nat; declining : nat;
  improvingPercent : number; stablePercent : number;
  decliningPercent : number
}.

(** The three [enrollees.filter] callbacks of [calculateTrends]. *)
Definition is_improving (avgWellness : number) (e : Enrollee) : bool :=
  let wellness := calculateEnrolleeWellness e in
  js_gt wellness (js_add avgWellness (of_Z 10)).

Definition is_stable (avgWellness : number) (e : Enrollee) : bool :=
  let wellness := calculateEnrolleeWellness e in
  js_le (Math_abs (js_sub wellness avgWellness)) (of_Z 10).

Definition is_declining (avgWellness : number) (e : Enrollee) : bool :=
  let wellness := calculateEnrolleeWellness e in
  js_lt wellness (js_sub avgWellness (of_Z 10)).

Definition calculateTrends (enrollees : list Enrollee) : Trends :=
  let avgWellness := calculateAverageWellness enrollees in
  let improving := length (List.filter (is_improving avgWellness) enrollees) in
  let stable := length (List.filter (is_stable avgWellness) enrollees) in
  let declining := length (List.filter (is_declining avgWellness) enrollees) in
  let percent (count : nat) :=
    if (0 <? length enrollees)%nat
    then percent_of count (length enrollees) else of_Z 0 in
  {| improving := improving; stable := stable; declining := declining;
     improvingPercent := percent improving;
     stablePercent := percent stable;
     decliningPercent := percent declining |}.

(* ===================================================================== *)
(** * Referral status transitions *)
(* ===================================================================== *)

(** State of a mounted [ReferralsPage]: the signed-in user, the role held
    by [usePermissions], the page's [referrals] state (the documents of
    the last snapshot of its query, by id) and the referral whose
    cancel-confirmation dialog is open. *)
Record ReferralsPage := {
  page_uid : string;
  page_userRole : option string;
  page_referrals : gmap string Referral;
  cancelingReferralId : option string
}.

Inductive response : Type := Accepted | Rejected.

Definition response_label (a : response) : string :=
  match a with Accepted => "Accepted" | Rejected => "Rejected" end.

(** State of a mounted [ReferralInboxPage]: the role, the page's
    [referrals] state, and the dialog state; [selectedReferral] keeps the
    id of the chosen referral and the chosen action. *)
Record ReferralInboxPage := {
  inbox_userRole : option string;
  inbox_referrals : gmap string Referral;
  selectedReferral : option (string * response);
  showResponseDialog : bool
}.

(** The referral collection of the document store together with one
    session on each of the two pages.  A page does not read the store
    when it renders or handles a click: it reads its own [referrals]
    state, which a snapshot listener refreshes asynchronously. *)
Record World := {
  referrals : gmap string Referral;
  page : ReferralsPage;
  inbox : ReferralInboxPage
}.

Definition set_status (s : string) (r : Referral) : Referral :=
  {| status := Some s;
     resourceName := resourceName r;
     referringUserId := referringUserId r |}.

(** [updateDoc(referralRef, { status: s })]: rejects ([None]) when the
    document does not exist. *)
Definition updateDoc_status (id s : string) (docs : gmap string Referral)
  : option (gmap string Referral) :=
  match docs !! id with
  | Some r => Some (<[id := set_status s r]> docs)
  | None => None
  end.

Definition set_canceling (o : option string) (p : ReferralsPage)
  : ReferralsPage :=
  {| page_uid := page_uid p;
     page_userRole := page_userRole p;
     page_referrals := page_referrals p;
     cancelingReferralId := o |}.

(** The snapshot listener of [ReferralsPage]: [setReferrals] with the
    documents matching [where('referringUserId', '==', user.uid)]. *)
Definition page_onSnapshot (docs : gmap string Referral) (p : ReferralsPage)
  : ReferralsPage :=
  {| page_uid := page_uid p;
     page_userRole := page_userRole p;
     page_referrals :=
       filter (λ kr, referringUserId kr.2 = page_uid p) docs;
     cancelingReferralId := cancelingReferralId p |}.

(** The snapshot listener of [ReferralInboxPage]: [setReferrals] with
    all documents of the collection. *)
Definition inbox_onSnapshot (docs : gmap string Referral)
    (i : ReferralInboxPage) : ReferralInboxPage :=
  {| inbox_userRole := inbox_userRole i;
     inbox_referrals := docs;
     selectedReferral := selectedReferral i;
     showResponseDialog := showResponseDialog i |}.

(** The profile listener of [usePermissions]: [setUserRole]. *)
Definition page_onProfile (profileSnap : option Profile) (p : ReferralsPage)
  : ReferralsPage :=
  {| page_uid := page_uid p;
     page_userRole := Some (resolveRole profileSnap);
     page_referrals := page_referrals p;
     cancelingReferralId := cancelingReferralId p |}.

Definition inbox_onProfile (profileSnap : option Profile)
    (i : ReferralInboxPage) : ReferralInboxPage :=
  {| inbox_userRole := Some (resolveRole profileSnap);
     inbox_referrals := inbox_referrals i;
     selectedReferral := selectedReferral i;
     showResponseDialog := showResponseDialog i |}.

(** [handleCancelReferral(referralId)]: the write carries no condition;
    a rejected write is caught and leaves the dialog open. *)
Definition handleCancelReferral (referralId : string) (w : World) : World :=
  match updateDoc_status referralId "Cancelled" (referrals w) with
  | Some docs =>
      {| referrals := docs;
         page := set_canceling None (page w);
         inbox := inbox w |}
  | None => w
  end.

(** [handleRespond(referral, action)] *)
Definition handleRespond (id : string) (action : response) (w : World)
  : World :=
  {| referrals := referrals w;
     page := page w;
     inbox := {| inbox_userRole := inbox_userRole (inbox w);
                 inbox_referrals := inbox_referrals (inbox w);
                 selectedReferral := Some (id, action);
                 showResponseDialog := true |} |}.

(** [submitResponse()] *)
Definition submitResponse (w : World) : World :=
  match selectedReferral (inbox w) with
  | None => w
  | Some (id, action) =>
      match updateDoc_status id (response_label action) (referrals w) with
      | Some docs =>
          {| referrals := docs;
             page := page w;
             inbox := {| inbox_userRole := inbox_userRole (inbox w);
                         inbox_referrals := inbox_referrals (inbox w);
                         selectedReferral := None;
                         showResponseDialog := false |} |}
      | None => w
      end
  end.

(** What can happen to the two sessions: the listeners run, and the
    users operate the controls that are on the screen. *)
Inductive Event : Type :=
  | PageSnapshot                     (* referrals listener of ReferralsPage *)
  | PageProfile (profileSnap : option Profile)
                                     (* profile listener of that session *)
  | ClickCancel (id : string)        (* "Cancel Referral" on a card *)
  | KeepReferral                     (* "No, Keep It", or dialog dismissed *)
  | ConfirmCancel                    (* "Yes, Cancel Referral" *)
  | InboxSnapshot                    (* referrals listener of the inbox *)
  | InboxProfile (profileSnap : option Profile)
  | ClickRespond (id : string) (action : response)
                                     (* "Accept" / "Reject Referral" *)
  | CloseResponse                    (* "Cancel" in the response dialog *)
  | SubmitResponse.                  (* "Confirm ..." in the response dialog *)

(** The card footer of [ReferralsPage] and its cancel button, for a
    referral [r] of the page's [referrals] state: rendered when
    [(hasPermission('EDIT_REFERRAL') || hasPermission('CANCEL_REFERRAL'))
     && referral.status === 'Pending'] and [hasPermission('CANCEL_REFERRAL')]. *)
Definition cancel_button_shown (p : ReferralsPage) (r : Referral) : bool :=
  ((granted (page_userRole p) "EDIT_REFERRAL"
    || granted (page_userRole p) "CANCEL_REFERRAL")
   && status_is "Pending" r)
  && granted (page_userRole p) "CANCEL_REFERRAL".

(** The card footer of [ReferralInboxPage], for a referral [r] of the
    page's [referrals] state:
    [referral.status === 'Pending' && hasPermission('RESPOND_REFERRAL')]. *)
Definition respond_buttons_shown (i : ReferralInboxPage) (r : Referral)
  : bool :=
  status_is "Pending" r && granted (inbox_userRole i) "RESPOND_REFERRAL".

(** One event; [None] when the control is not on the screen. *)
Definition step (w : World) (ev : Event) : option World :=
  match ev with
  | PageSnapshot =>
      Some {| referrals := referrals w;
              page := page_onSnapshot (referrals w) (page w);
              inbox := inbox w |}
  | PageProfile profileSnap =>
      Some {| referrals := referrals w;
              page := page_onProfile profileSnap (page w);
              inbox := inbox w |}
  | ClickCancel id =>
      match page_referrals (page w) !! id with
      | Some r =>
          if cancel_button_shown (page w) r
          then Some {| referrals := referrals w;
                       page := set_canceling (Some id) (page w);
                       inbox := inbox w |}
          else None
      | None => None
      end
  | KeepReferral =>
      match cancelingReferralId (page w) with
      | Some _ => Some {| referrals := referrals w;
                          page := set_canceling None (page w);
                          inbox := inbox w |}
      | None => None
      end
  | ConfirmCancel =>
      match cancelingReferralId (page w) with
      | Some id => Some (handleCancelReferral id w)
      | None => None
      end
  | InboxSnapshot =>
      Some {| referrals := referrals w;
              page := page w;
              inbox := inbox_onSnapshot (referrals w) (inbox w) |}
  | InboxProfile profileSnap =>
      Some {| referrals := referrals w;
              page := page w;
              inbox := inbox_onProfile profileSnap (inbox w) |}
  | ClickRespond id action =>
      match inbox_referrals (inbox w) !! id with
      | Some r =>
          if respond_buttons_shown (inbox w) r
          then Some (handleRespond id action w)
          else None
      | None => None
      end
  | CloseResponse =>
      if showResponseDialog (inbox w)
      then Some {| referrals := referrals w;
                   page := page w;
                   inbox := {| inbox_userRole := inbox_userRole (inbox w);
                               inbox_referrals := inbox_referrals (inbox w);
                               selectedReferral := selectedReferral (inbox w);
                               showResponseDialog := false |} |}
      else None
  | SubmitResponse =>
      if showResponseDialog (inbox w) then Some (submitResponse w) else None
  end.

(** A sequence of events. *)
Fixpoint exec (w : World) (evs : list Event) : option World :=
  match evs with
  | [] => Some w
  | ev :: evs' =>
      match step w ev with
      | Some w' => exec w' evs'
      | None => None
      end
  end.

(** [status] of the stored document [id]. *)
Definition status_at (w : World) (id : string) : option string :=
  referrals w !! id ≫= status.


Definition inbox_status_at (w : World) (id : string) : option string :=
  inbox_referrals (inbox w) !! id ≫= status.

(** Both dialogs closed, as on a freshly mounted page. *)
Definition dialogs_closed (w : World) : Prop :=
  cancelingReferralId (page w) = None
  ∧ showResponseDialog (inbox w) = false.







(* ===================================================================== *)
(** * The rules as the specification words them *)
(* ===================================================================== *)

(** Per-subject wellness in the specification's words: the mean of the 8
    named dimensions, 0 substituted for a missing one, rounded to the
    nearest integer. *)
Definition dimension_or_zero (e : Enrollee) (dim : string) : Z :=
  default 0%Z (wellnessScores_of e ≫= (.!! dim)).

Definition dimension_total (e : Enrollee) : Z :=
  foldr Z.add 0%Z (dimension_or_zero e <$> dimensions).

Definition per_subject_wellness_spec (e : Enrollee) : Z :=
  round_half_up (Qc_of_Z (dimension_total e) / Qc_of_Z 8)%Qc.

(** Trend buckets in the specification's words. *)
Inductive trend : Type := Improving | Stable | Declining.

Global Instance trend_eq_dec : EqDecision trend.
Proof. solve_decision. Defined.

Definition classify (avg wellness : Qc) : trend :=
  if bool_decide (avg + Qc_of_Z 10 < wellness)%Qc then Improving
  else if bool_decide (wellness < avg - Qc_of_Z 10)%Qc then Declining
  else Stable.

(** The bucket the specification assigns to a subject: its per-subject
    wellness, with 0 for missing dimensions, against the average [avg]. *)
Definition trend_spec (avg : Qc) (e : Enrollee) : trend :=
  classify avg (Qc_of_Z (per_subject_wellness_spec e)).

(** The mean of the dimensions that are present, unrounded; 0 when none
    is. *)
Definition present_mean (e : Enrollee) : Qc :=
  match wellnessScores_of e with
  | Some scores =>
      let values := present_scores scores in
      if (0 <? length values)%nat
      then (Qc_of_Z (foldr Z.add 0%Z values)
            / Qc_of_Z (Z.of_nat (length values)))%Qc
      else 0%Qc
  | None => 0%Qc
  end.

(** [resource.eligibilityCriteria.zCodes], empty when absent. *)
Definition resource_codes (resource : Resource) : list string :=
  default [] (eligibilityCriteria resource ≫= criteria_zCodes).

(** [statusCounts[s]], 0 when the key is missing. *)
Definition status_count (m : ReferralMetrics) (s : string) : nat :=
  default 0%nat (statusCounts m !! s).

(** The referral's status is none of the three that are counted. *)
Definition uncounted_status (r : Referral) : bool :=
  negb (status_is "Pending" r || status_is "Accepted" r
        || status_is "Rejected" r).

(* ===================================================================== *)
(** * Sample records *)
(* ===================================================================== *)

(** A wellness-score object with the same value in all 8 dimensions. *)
Definition uniform_scores (v : Z) : gmap string Z :=
  list_to_map ((λ dim, (dim, v)) <$> dimensions).

(** An enrollee with the given tier and wellness scores. *)
Definition enrollee_with (t : option tier_value) (scores : gmap string Z)
  : Enrollee :=
  {| riskProfile :=
       Some {| tier := t; wellnessScores := Some scores; zCodes := None |};
     careTeam := None |}.

(** An enrollee with the given Z-codes and nothing else. *)
Definition enrollee_with_codes (codes : list string) : Enrollee :=
  {| riskProfile :=
       Some {| tier := None; wellnessScores := None; zCodes := Some codes |};
     careTeam := None |}.

(** An enrollee without a risk profile. *)
Definition bare_enrollee : Enrollee :=
  {| riskProfile := None; careTeam := None |}.

Definition referral_with (s : string) : Referral :=
  {| status := Some s; resourceName := None; referringUserId := "u1" |}.

(** One Pending referral [r1] created by [u1] in the store; [u1] has just
    opened the referrals page and another user the inbox: no role and no
    snapshot has arrived yet. *)
Definition sample_world : World :=
  {| referrals := {[ "r1" := referral_with "Pending" ]};
     page := {| page_uid := "u1";
                page_userRole := None;
                page_referrals := ∅;
                cancelingReferralId := None |};
     inbox := {| inbox_userRole := None;
                 inbox_referrals := ∅;
                 selectedReferral := None;
                 showResponseDialog := false |} |}.

(** Both sessions load: [u1] turns out to be an Enrollment Manager, the
    inbox user a Partner, and each page receives its first snapshot. *)
Definition sample_loading : list Event :=
  [PageProfile (Some {| role := Some "Enrollment Manager" |}); PageSnapshot;
   InboxProfile (Some {| role := Some "Partner" |}); InboxSnapshot].

(** The subject's tier is one of the three that are counted. *)
Definition assessed (e : Enrollee) : bool :=
  tier_is 1 e || tier_is 2 e || tier_is 3 e.

(** A population whose average wellness is 50: uniform scores of 65, 50,
    30 and 55. *)
Definition sample_population : list Enrollee :=
  [enrollee_with None (uniform_scores 65);
   enrollee_with None (uniform_scores 50);
   enrollee_with None (uniform_scores 30);
   enrollee_with None (uniform_scores 55)].

(* ===================================================================== *)
(** * Risk prediction and wellness labels *)
(* ===================================================================== *)

(** [x >= y] *)
Definition js_ge (x y : number) : bool := js_le y x.

(** [predictRecommendedTier(wellness, zCodeCount, currentTier)] *)
Definition predictRecommendedTier (wellness : number) (zCodeCount : nat)
    (currentTier : tier_value) : Z :=
  if js_gt wellness (of_Z 70) && (zCodeCount <=? 2)%nat then 1%Z
  else if js_lt wellness (of_Z 40) || (5 <=? zCodeCount)%nat then 3%Z
  else 2%Z.

(** [tier || d] *)
Definition tier_or (d : Z) (t : option tier_value) : tier_value :=
  match t with
  | Some (TierNumber n) => if bool_decide (n = 0%Z) then TierNumber d else TierNumber n
  | Some (TierLabel s) =>
      if bool_decide (s = EmptyString) then TierNumber d else TierLabel s
  | None => TierNumber d
  end.

Record RiskPrediction := {
  prediction : string;
  confidence : number;
  recommendedTier : Z
}.

(** The literals 0.75, 0.7 and 0.6. *)
Definition conf_075 : number := Finite (Q2Qc (75 # 100)).
Definition conf_07 : number := Finite (Q2Qc (7 # 10)).
Definition conf_06 : number := Finite (Q2Qc (6 # 10)).

Definition predictRiskTrend (enrollee : Enrollee) : RiskPrediction :=
  let wellness := calculateEnrolleeWellness enrollee in
  let zCodeCount := length (default [] (zCodes_of enrollee)) in
  let currentTier := tier_or 2 (tier_of enrollee) in
  let '(prediction, confidence) :=
    if js_gt wellness (of_Z 70) && (zCodeCount <=? 2)%nat
    then ("improving", conf_075)
    else if js_lt wellness (of_Z 40) && (4 <=? zCodeCount)%nat
    then ("declining", conf_07)
    else ("stable", conf_06) in
  {| prediction := prediction;
     confidence := Math_round (js_mul confidence (of_Z 100));
     recommendedTier :=
       predictRecommendedTier wellness zCodeCount currentTier |}.

(** [calculateRiskTier(lscmiTotalScore)] of the assessment mapper. *)
Definition calculateRiskTier (lscmiTotalScore : number) : Z :=
  if js_le lscmiTotalScore (of_Z 11) then 1%Z
  else if js_le lscmiTotalScore (of_Z 20) then 2%Z
  else if js_le lscmiTotalScore (of_Z 31) then 2%Z
  else 3%Z.

Record WellnessColor := { bg : string; text : string; label : string }.

(** [getWellnessColor(score)] *)
Definition getWellnessColor (score : number) : WellnessColor :=
  if js_ge score (of_Z 70)
  then {| bg := "#22c55e"; text := "#16a34a"; label := "Good" |}
  else if js_ge score (of_Z 40)
  then {| bg := "#eab308"; text := "#ca8a04"; label := "At Risk" |}
  else {| bg := "#ef4444"; text := "#dc2626"; label := "High Risk" |}.

(** [getWellnessLevel(score)] *)
Definition getWellnessLevel (score : number) : string :=
  if js_ge score (of_Z 70) then "Good"
  else if js_ge score (of_Z 40) then "At Risk"
  else "High Risk".

(* ===================================================================== *)
(** * Frequency tables *)
(* ===================================================================== *)

(** The number held by a counter, 0 for a text. *)
Definition count_of (c : counter) : nat :=
  match c with Count n => n | Text => 0%nat end.

(** The sum of all counts of a frequency table. *)
Definition count_total (counts : gmap string counter) : nat :=
  map_fold (λ _ c acc, (count_of c + acc)%nat) 0%nat counts.

(** What a counter object built by [bump] holds: counts under plain
    keys, texts under the names of inherited members, and nothing under
    [__proto__]. *)
Definition tallied (counts : gmap string counter) : Prop :=
  ∀ key c, counts !! key = Some c →
    if bool_decide (key ∈ Object_prototype_members)
    then c = Text ∧ key ≠ "__proto__"
    else ∃ n, c = Count n ∧ (0 < n)%nat.

(** The keys that are not names of inherited members. *)
Definition plain_keys (keys : list string) : list string :=
  List.filter (λ k, negb (bool_decide (k ∈ Object_prototype_members))) keys.

(** How often [key] occurs in [keys]. *)
Definition occurrences (key : string) (keys : list string) : nat :=
  length (List.filter (λ k, bool_decide (k = key)) keys).

(** All Z-codes of all enrollees, in order. *)
Definition all_zCodes (enrollees : list Enrollee) : list string :=
  concat ((λ e, default [] (zCodes_of e)) <$> enrollees).

(** The role labels ([member.role || 'Unknown']) of all care-team members
    of all enrollees, in order. *)
Definition all_team_roles (enrollees : list Enrollee) : list string :=
  concat ((λ e, (λ member, string_or (member_role member) "Unknown")
                <$> default [] (careTeam e)) <$> enrollees).

(** Every recorded wellness score of the enrollee lies within 0..100. *)
Definition scores_in_range (e : Enrollee) : Prop :=
  ∀ scores dim v,
    wellnessScores_of e = Some scores → scores !! dim = Some v →
    (0 ≤ v ≤ 100)%Z.

(* ===================================================================== *)
(** * Cohorts and the risk-tier chart *)
(* ===================================================================== *)

(** One row of [analyzeByRiskTier]: the fields [tier], [count],
    [avgWellness] and [avgZCodes]. *)
Record TierCohort := {
  cohort_tier : string;
  cohort_count : nat;
  cohort_avgWellness : number;
  cohort_avgZCodes : number
}.

(** [e.riskProfile?.zCodes?.length || 0] *)
Definition zCode_count (e : Enrollee) : nat :=
  length (default [] (zCodes_of e)).

Definition analyzeByRiskTier (enrollees : list Enrollee) : list TierCohort :=
  let tiers :=
    [("1", List.filter (tier_is 1) enrollees);
     ("2", List.filter (tier_is 2) enrollees);
     ("3", List.filter (tier_is 3) enrollees)] in
  (λ '(tier, enrollees),
     {| cohort_tier := "Tier " +:+ tier;
        cohort_count := length enrollees;
        cohort_avgWellness := calculateAverageWellness enrollees;
        cohort_avgZCodes :=
          if (0 <? length enrollees)%nat
          then js_div (foldl (λ sum e, js_add sum (of_nat (zCode_count e)))
                             (of_Z 0) enrollees)
                      (of_nat (length enrollees))
          else of_Z 0 |}) <$> tiers.

(** [e.riskProfile?.zCodes?.some(code => code.startsWith(prefix))], an
    absent list counting as false. *)
Definition has_code_with_prefix (prefix : string) (e : Enrollee) : bool :=
  match zCodes_of e with
  | Some codes => existsb (String.prefix prefix) codes
  | None => false
  end.

(** [!e.riskProfile?.zCodes || e.riskProfile.zCodes.length === 0] *)
Definition without_zCodes (e : Enrollee) : bool :=
  match zCodes_of e with
  | Some codes => (length codes =? 0)%nat
  | None => true
  end.

(** The [categories] object of [analyzeByZCode]. *)
Definition zCode_categories (enrollees : list Enrollee)
  : list (string * list Enrollee) :=
  [("Housing Insecurity",
    List.filter (has_code_with_prefix "Z59") enrollees);
   ("Employment Issues",
    List.filter (has_code_with_prefix "Z56") enrollees);
   ("Educational Problems",
    List.filter (has_code_with_prefix "Z55") enrollees);
   ("No Z-Codes", List.filter without_zCodes enrollees)].

(** [!e.riskProfile?.tier]: the tier is absent, 0 or the empty string. *)
Definition tier_falsy (e : Enrollee) : bool :=
  match tier_of e with
  | None => true
  | Some (TierNumber n) => bool_decide (n = 0%Z)
  | Some (TierLabel s) => bool_decide (s = EmptyString)
  end.

(** The [tierCounts] object of [RiskTierChart]. *)
Record TierCounts := {
  chart_tier1 : nat; chart_tier2 : nat; chart_tier3 : nat; noTier : nat
}.

Definition tierCounts (enrollees : list Enrollee) : TierCounts :=
  {| chart_tier1 := length (List.filter (tier_is 1) enrollees);
     chart_tier2 := length (List.filter (tier_is 2) enrollees);
     chart_tier3 := length (List.filter (tier_is 3) enrollees);
     noTier := length (List.filter tier_falsy enrollees) |}.


(* ===================================================================== *)
(** * Navigation *)
(* ===================================================================== *)

(** A navigation entry of [Sidebar]; [icon] is the name of the icon
    component. *)
Record NavItem := {
  nav_id : string;
  nav_label : string;
  nav_icon : string;
  nav_permission : option string;
  nav_divider : bool
}.

Definition partnerNavItems : list NavItem :=
  [ {| nav_id := "provider-dashboard"; nav_label := "Partner Dashboard";
       nav_icon := "Home"; nav_permission := None; nav_divider := false |};
    {| nav_id := "referral-inbox"; nav_label := "Referral Inbox";
       nav_icon := "Send"; nav_permission := None; nav_divider := false |};
    {| nav_id := "resources"; nav_label := "Resources";
       nav_icon := "BookHeart"; nav_permission := None;
       nav_divider := false |} ].

Definition enrollmentManagerNavItems : list NavItem :=
  [ {| nav_id := "dashboard"; nav_label := "Dashboard";
       nav_icon := "Home"; nav_permission := None; nav_divider := false |};
    {| nav_id := "enrollees"; nav_label := "My Enrollees";
       nav_icon := "Users"; nav_permission := Some "VIEW_ENROLLEE";
       nav_divider := false |};
    {| nav_id := "resources"; nav_label := "Resources";
       nav_icon := "BookHeart"; nav_permission := Some "VIEW_RESOURCE";
       nav_divider := false |};
    {| nav_id := "referrals"; nav_label := "Referrals";
       nav_icon := "Send"; nav_permission := Some "VIEW_REFERRAL";
       nav_divider := false |};
    {| nav_id := "create"; nav_label := "New Enrollee";
       nav_icon := "PlusCircle"; nav_permission := Some "CREATE_ENROLLEE";
       nav_divider := false |};
    {| nav_id := "load-data"; nav_label := "Load Sample Data";
       nav_icon := "Database"; nav_permission := Some "LOAD_SAMPLE_DATA";
       nav_divider := false |} ].

Definition adminNavItems : list NavItem :=
  [ {| nav_id := "admin-portal"; nav_label := "Admin Portal";
       nav_icon := "UserCircle2"; nav_permission := None;
       nav_divider := true |};
    {| nav_id := "dashboard"; nav_label := "Dashboard";
       nav_icon := "Home"; nav_permission := None; nav_divider := false |};
    {| nav_id := "enrollees"; nav_label := "My Enrollees";
       nav_icon := "Users"; nav_permission := None; nav_divider := false |};
    {| nav_id := "resources"; nav_label := "Resources";
       nav_icon := "BookHeart"; nav_permission := None;
       nav_divider := false |};
    {| nav_id := "referrals"; nav_label := "Referrals";
       nav_icon := "Send"; nav_permission := None; nav_divider := false |};
    {| nav_id := "create"; nav_label := "New Enrollee";
       nav_icon := "PlusCircle"; nav_permission := None;
       nav_divider := false |};
    {| nav_id := "provider-dashboard"; nav_label := "Partner Dashboard";
       nav_icon := "Home"; nav_permission := None; nav_divider := true |};
    {| nav_id := "referral-inbox"; nav_label := "Referral Inbox";
       nav_icon := "Send"; nav_permission := None; nav_divider := false |};
    {| nav_id := "load-data"; nav_label := "Load Sample Data";
       nav_icon := "Database"; nav_permission := None;
       nav_divider := false |} ].

(** [isAdmin] and [isPartner] of [usePermissions]. *)
Definition isAdmin (userRole : option string) : bool :=
  bool_decide (userRole = Some ROLES_ADMIN).
Definition isPartner (userRole : option string) : bool :=
  bool_decide (userRole = Some ROLES_PARTNER).

(** [items.filter(callback)] for a callback that can throw. *)
Fixpoint filter_completion {A : Type} (callback : A → completion bool)
    (items : list A) : completion (list A) :=
  match items with
  | [] => Normal []
  | item :: items' =>
      match callback item with
      | Normal keep =>
          match filter_completion callback items' with
          | Normal rest => Normal (if keep then item :: rest else rest)
          | TypeError => TypeError
          end
      | TypeError => TypeError
      end
  end.

(** The [navItems] of [Sidebar]. *)
Definition navItems (userRole : option string) : completion (list NavItem) :=
  let allNavItems :=
    if isAdmin userRole then adminNavItems
    else if isPartner userRole then partnerNavItems
    else enrollmentManagerNavItems in
  if isAdmin userRole then Normal allNavItems
  else if isPartner userRole then Normal allNavItems
  else filter_completion
         (λ item,
            match nav_permission item with
            | Some permission =>
                if negb (truthy_string (Some permission)) then Normal true
                else hasPermission userRole permission
            | None => Normal true
            end)
         allNavItems.

(** The page component that [ContentArea] renders for [currentPage]. *)
Definition ContentArea (currentPage : string) : string :=
  if bool_decide (currentPage = "admin-portal") then "AdminPortalPage"
  else if bool_decide (currentPage = "dashboard") then "DashboardPage"
  else if bool_decide (currentPage = "enrollees") then "MyEnrolleesPage"
  else if bool_decide (currentPage = "resources") then "ResourcesPage"
  else if bool_decide (currentPage = "referrals") then "ReferralsPage"
  else if bool_decide (currentPage = "create") then "RecordCreationPage"
  else if bool_decide (currentPage = "profile") then "EnrolleeProfilePage"
  else if bool_decide (currentPage = "load-data") then "LoadDataPage"
  else if bool_decide (currentPage = "provider-dashboard")
       then "ResourceProviderDashboard"
  else if bool_decide (currentPage = "referral-inbox")
       then "ReferralInboxPage"
  else "DashboardPage".

(** The explicit [case] labels of [ContentArea]. *)
Definition routed_pages : list string :=
  ["admin-portal"; "dashboard"; "enrollees"; "resources"; "referrals";
   "create"; "profile"; "load-data"; "provider-dashboard";
   "referral-inbox"].

(** The state that decides the landing page: [db] and [user] of
    [FirebaseProvider] ([db] records whether it is set), [userRole] and
    [loading] of [usePermissions], [hasSetInitialPage] of [AppContent]
    and [currentPage] of [App]. *)
Record Shell := {
  db : bool;
  user : option string;
  userRole : option string;
  permissionsLoading : bool;
  hasSetInitialPage : bool;
  currentPage : string
}.

(** The [useState] initial values. *)
Definition initial_Shell : Shell :=
  {| db := false; user := None; userRole := None;
     permissionsLoading := true; hasSetInitialPage := false;
     currentPage := "dashboard" |}.

(** The value of [loading] after the effect of [usePermissions] has run
    on a render with state [s]:
    [if (!db || !user?.uid) { setLoading(false); return }]; otherwise the
    effect only subscribes to the profile document. *)
Definition usePermissions_effect (s : Shell) : bool :=
  if negb (db s) || negb (truthy_string (user s)) then false
  else permissionsLoading s.

(** The values of [currentPage] and [hasSetInitialPage] after the effect
    of [AppContent] has run on a render with state [s]. *)
Definition AppContent_effect (s : Shell) : string * bool :=
  if negb (permissionsLoading s) && negb (hasSetInitialPage s)
     && bool_decide (currentPage s = "dashboard")
  then
    (if isAdmin (userRole s) then "admin-portal"
     else if isPartner (userRole s) then "provider-dashboard"
     else currentPage s,
     true)
  else (currentPage s, hasSetInitialPage s).

(** One commit: both effects run on the state of the same render, and
    their updates are applied together. *)
Definition run_effects (s : Shell) : Shell :=
  {| db := db s; user := user s; userRole := userRole s;
     permissionsLoading := usePermissions_effect s;
     hasSetInitialPage := (AppContent_effect s).2;
     currentPage := (AppContent_effect s).1 |}.

(** Rendering and running effects until the state is stable; three
    commits are enough (lemma [settle_stable]). *)
Definition settle (s : Shell) : Shell :=
  run_effects (run_effects (run_effects s)).

(** Mounting: in the first commit the effects of [AppContent] run before
    the effect of [FirebaseProvider], which sets [db]; the user is
    reported later by [onAuthStateChanged]. *)
Definition mount : Shell :=
  let s := run_effects initial_Shell in
  settle {| db := true; user := user s; userRole := userRole s;
            permissionsLoading := permissionsLoading s;
            hasSetInitialPage := hasSetInitialPage s;
            currentPage := currentPage s |}.

Inductive ShellEvent : Type :=
  | SignedIn (uid : string)          (* onAuthStateChanged with a user *)
  | ProfileSnapshot (profileSnap : option Profile)
                                     (* profile listener of usePermissions *)
  | Navigate (page : string).        (* setCurrentPage from the sidebar *)

(** One event followed by the commits it causes; the profile listener
    exists only once [db] and the user are there. *)
Definition shell_step (s : Shell) (ev : ShellEvent) : option Shell :=
  match ev with
  | SignedIn uid =>
      Some (settle {| db := db s; user := Some uid; userRole := userRole s;
                      permissionsLoading := permissionsLoading s;
                      hasSetInitialPage := hasSetInitialPage s;
                      currentPage := currentPage s |})
  | ProfileSnapshot profileSnap =>
      if db s && truthy_string (user s)
      then Some (settle {| db := db s; user := user s;
                           userRole := Some (resolveRole profileSnap);
                           permissionsLoading := false;
                           hasSetInitialPage := hasSetInitialPage s;
                           currentPage := currentPage s |})
      else None
  | Navigate page =>
      Some (settle {| db := db s; user := user s; userRole := userRole s;
                      permissionsLoading := permissionsLoading s;
                      hasSetInitialPage := hasSetInitialPage s;
                      currentPage := page |})
  end.

Fixpoint shell_exec (s : Shell) (evs : list ShellEvent) : option Shell :=
  match evs with
  | [] => Some s
  | ev :: evs' =>
      match shell_step s ev with
      | Some s' => shell_exec s' evs'
      | None => None
      end
  end.

Definition is_Navigate (ev : ShellEvent) : bool :=
  match ev with Navigate _ => true | _ => false end.

(* ===================================================================== *)
(** * Assessment mapper *)
(* ===================================================================== *)

(** The fields of an external assessment that the mapper reads.  A flag
    field holds the truthiness of the stored value. *)
Record Assessment := {
  physical_health_score : option Z;
  phq9_score : option Z;
  gad7_score : option Z;
  social_support_score : option Z;
  education_level : option string;
  employment_status : option string;
  housing_status : option string;
  financial_stability : nullable Z;
  spiritual_practices : option Z;
  housing_quality : option string;
  food_insecurity : bool;
  job_loss_recent : bool;
  low_income : bool;
  educational_problems : bool;
  victim_of_abuse : bool;
  family_disruption : bool;
  social_isolation : bool
}.

(** [x || d] on an optional integer. *)
Definition number_or (o : option Z) (d : Z) : number :=
  match o with
  | Some z => if bool_decide (z = 0%Z) then of_Z d else of_Z z
  | None => of_Z d
  end.

(** [mapScoreToPercentile(value, minIn, maxIn, minOut, maxOut)] *)
Definition mapScoreToPercentile (value minIn maxIn minOut maxOut : number)
  : number :=
  Math_round
    (js_add (js_mul (js_div (js_sub value minIn) (js_sub maxIn minIn))
                    (js_sub maxOut minOut))
            minOut).

Definition educationMap : gmap string Z :=
  list_to_map
    [("less_than_high_school", 30%Z); ("high_school", 50%Z);
     ("some_college", 65%Z); ("associates", 70%Z); ("bachelors", 80%Z);
     ("masters", 90%Z); ("doctorate", 95%Z)].

Definition employmentMap : gmap string Z :=
  list_to_map
    [("full_time", 90%Z); ("part_time", 70%Z); ("self_employed", 80%Z);
     ("student", 75%Z); ("retired", 85%Z); ("unemployed_looking", 40%Z);
     ("unemployed_not_looking", 30%Z); ("disabled", 50%Z)].

Definition housingMap : gmap string Z :=
  list_to_map
    [("owned", 90%Z); ("rented", 80%Z); ("staying_with_family", 60%Z);
     ("temporary_housing", 40%Z); ("shelter", 20%Z); ("homeless", 10%Z)].

(** [table[key] || 50] on a table written as an object literal.  A
    missing [key] is looked up under the name ["undefined"] or ["null"],
    which no table has; the name of an inherited member finds that
    member, which is truthy and is returned as it is. *)
Definition map_or_50 (table : gmap string Z) (key : option string) : value :=
  match key with
  | Some k =>
      match get_property table k with
      | Own z => VNum (number_or (Some z) 50)
      | Inherited => VObject
      | Absent => VNum (of_Z 50)
      end
  | None => VNum (of_Z 50)
  end.

Definition mapEducationToScore (level : option string) : value :=
  map_or_50 educationMap level.
Definition mapEmploymentToScore (status : option string) : value :=
  map_or_50 employmentMap status.
Definition mapHousingToScore (status : option string) : value :=
  map_or_50 housingMap status.

(** [calculateWellnessScores(assessment)]: the eight assignments to the
    [scores] object, in order. *)
Definition calculateWellnessScores (assessment : Assessment)
  : gmap string value :=
  let scores : gmap string value := ∅ in
  let scores :=
    <["physical" :=
        VNum (mapScoreToPercentile
          (number_or (physical_health_score assessment) 50)
          (of_Z 0) (of_Z 100) (of_Z 0) (of_Z 100))]> scores in
  let phq9 := number_or (phq9_score assessment) 0 in
  let gad7 := number_or (gad7_score assessment) 0 in
  let scores :=
    <["emotional" :=
        VNum (Math_round
                (js_sub (of_Z 100)
                   (js_mul (js_div (js_add (js_div phq9 (of_Z 27))
                                           (js_div gad7 (of_Z 21)))
                                   (of_Z 2))
                           (of_Z 100))))]> scores in
  let scores :=
    <["social" :=
        VNum (mapScoreToPercentile
          (number_or (social_support_score assessment) 50)
          (of_Z 0) (of_Z 100) (of_Z 0) (of_Z 100))]> scores in
  let scores :=
    <["intellectual" :=
        mapEducationToScore (education_level assessment)]> scores in
  let scores :=
    <["occupational" :=
        mapEmploymentToScore (employment_status assessment)]> scores in
  let scores :=
    <["environmental" :=
        mapHousingToScore (housing_status assessment)]> scores in
  let scores :=
    <["financial" :=
        VNum (mapScoreToPercentile
          (number_or (defined_value (financial_stability assessment)) 50)
          (of_Z 0) (of_Z 100) (of_Z 0) (of_Z 100))]> scores in
  let scores :=
    <["spiritual" :=
        VNum (mapScoreToPercentile
          (number_or (spiritual_practices assessment) 50)
          (of_Z 0) (of_Z 100) (of_Z 0) (of_Z 100))]> scores in
  scores.

(** [if (c) zCodes.push(code)] *)
Definition push_if (c : bool) (code : string) (zCodes : list string)
  : list string :=
  if c then zCodes ++ [code] else zCodes.

(** [assessment.financial_stability < 30]: [undefined] converts to [NaN],
    which compares false; [null] converts to 0, which is below 30. *)
Definition stability_below_30 (assessment : Assessment) : bool :=
  match financial_stability assessment with
  | Defined v => bool_decide (v < 30)%Z
  | Null => true
  | Undefined => false
  end.

(** [extractZCodes(assessment)] *)
Definition extractZCodes (assessment : Assessment) : list string :=
  let zCodes : list string := [] in
  let zCodes :=
    if bool_decide (housing_status assessment = Some "homeless")
    then push_if true "Z59.0" zCodes
    else push_if (bool_decide (housing_status assessment
                               = Some "temporary_housing"))
                 "Z59.8" zCodes in
  let zCodes :=
    push_if (bool_decide (housing_quality assessment = Some "inadequate"))
            "Z59.1" zCodes in
  let zCodes := push_if (food_insecurity assessment) "Z59.4" zCodes in
  let zCodes :=
    push_if (bool_decide (employment_status assessment
                          = Some "unemployed_looking")
             || bool_decide (employment_status assessment
                             = Some "unemployed_not_looking"))
            "Z56.0" zCodes in
  let zCodes := push_if (job_loss_recent assessment) "Z56.9" zCodes in
  let zCodes :=
    push_if (low_income assessment || stability_below_30 assessment)
            "Z59.6" zCodes in
  let zCodes := push_if (educational_problems assessment) "Z55.9" zCodes in
  let zCodes := push_if (victim_of_abuse assessment) "Z91.4" zCodes in
  let zCodes := push_if (family_disruption assessment) "Z63.4" zCodes in
  let zCodes := push_if (social_isolation assessment) "Z65.1" zCodes in
  zCodes.

(** The table of [getZCodeName] in the analytics service. *)
Definition zCodeNames : gmap string string :=
  list_to_map
    [("Z59.0", "Homelessness"); ("Z59.1", "Inadequate Housing");
     ("Z59.4", "Lack of Adequate Food"); ("Z59.6", "Low Income");
     ("Z59.8", "Housing Instability"); ("Z56.0", "Unemployment");
     ("Z56.9", "Employment Problems"); ("Z55.9", "Educational Problems");
     ("Z63.4", "Family Disruption"); ("Z91.4", "History of Trauma")].

(** [getZCodeName(code)]: [zCodeNames[code] || code]; the name of an
    inherited member finds that member, which is returned as it is. *)
Definition getZCodeName (code : string) : value :=
  match get_property zCodeNames code with
  | Own name => VStr (string_or (Some name) code)
  | Inherited => VObject
  | Absent => VStr code
  end.

(** The status is missing, or does not bear the name of a member
    inherited from [Object.prototype]. *)
Definition plain_key (key : option string) : Prop :=
  ∀ k, key = Some k → k ∉ Object_prototype_members.

(** Every numeric input of the assessment lies within its documented
    scale: 0..100 for the four indicator scores, 0..27 for PHQ-9 and
    0..21 for GAD-7. *)
Definition assessment_in_range (a : Assessment) : Prop :=
  (∀ v, physical_health_score a = Some v → (0 ≤ v ≤ 100)%Z)
  ∧ (∀ v, social_support_score a = Some v → (0 ≤ v ≤ 100)%Z)
  ∧ (∀ v, financial_stability a = Defined v → (0 ≤ v ≤ 100)%Z)
  ∧ (∀ v, spiritual_practices a = Some v → (0 ≤ v ≤ 100)%Z)
  ∧ (∀ v, phq9_score a = Some v → (0 ≤ v ≤ 27)%Z)
  ∧ (∀ v, gad7_score a = Some v → (0 ≤ v ≤ 21)%Z).

(** An assessment with no field set. *)
Definition blank_assessment : Assessment :=
  {| physical_health_score := None; phq9_score := None; gad7_score := None;
     social_support_score := None; education_level := None;
     employment_status := None; housing_status := None;
     financial_stability := Undefined; spiritual_practices := None;
     housing_quality := None; food_insecurity := false;
     job_loss_recent := false; low_income := false;
     educational_problems := false; victim_of_abuse := false;
     family_disruption := false; social_isolation := false |}.

(* ===================================================================== *)
(** * Authorisation of status changes *)
(* ===================================================================== *)

(** Both pages as they are when they mount: dialogs closed and
    [useState([])] for the referrals. *)
Definition freshly_mounted (w : World) : Prop :=
  dialogs_closed w
  ∧ page_referrals (page w) = ∅
  ∧ inbox_referrals (inbox w) = ∅.

(** Somewhere along the run [evs] from [w], the event [click] happened in
    a state satisfying [P]. *)
Definition happened_in (w : World) (evs : list Event) (click : Event)
    (P : World → Prop) : Prop :=
  ∃ evs1 evs2 w1,
    evs = (evs1 ++ click :: evs2)%list ∧ exec w evs1 = Some w1 ∧ P w1.

(** The referrals-page user clicks Cancel on [id]: the card shows a
    Pending referral created by that user, who holds [CANCEL_REFERRAL]
    at that moment. *)
Definition cancel_clicked (w : World) (evs : list Event) (id : string)
  : Prop :=
  happened_in w evs (ClickCancel id)
    (λ w1, ∃ r, page_referrals (page w1) !! id = Some r
                ∧ status r = Some "Pending"
                ∧ referringUserId r = page_uid (page w1)
                ∧ hasPermission (page_userRole (page w1)) "CANCEL_REFERRAL"
                  = Normal true).

(** The inbox user clicks Accept or Reject on [id]: the card shows a
    Pending referral and the user holds [RESPOND_REFERRAL] at that
    moment. *)
Definition respond_clicked (w : World) (evs : list Event) (id : string)
    (action : response) : Prop :=
  happened_in w evs (ClickRespond id action)
    (λ w1, inbox_status_at w1 id = Some "Pending"
           ∧ hasPermission (inbox_userRole (inbox w1)) "RESPOND_REFERRAL"
             = Normal true).

(** What holds of the world [w'] reached from [w] by the run [evs]. *)
Definition run_invariant (w : World) (evs : list Event) (w' : World) : Prop :=
  page_uid (page w') = page_uid (page w)
  ∧ dom (referrals w') = dom (referrals w)
  ∧ (∀ id r0 r,
       referrals w !! id = Some r0 → referrals w' !! id = Some r →
       resourceName r = resourceName r0
       ∧ referringUserId r = referringUserId r0)
  ∧ map_Forall (λ _ r, referringUserId r = page_uid (page w))
               (page_referrals (page w'))
  ∧ (∀ id, cancelingReferralId (page w') = Some id → cancel_clicked w evs id)
  ∧ (showResponseDialog (inbox w') = true →
     ∀ id action, selectedReferral (inbox w') = Some (id, action) →
                  respond_clicked w evs id action)
  ∧ (∀ id, status_at w' id ≠ status_at w id →
           (status_at w' id = Some "Cancelled" ∧ cancel_clicked w evs id)
           ∨ ∃ action, status_at w' id = Some (response_label action)
                       ∧ respond_clicked w evs id action).

(* ===================================================================== *)
(** * The wellness-dimension chart *)
(* ===================================================================== *)

(** The [dimensionAverages] object of [WellnessDimensionChart] as it is
    declared: the 8 dimensions, each 0.  Its keys never change, so
    [Object.keys(dimensionAverages)] is [dimensions] throughout. *)
Definition dimensionAverages_init : gmap string number :=
  list_to_map ((λ dim, (dim, of_Z 0)) <$> dimensions).

(** [obj[dim]] read as a number: a missing key reads [undefined], which
    arithmetic turns into [NaN]. *)
Definition read_number (obj : gmap string number) (dim : string) : number :=
  default NaN (obj !! dim).

(** [Object.keys(dimensionAverages).forEach(dim =>
      dimensionAverages[dim] += scores[dim] || 0)] *)
Definition chart_add_scores (scores : gmap string Z)
    (dimensionAverages : gmap string number) : gmap string number :=
  foldl (λ averages dim,
           <[dim := js_add (read_number averages dim)
                           (score_or_zero (scores !! dim))]> averages)
        dimensionAverages dimensions.

(** The averages computed by [WellnessDimensionChart]. *)
Definition dimensionAverages (enrollees : list Enrollee)
  : gmap string number :=
  if (0 <? length enrollees)%nat then
    let sums :=
      foldl (λ averages enrollee,
               match wellnessScores_of enrollee with
               | Some scores => chart_add_scores scores averages
               | None => averages
               end)
            dimensionAverages_init enrollees in
    foldl (λ averages dim,
             <[dim := Math_round (js_div (read_number averages dim)
                                         (of_nat (length enrollees)))]>
               averages)
          sums dimensions
  else dimensionAverages_init.

(** The value an enrollee records for a dimension, if any. *)
Definition recorded (dim : string) (e : Enrollee) : option Z :=
  wellnessScores_of e ≫= (.!! dim).

(* ===================================================================== *)
(** * LS/CMI scores, risk profile and timeline entry *)
(* ===================================================================== *)

(** The ten LS/CMI score fields of an external assessment. *)
Record LSCMIFields := {
  criminal_history_score : option Z;
  education_employment_score : option Z;
  financial_score : option Z;
  family_marital_score : option Z;
  accommodation_score : option Z;
  leisure_recreation_score : option Z;
  companions_score : option Z;
  alcohol_drug_score : option Z;
  procriminal_attitude_score : option Z;
  antisocial_pattern_score : option Z
}.

(** An external assessment: the answers read by [calculateWellnessScores]
    and [extractZCodes], the LS/CMI score fields, and the fields copied
    into the results.  In the source these are the fields of one flat
    object. *)
Record ExternalAssessment := {
  answers : Assessment;
  lscmi : LSCMIFields;
  assessment_id : option string;
  submittedAt : option string;
  submitted_at : option string;
  assessor : option string;
  submitted_by : option string;
  formName : option string;
  form_name : option string
}.

(** [extractLSCMIScores(assessment)]: the entries of the returned object
    in the order of the literal, which is the order of [Object.values]. *)
Definition extractLSCMIScores (assessment : LSCMIFields)
  : list (string * number) :=
  [("criminal", number_or (criminal_history_score assessment) 0);
   ("education", number_or (education_employment_score assessment) 0);
   ("financial", number_or (financial_score assessment) 0);
   ("family", number_or (family_marital_score assessment) 0);
   ("accommodation", number_or (accommodation_score assessment) 0);
   ("leisure", number_or (leisure_recreation_score assessment) 0);
   ("companions", number_or (companions_score assessment) 0);
   ("alcohol", number_or (alcohol_drug_score assessment) 0);
   ("attitudes", number_or (procriminal_attitude_score assessment) 0);
   ("antisocial", number_or (antisocial_pattern_score assessment) 0)].

(** [Object.values(lscmiScores).reduce((sum, score) => sum + score, 0)] *)
Definition lscmi_totalScore (lscmiScores : list (string * number)) : number :=
  js_sum (snd <$> lscmiScores).

(** [a || b] on two optional strings. *)
Definition string_or_else (a b : option string) : option string :=
  if truthy_string a then a else b.

(** The object returned by [mapAssessmentToRiskProfile]. *)
Record RiskProfileUpdate := {
  rp_tier : Z;
  rp_wellnessScores : gmap string value;
  rp_lscmiScores : list (string * number);
  rp_zCodes : list string;
  rp_assessmentId : option string;
  rp_assessmentDate : option string;
  rp_assessor : option string;
  rp_lastSyncedAt : string
}.

(** [mapAssessmentToRiskProfile(alayaCareAssessment)]; [now] is the value
    of [new Date().toISOString()] at the call. *)
Definition mapAssessmentToRiskProfile (now : string)
    (alayaCareAssessment : ExternalAssessment) : RiskProfileUpdate :=
  let lscmiScores := extractLSCMIScores (lscmi alayaCareAssessment) in
  let totalScore := lscmi_totalScore lscmiScores in
  {| rp_tier := calculateRiskTier totalScore;
     rp_wellnessScores :=
       calculateWellnessScores (answers alayaCareAssessment);
     rp_lscmiScores := lscmiScores;
     rp_zCodes := extractZCodes (answers alayaCareAssessment);
     rp_assessmentId := assessment_id alayaCareAssessment;
     rp_assessmentDate :=
       string_or_else (submittedAt alayaCareAssessment)
                      (submitted_at alayaCareAssessment);
     rp_assessor :=
       string_or_else (assessor alayaCareAssessment)
                      (submitted_by alayaCareAssessment);
     rp_lastSyncedAt := now |}.

(** The object returned by [formatAssessmentForTimeline]. *)
Record TimelineEntry := {
  tl_id : option string;
  tl_date : option string;
  tl_tier : Z;
  tl_totalScore : number;
  tl_assessor : option string;
  tl_formName : string;
  tl_scores : list (string * number);
  tl_wellnessScores : gmap string value;
  tl_zCodes : list string
}.

(** [formatAssessmentForTimeline(assessment)] *)
Definition formatAssessmentForTimeline (assessment : ExternalAssessment)
  : TimelineEntry :=
  let lscmiScores := extractLSCMIScores (lscmi assessment) in
  let totalScore := lscmi_totalScore lscmiScores in
  let tier := calculateRiskTier totalScore in
  {| tl_id := assessment_id assessment;
     tl_date :=
       string_or_else (submittedAt assessment) (submitted_at assessment);
     tl_tier := tier;
     tl_totalScore := totalScore;
     tl_assessor :=
       string_or_else (assessor assessment) (submitted_by assessment);
     tl_formName :=
       string_or (string_or_else (formName assessment)
                                 (form_name assessment))
                 "LS/CMI Assessment";
     tl_scores := lscmiScores;
     tl_wellnessScores := calculateWellnessScores (answers assessment);
     tl_zCodes := extractZCodes (answers assessment) |}.

(** The ten score fields, in the order [extractLSCMIScores] reads them. *)
Definition lscmi_fields : list (LSCMIFields → option Z) :=
  [criminal_history_score; education_employment_score; financial_score;
   family_marital_score; accommodation_score; leisure_recreation_score;
   companions_score; alcohol_drug_score; procriminal_attitude_score;
   antisocial_pattern_score].

(** The recorded LS/CMI points of an assessment, nothing for a missing
    field. *)
Definition lscmi_points (a : LSCMIFields) : Z :=
  foldr Z.add 0%Z ((λ f, default 0%Z (f a)) <$> lscmi_fields).

(* ===================================================================== *)
(** * String to number *)
(* ===================================================================== *)

(** [StringToNumber] of the language, which [/] applies to a string
    operand: white space is trimmed, the empty string is 0, a numeric
    literal has its value and everything else is [NaN].  The value of a
    literal is exact here; JavaScript rounds it to a double. *)

(** The value of a digit: [0]..[9] (codes 48..57), [a]..[f] (97..102)
    and [A]..[F] (65..70). *)

Definition digit_value (c : Ascii.ascii) : option Z :=
  let code := Z.of_N (Ascii.N_of_ascii c) in
  if bool_decide (48 ≤ code ≤ 57)%Z then Some (code - 48)%Z
  else if bool_decide (97 ≤ code ≤ 102)%Z then Some (code - 87)%Z
  else if bool_decide (65 ≤ code ≤ 70)%Z then Some (code - 55)%Z
  else None.

(** The digits of the given radix at the front of [s], most significant
    first, and the rest of [s]. *)
Fixpoint take_digits (radix : Z) (s : list Ascii.ascii) : list Z * list Ascii.ascii :=
  match s with
  | c :: s' =>
      match digit_value c with
      | Some d =>
          if (d <? radix)%Z
          then let '(ds, rest) := take_digits radix s' in (d :: ds, rest)
          else ([], s)
      | None => ([], s)
      end
  | [] => ([], [])
  end.

Definition digits_value (radix : Z) (ds : list Z) : Z :=
  foldl (λ acc d, acc * radix + d)%Z 0%Z ds.

(** The bytes of one [StrWhiteSpaceChar] at the front of [s], in UTF-8:
    TAB, LF, VT, FF, CR, SP, U+00A0, U+1680, U+2000..U+200A, U+2028,
    U+2029, U+202F, U+205F, U+3000 and U+FEFF. *)
Definition strip_space (s : list Ascii.ascii) : option (list Ascii.ascii) :=
  match (λ c, Z.of_N (Ascii.N_of_ascii c)) <$> s, s with
  | b :: _, _ :: s' =>
      if bool_decide (b ∈ [9; 10; 11; 12; 13; 32]%Z) then Some s'
      else
        match (λ c, Z.of_N (Ascii.N_of_ascii c)) <$> s, s with
        | 194 :: 160 :: _, _ :: _ :: s'' => Some s''
        | 225 :: 154 :: 128 :: _, _ :: _ :: _ :: s'' => Some s''
        | 226 :: 128 :: b3 :: _, _ :: _ :: _ :: s'' =>
            if bool_decide (128 ≤ b3 ≤ 138 ∨ b3 = 168 ∨ b3 = 169 ∨ b3 = 175)%Z
            then Some s'' else None
        | 226 :: 129 :: 159 :: _, _ :: _ :: _ :: s'' => Some s''
        | 227 :: 128 :: 128 :: _, _ :: _ :: _ :: s'' => Some s''
        | 239 :: 187 :: 191 :: _, _ :: _ :: _ :: s'' => Some s''
        | _, _ => None
        end%Z
  | _, _ => None
  end.

(** The same at the end of a string, given reversed. *)
Definition strip_space_rev (s : list Ascii.ascii) : option (list Ascii.ascii) :=
  match s with
  | c1 :: s1 =>
      match strip_space [c1] with
      | Some _ => Some s1
      | None =>
          match s1 with
          | c2 :: s2 =>
              match strip_space [c2; c1] with
              | Some [] => Some s2
              | _ =>
                  match s2 with
                  | c3 :: s3 =>
                      match strip_space [c3; c2; c1] with
                      | Some [] => Some s3
                      | _ => None
                      end
                  | [] => None
                  end
              end
          | [] => None
          end
      end
  | [] => None
  end.

Fixpoint strip_all (strip : list Ascii.ascii → option (list Ascii.ascii)) (fuel : nat)
    (s : list Ascii.ascii) : list Ascii.ascii :=
  match fuel with
  | O => s
  | S fuel' =>
      match strip s with
      | Some s' => strip_all strip fuel' s'
      | None => s
      end
  end.

Definition trim (s : list Ascii.ascii) : list Ascii.ascii :=
  let s1 := strip_all strip_space (length s) s in
  rev (strip_all strip_space_rev (length s1) (rev s1)).

(** [10^e] as a number. *)
Definition pow10 (e : Z) : Qc :=
  if (0 <=? e)%Z then Qc_of_Z (10 ^ e)
  else (/ Qc_of_Z (10 ^ (- e)))%Qc.

(** An optional sign at the front: [true] for [-]. *)
Definition take_sign (s : list Ascii.ascii) : bool * list Ascii.ascii :=
  match s with
  | "+"%char :: s' => (false, s')
  | "-"%char :: s' => (true, s')
  | _ => (false, s)
  end.

(** [StrUnsignedDecimalLiteral]: [Infinity], or digits with an optional
    fraction and an optional exponent, at least one digit before the
    exponent. *)
Definition unsigned_decimal (s : list Ascii.ascii) : number :=
  if bool_decide (s = String.list_ascii_of_string "Infinity")
  then PosInfinity
  else
    let '(int_digits, s1) := take_digits 10 s in
    let '(frac_digits, s2) :=
      match s1 with
      | "."%char :: s1' => take_digits 10 s1'
      | _ => ([], s1)
      end in
    if (length int_digits + length frac_digits =? 0)%nat then NaN
    else
      let mantissa :=
        (Qc_of_Z (digits_value 10 (int_digits ++ frac_digits)%list)
         * pow10 (- Z.of_nat (length frac_digits)))%Qc in
      match s2 with
      | [] => Finite mantissa
      | c :: s3 =>
          if bool_decide (c = "e"%char ∨ c = "E"%char) then
            let '(negative, s4) := take_sign s3 in
            match take_digits 10 s4 with
            | (d :: ds, []) =>
                let e := digits_value 10 (d :: ds) in
                Finite (mantissa * pow10 (if negative then - e else e))%Qc
            | _ => NaN
            end
          else NaN
      end.

(** [0b], [0o] and [0x] literals, which take no sign. *)
Definition non_decimal (s : list Ascii.ascii) : option number :=
  match s with
  | "0"%char :: c :: s' =>
      let radix :=
        if bool_decide (c = "b"%char ∨ c = "B"%char) then Some 2%Z
        else if bool_decide (c = "o"%char ∨ c = "O"%char) then Some 8%Z
        else if bool_decide (c = "x"%char ∨ c = "X"%char) then Some 16%Z
        else None in
      match radix with
      | Some r =>
          match take_digits r s' with
          | (d :: ds, []) => Some (of_Z (digits_value r (d :: ds)))
          | _ => Some NaN
          end
      | None => None
      end
  | _ => None
  end.

Definition StringToNumber (str : string) : number :=
  let s := trim (String.list_ascii_of_string str) in
  match s with
  | [] => of_Z 0
  | _ =>
      match non_decimal s with
      | Some n => n
      | None =>
          let '(negative, s') := take_sign s in
          if negative then js_neg (unsigned_decimal s')
          else unsigned_decimal s'
      end
  end.

(** [String(n)] for an integer [n]: its decimal digits.  (From [10^21] on
    the language switches to exponent notation, which depends on the
    binary representation and is not modelled.) *)
Definition Number_toString (n : Z) : string := pretty n.

(* ===================================================================== *)
(** * The analytics service on arbitrary arrays *)
(* ===================================================================== *)

(** [items.forEach(callback)], [items.reduce(callback, state)] and
    [items.map(callback)] for a callback that can throw. *)
Fixpoint forEach {A S : Type} (callback : S → A → completion S) (state : S)
    (items : list A) : completion S :=
  match items with
  | [] => Normal state
  | item :: items' =>
      match callback state item with
      | Normal state' => forEach callback state' items'
      | TypeError => TypeError
      end
  end.

Fixpoint map_completion {A B : Type} (callback : A → completion B)
    (items : list A) : completion (list B) :=
  match items with
  | [] => Normal []
  | item :: items' =>
      match callback item with
      | Normal b =>
          match map_completion callback items' with
          | Normal bs => Normal (b :: bs)
          | TypeError => TypeError
          end
      | TypeError => TypeError
      end
  end.


(** The running [sum] of
    [reduce((sum, e) => sum + (e.riskProfile?.tier || 0), 0)]: a number
    until a tier label is met, a string from then on. *)
Inductive tier_sum : Type :=
  | SumNumber (n : Z)
  | SumString (s : string).

(** [sum + (tier || 0)] *)
Definition add_tier (sum : tier_sum) (t : option tier_value) : tier_sum :=
  match sum, tier_or 0 t with
  | SumNumber a, TierNumber n => SumNumber (a + n)
  | SumNumber a, TierLabel s => SumString (Number_toString a +:+ s)
  | SumString a, TierNumber n => SumString (a +:+ Number_toString n)
  | SumString a, TierLabel s => SumString (a +:+ s)
  end.

(** [sum / length] *)
Definition tier_sum_div (sum : tier_sum) (len : nat) : number :=
  match sum with
  | SumNumber a => js_div (of_Z a) (of_nat len)
  | SumString s => js_div (StringToNumber s) (of_nat len)
  end.


(** The functions of the analytics service once more, on arrays an
    element of which may be [null] or [undefined] ([None]) and on
    wellness scores that may be any value.  Inside a record the other fields have the types of the
    data model: a tier is an integer or a label, Z-codes are strings and
    care-team members are records.  The sorted top-5 tables and
    [analyzeGeography], which has no division, are left out. *)
Module Raw.

Record RiskProfile := {
  tier : option tier_value;
  wellnessScores : option (gmap string value);
  zCodes : option (list string)
}.

Record Enrollee := {
  riskProfile : option RiskProfile;
  careTeam : option (list TeamMember);
  (** [demographics?.dob] *)
  demographics_dob : option string
}.

Definition tier_of (e : Enrollee) : option tier_value :=
  riskProfile e ≫= tier.
Definition wellnessScores_of (e : Enrollee) : option (gmap string value) :=
  riskProfile e ≫= wellnessScores.
Definition zCodes_of (e : Enrollee) : option (list string) :=
  riskProfile e ≫= zCodes.

(** A callback that starts by reading a property of its argument:
    on [null] or [undefined] that read throws. *)
Definition on_element {A B : Type} (body : A → B) (element : option A)
  : completion B :=
  match element with
  | Some x => Normal (body x)
  | None => TypeError
  end.

(** [typeof v === 'number'], for [v] read from the scores object; no
    dimension bears the name of an inherited member, so [scores[dim]] is
    the own property or [undefined]. *)
Definition as_number (v : option value) : option number :=
  match v with
  | Some (VNum n) => Some n
  | _ => None
  end.

(** The inner [dimensions.forEach] of [calculateAverageWellness]. *)
Definition add_scores (scores : gmap string value) (acc : number * nat)
  : number * nat :=
  foldl (λ '(totalScore, scoreCount) dim,
           match as_number (scores !! dim) with
           | Some score => (js_add totalScore score, S scoreCount)
           | None => (totalScore, scoreCount)
           end) acc dimensions.

(** The body of the [enrollees.forEach] callback of
    [calculateAverageWellness], after [enrollee.riskProfile] has been
    read. *)
Definition add_enrollee (acc : number * nat) (enrollee : Enrollee)
  : number * nat :=
  match wellnessScores_of enrollee with
  | Some scores => add_scores scores acc
  | None => acc
  end.

Definition calculateAverageWellness (enrollees : list (option Enrollee))
  : completion number :=
  if (length enrollees =? 0)%nat then Normal (of_Z 0)
  else
    match forEach (λ acc, on_element (add_enrollee acc))
                  (of_Z 0, 0%nat) enrollees with
    | Normal (totalScore, scoreCount) =>
        Normal (if (0 <? scoreCount)%nat
                then Math_round (js_div totalScore (of_nat scoreCount))
                else of_Z 0)
    | TypeError => TypeError
    end.

(** [scores.length > 0 ? scores.reduce(...) / scores.length : 0] *)
Definition mean_or_zero (scores : list number) : number :=
  if (0 <? length scores)%nat
  then js_div (js_sum scores) (of_nat (length scores))
  else of_Z 0.

Definition calculateWellnessDimensions (enrollees : list (option Enrollee))
  : completion (gmap string number) :=
  forEach
    (λ averages dim,
       match map_completion
               (on_element (λ e, wellnessScores_of e ≫= (.!! dim)))
               enrollees with
       | Normal values =>
           let scores := omap as_number values in
           Normal (<[dim := mean_or_zero scores]> averages)
       | TypeError => TypeError
       end)
    ∅ dimensions.

Definition tier_is (n : Z) (e : Enrollee) : bool :=
  match tier_of e with
  | Some (TierNumber m) => bool_decide (m = n)
  | _ => false
  end.

Definition calculateRiskDistribution (enrollees : list (option Enrollee))
  : completion RiskDistribution :=
  let total := length enrollees in
  if (total =? 0)%nat then
    Normal {| tier1 := 0; tier2 := 0; tier3 := 0;
              tier1Percent := of_Z 0; tier2Percent := of_Z 0;
              tier3Percent := of_Z 0 |}
  else
    match filter_completion (on_element (tier_is 1)) enrollees,
          filter_completion (on_element (tier_is 2)) enrollees,
          filter_completion (on_element (tier_is 3)) enrollees with
    | Normal t1, Normal t2, Normal t3 =>
        Normal {| tier1 := length t1; tier2 := length t2;
                  tier3 := length t3;
                  tier1Percent := percent_of (length t1) total;
                  tier2Percent := percent_of (length t2) total;
                  tier3Percent := percent_of (length t3) total |}
    | _, _, _ => TypeError
    end.

(** The body of the [enrollees.forEach] callback of [analyzeZCodes], on
    the triple [(zCodeCounts, totalZCodes, enrolleesWithZCodes)]. *)
Definition count_zCodes (acc : gmap string counter * nat * nat)
    (enrollee : Enrollee) : gmap string counter * nat * nat :=
  let '(counts, total, withCodes) := acc in
  let zs := default [] (zCodes_of enrollee) in
  if (0 <? length zs)%nat
  then (foldl (λ c code, bump code c) counts zs,
        (total + length zs)%nat, S withCodes)
  else (counts, total, withCodes).

Definition analyzeZCodes (enrollees : list (option Enrollee))
  : completion ZCodeAnalysis :=
  match forEach (λ acc, on_element (count_zCodes acc))
                (∅, 0%nat, 0%nat) enrollees with
  | Normal (counts, total, withCodes) =>
      Normal
        {| zCodeCounts := counts;
           totalZCodes := total;
           enrolleesWithZCodes := withCodes;
           avgZCodesPerEnrollee :=
             if (0 <? length enrollees)%nat
             then VStr (toFixed1 (js_div (of_nat total)
                                         (of_nat (length enrollees))))
             else VNum (of_Z 0) |}
  | TypeError => TypeError
  end.

(** The body of the [enrollees.forEach] callback of [analyzeCareTeams],
    on the triple [(totalTeamMembers, enrolleesWithTeams, roleCounts)]. *)
Definition count_team (acc : nat * nat * gmap string counter)
    (enrollee : Enrollee) : nat * nat * gmap string counter :=
  let '(total, withTeams, counts) := acc in
  let team := default [] (careTeam enrollee) in
  if (0 <? length team)%nat
  then ((total + length team)%nat, S withTeams,
        foldl (λ c member,
                 bump (string_or (member_role member) "Unknown") c)
              counts team)
  else (total, withTeams, counts).

Definition analyzeCareTeams (enrollees : list (option Enrollee))
  : completion CareTeamAnalysis :=
  match forEach (λ acc, on_element (count_team acc))
                (0%nat, 0%nat, ∅) enrollees with
  | Normal (total, withTeams, counts) =>
      Normal
        {| totalTeamMembers := total;
           enrolleesWithTeams := withTeams;
           avgTeamSize :=
             if (0 <? length enrollees)%nat
             then VStr (toFixed1 (js_div (of_nat total)
                                         (of_nat (length enrollees))))
             else VNum (of_Z 0);
           roleCounts := counts |}
  | TypeError => TypeError
  end.

Definition analyzeReferrals (referrals : list (option Referral))
  : completion ReferralMetrics :=
  match filter_completion (on_element (status_is "Pending")) referrals,
        filter_completion (on_element (status_is "Accepted")) referrals,
        filter_completion (on_element (status_is "Rejected")) referrals with
  | Normal pending, Normal accepted, Normal rejected =>
      let statusCounts : gmap string nat :=
        list_to_map [("Pending", length pending);
                     ("Accepted", length accepted);
                     ("Rejected", length rejected)] in
      let acceptanceRate :=
        if (0 <? length referrals)%nat
        then percent_of (length accepted) (length referrals)
        else of_Z 0 in
      match forEach
              (λ c, on_element
                 (λ referral,
                    bump (string_or (resourceName referral) "Unknown") c))
              ∅ referrals with
      | Normal resourceCounts =>
          Normal {| statusCounts := statusCounts;
                    acceptanceRate := acceptanceRate;
                    resourceCounts := resourceCounts |}
      | TypeError => TypeError
      end
  | _, _, _ => TypeError
  end.

(** The body of [calculateEnrolleeWellness] after [enrollee.riskProfile]
    has been read. *)
Definition wellness_of (enrollee : Enrollee) : number :=
  match wellnessScores_of enrollee with
  | None => of_Z 0
  | Some scores =>
      mean_or_zero (omap (λ dim, as_number (scores !! dim)) dimensions)
  end.

Definition calculateEnrolleeWellness (enrollee : option Enrollee)
  : completion number :=
  on_element wellness_of enrollee.

(** The three [enrollees.filter] callbacks of [calculateTrends], on the
    value returned by [calculateEnrolleeWellness]. *)
Definition is_improving (avgWellness wellness : number) : bool :=
  js_gt wellness (js_add avgWellness (of_Z 10)).

Definition is_stable (avgWellness wellness : number) : bool :=
  js_le (Math_abs (js_sub wellness avgWellness)) (of_Z 10).

Definition is_declining (avgWellness wellness : number) : bool :=
  js_lt wellness (js_sub avgWellness (of_Z 10)).

Definition calculateTrends (enrollees : list (option Enrollee))
  : completion Trends :=
  match calculateAverageWellness enrollees with
  | Normal avgWellness =>
      match filter_completion
              (λ e, is_improving avgWellness <$> calculateEnrolleeWellness e)
              enrollees,
            filter_completion
              (λ e, is_stable avgWellness <$> calculateEnrolleeWellness e)
              enrollees,
            filter_completion
              (λ e, is_declining avgWellness <$> calculateEnrolleeWellness e)
              enrollees with
      | Normal improving, Normal stable, Normal declining =>
          let percent (count : nat) :=
            if (0 <? length enrollees)%nat
            then percent_of count (length enrollees) else of_Z 0 in
          Normal {| improving := length improving;
                    stable := length stable;
                    declining := length declining;
                    improvingPercent := percent (length improving);
                    stablePercent := percent (length stable);
                    decliningPercent := percent (length declining) |}
      | _, _, _ => TypeError
      end
  | TypeError => TypeError
  end.

(** [enrollees.length > 0
      ? enrollees.reduce((sum, e) => sum + (e.riskProfile?.tier || 0), 0)
        / enrollees.length
      : 0] *)
Definition average_tier (enrollees : list (option Enrollee))
  : completion number :=
  if (0 <? length enrollees)%nat
  then
    match forEach (λ sum, on_element (λ e, add_tier sum (tier_of e)))
                  (SumNumber 0) enrollees with
    | Normal sum => Normal (tier_sum_div sum (length enrollees))
    | TypeError => TypeError
    end
  else Normal (of_Z 0).

(** [enrollees.length > 0
      ? enrollees.reduce((sum, e) => sum + (e.riskProfile?.zCodes?.length
                                            || 0), 0)
        / enrollees.length
      : 0] *)
Definition average_zCodes (enrollees : list (option Enrollee))
  : completion number :=
  if (0 <? length enrollees)%nat
  then
    match forEach (λ sum, on_element
                     (λ e, js_add sum
                             (of_nat (length (default [] (zCodes_of e))))))
                  (of_Z 0) enrollees with
    | Normal sum => Normal (js_div sum (of_nat (length enrollees)))
    | TypeError => TypeError
    end
  else Normal (of_Z 0).







Definition analyzeByRiskTier (enrollees : list (option Enrollee))
  : completion (list TierCohort) :=
  match filter_completion (on_element (tier_is 1)) enrollees,
        filter_completion (on_element (tier_is 2)) enrollees,
        filter_completion (on_element (tier_is 3)) enrollees with
  | Normal t1, Normal t2, Normal t3 =>
      map_completion
        (λ '(tier, enrollees),
           match calculateAverageWellness enrollees,
                 average_zCodes enrollees with
           | Normal w, Normal z =>
               Normal {| cohort_tier := "Tier " +:+ tier;
                         cohort_count := length enrollees;
                         cohort_avgWellness := w;
                         cohort_avgZCodes := z |}
           | _, _ => TypeError
           end)
        [("1", t1); ("2", t2); ("3", t3)]
  | _, _, _ => TypeError
  end.

Definition has_code_with_prefix (prefix : string) (e : Enrollee) : bool :=
  match zCodes_of e with
  | Some codes => existsb (String.prefix prefix) codes
  | None => false
  end.

Definition without_zCodes (e : Enrollee) : bool :=
  match zCodes_of e with
  | Some codes => (length codes =? 0)%nat
  | None => true
  end.


Definition predictRiskTrend (enrollee : option Enrollee)
  : completion RiskPrediction :=
  on_element
    (λ e,
       let wellness := wellness_of e in
       let zCodeCount := length (default [] (zCodes_of e)) in
       let currentTier := tier_or 2 (tier_of e) in
       let '(prediction, confidence) :=
         if js_gt wellness (of_Z 70) && (zCodeCount <=? 2)%nat
         then ("improving", conf_075)
         else if js_lt wellness (of_Z 40) && (4 <=? zCodeCount)%nat
         then ("declining", conf_07)
         else ("stable", conf_06) in
       {| prediction := prediction;
          confidence := Math_round (js_mul confidence (of_Z 100));
          recommendedTier :=
            predictRecommendedTier wellness zCodeCount currentTier |})
    enrollee.





(** An enrollee with the given tier and wellness scores and nothing
    else. *)
Definition enrollee_with (t : option tier_value) (scores : gmap string value)
  : Enrollee :=
  {| riskProfile := Some {| tier := t; wellnessScores := Some scores;
                            zCodes := None |};
     careTeam := None; demographics_dob := None |}.



End Raw.


(** A record of the data model as an element of an arbitrary array:
    every score is a number. *)
Definition Raw_of_Enrollee (e : Enrollee) : Raw.Enrollee :=
  {| Raw.riskProfile :=
       (λ p, {| Raw.tier := tier p;
                Raw.wellnessScores :=
                  fmap (M := gmap string) (λ z, VNum (of_Z z))
                    <$> wellnessScores p;
                Raw.zCodes := zCodes p |}) <$> riskProfile e;
     Raw.careTeam := careTeam e;
     Raw.demographics_dob := None |}.

(* ===================================================================== *)
(** * Facts about numbers *)
(* ===================================================================== *)

Section Numbers.

Implicit Types (a b c : Z) (n m : nat) (q : Qc).

Lemma of_Z_inj a b : of_Z a = of_Z b → a = b.
Proof. unfold of_Z. intros [= H]. exact H. Qed.

Lemma of_nat_pos_ne_0 n : (0 < n)%nat → Qc_of_Z (Z.of_nat n) ≠ 0%Qc.
Proof.
  intros Hn H. rewrite <- Z2Qc_inj_0 in H. apply Z2Qc_inj in H. lia.
Qed.

(** A quotient by a positive count is finite. *)
Lemma js_div_of_nat q n :
  (0 < n)%nat →
  js_div (Finite q) (of_nat n) = Finite (q / Qc_of_Z (Z.of_nat n))%Qc.
Proof.
  intros Hn. unfold of_nat, of_Z, js_div.
  destruct (decide (Qc_of_Z (Z.of_nat n) = 0%Qc)) as [E|_]; [|done].
  by apply of_nat_pos_ne_0 in E.
Qed.

Lemma js_add_of_Z a b : js_add (of_Z a) (of_Z b) = of_Z (a + b).
Proof. unfold of_Z; simpl. by rewrite Z2Qc_inj_add. Qed.

Lemma foldl_js_add_of_Z (l : list Z) a :
  foldl js_add (of_Z a) (of_Z <$> l) = of_Z (a + foldr Z.add 0%Z l).
Proof.
  revert a. induction l as [|x l IH]; intros a.
  - simpl. by rewrite Z.add_0_r.
  - rewrite fmap_cons. cbn [foldl foldr].
    rewrite js_add_of_Z, IH. f_equal. lia.
Qed.

Lemma js_sum_of_Z (l : list Z) :
  js_sum (of_Z <$> l) = of_Z (foldr Z.add 0%Z l).
Proof. unfold js_sum. by rewrite foldl_js_add_of_Z. Qed.

(** [Math.round] of a ratio of integers, in integer arithmetic. *)
Lemma round_half_up_ratio a b :
  (0 < b)%Z →
  round_half_up (Qc_of_Z a / Qc_of_Z b)%Qc = ((2 * a + b) / (2 * b))%Z.
Proof.
  intros Hb. destruct b as [|p|p]; try lia.
  unfold round_half_up.
  assert (E : (this (Qc_of_Z a / Qc_of_Z (Z.pos p) + Q2Qc (1 # 2))%Qc
               == (2 * a + Z.pos p) # (2 * p))%Q).
  { simpl. rewrite !Qred_correct.
    unfold Qeq, Qplus, Qmult, Qinv; simpl. lia. }
  rewrite (Qfloor_comp _ _ E). reflexivity.
Qed.

Lemma percent_of_Z n m :
  (0 < m)%nat →
  percent_of n m
  = of_Z ((200 * Z.of_nat n + Z.of_nat m) / (2 * Z.of_nat m)).
Proof.
  intros Hm. unfold percent_of.
  unfold of_nat at 1. unfold of_Z at 1. rewrite js_div_of_nat by done.
  unfold of_Z at 1. simpl js_mul. unfold Math_round. f_equal.
  replace (Qc_of_Z (Z.of_nat n) / Qc_of_Z (Z.of_nat m) * Qc_of_Z 100)%Qc
    with (Qc_of_Z (100 * Z.of_nat n) / Qc_of_Z (Z.of_nat m))%Qc.
  - rewrite round_half_up_ratio by lia. f_equal; lia.
  - rewrite Z2Qc_inj_mul. unfold Qcdiv.
    rewrite (Qcmult_comm (Qc_of_Z 100)), <- !Qcmult_assoc.
    f_equal. apply Qcmult_comm.
Qed.


End Numbers.

(* ===================================================================== *)
(** * Permission table *)
(* ===================================================================== *)

Section Permissions.

Implicit Types (a r : string) (roles : list string).

(** Every entry of the table lists Admin, and none lists the empty
    label or the default label. *)
Lemma PERMISSIONS_entries :
  map_Forall (λ _ roles, "Admin" ∈ roles ∧ (EmptyString ∉ roles) ∧ ("CPC" ∉ roles))
             PERMISSIONS.
Proof. compute_done. Qed.

(** No action of the table bears the name of an inherited member. *)
Lemma PERMISSIONS_no_inherited_name a :
  a ∈ Object_prototype_members → PERMISSIONS !! a = None.
Proof.
  intros Ha.
  repeat (apply elem_of_cons in Ha as [->|Ha]; [reflexivity|]).
  by apply elem_of_nil in Ha.
Qed.

Lemma get_property_own {V} (own : gmap string V) key v :
  own !! key = Some v → get_property own key = Own v.
Proof. intros E. unfold get_property. by rewrite E. Qed.

Lemma get_property_inherited {V} (own : gmap string V) key :
  own !! key = None → key ∈ Object_prototype_members →
  get_property own key = Inherited.
Proof.
  intros E Hk. unfold get_property. rewrite E.
  by rewrite bool_decide_eq_true_2.
Qed.

Lemma get_property_absent {V} (own : gmap string V) key :
  own !! key = None → key ∉ Object_prototype_members →
  get_property own key = Absent.
Proof.
  intros E Hk. unfold get_property. rewrite E.
  by rewrite bool_decide_eq_false_2.
Qed.

Lemma hasPermission_role_given a r :
  r ≠ EmptyString →
  hasPermission (Some r) a
  = match get_property PERMISSIONS a with
    | Own roles => Normal (bool_decide (r ∈ roles))
    | Inherited => TypeError
    | Absent => Normal false
    end.
Proof.
  intros Hr. unfold hasPermission, truthy_string.
  rewrite (bool_decide_eq_false_2 _ Hr). cbn [negb].
  by destruct (get_property PERMISSIONS a).
Qed.

Lemma hasPermission_defined a r roles :
  PERMISSIONS !! a = Some roles →
  hasPermission (Some r) a = Normal (bool_decide (r ∈ roles)).
Proof.
  intros E. destruct (decide (r = EmptyString)) as [->|Hr].
  - destruct (PERMISSIONS_entries a roles E) as (_ & H & _).
    by rewrite (bool_decide_eq_false_2 _ H).
  - rewrite hasPermission_role_given by done.
    by rewrite (get_property_own _ _ _ E).
Qed.

Lemma hasPermission_unknown a r :
  PERMISSIONS !! a = None → a ∉ Object_prototype_members →
  hasPermission (Some r) a = Normal false.
Proof.
  intros E Ha. destruct (decide (r = EmptyString)) as [->|Hr]; [done|].
  rewrite hasPermission_role_given by done.
  by rewrite get_property_absent.
Qed.

Lemma hasPermission_inherited a r :
  a ∈ Object_prototype_members → r ≠ EmptyString →
  hasPermission (Some r) a = TypeError.
Proof.
  intros Ha Hr. rewrite hasPermission_role_given by done.
  rewrite get_property_inherited; [done| |done].
  by apply PERMISSIONS_no_inherited_name.
Qed.

(** The check grants exactly what the table lists. *)
Lemma hasPermission_granted a r :
  hasPermission (Some r) a = Normal true
  ↔ ∃ roles, PERMISSIONS !! a = Some roles ∧ r ∈ roles.
Proof.
  destruct (PERMISSIONS !! a) as [roles|] eqn:E.
  - rewrite (hasPermission_defined a r roles E). split.
    + intros [= H]. apply bool_decide_eq_true in H. by exists roles.
    + intros (roles' & [= <-] & H). by rewrite bool_decide_eq_true_2.
  - split; [|by intros (? & ? & _)].
    destruct (decide (a ∈ Object_prototype_members)) as [Ha|Ha].
    + destruct (decide (r = EmptyString)) as [->|Hr]; [done|].
      by rewrite hasPermission_inherited.
    + by rewrite hasPermission_unknown.
Qed.

Lemma granted_spec userRole a :
  granted userRole a = true ↔ hasPermission userRole a = Normal true.
Proof.
  unfold granted. destruct (hasPermission userRole a) as [[]|]; split;
    congruence.
Qed.


End Permissions.





(* ===================================================================== *)
(** * Eligibility filter *)
(* ===================================================================== *)

Section Eligibility.

Implicit Types (s : Enrollee) (res : Resource).

Lemma isEligible_codes s res :
  isEligible s res =
  match resource_codes res with
  | [] => true
  | codes =>
      existsb (λ code, bool_decide (code ∈ default [] (zCodes_of s))) codes
  end.
Proof.
  unfold isEligible, resource_codes.
  destruct (eligibilityCriteria res) as [c|]; simpl; [|done].
  destruct (criteria_zCodes c) as [[|code codes]|]; simpl; try done.
  by destruct (_ || _).
Qed.

End Eligibility.

(** C2. A resource whose code list is empty or absent is eligible for
    every subject; with a non-empty list the resource is eligible exactly
    when one of its codes is among the subject's codes; the answer is a
    function of the two code lists alone, so the income criterion has no
    effect. *)
Theorem isEligible_rule :
  (∀ (s : Enrollee) (res : Resource),
     resource_codes res = [] → isEligible s res = true)
  ∧ (∀ (s : Enrollee) (res : Resource),
       resource_codes res ≠ [] →
       (isEligible s res = true
        ↔ ∃ code, code ∈ resource_codes res
                  ∧ code ∈ default [] (zCodes_of s)))
  ∧ (∀ (s s' : Enrollee) (res res' : Resource),
       default [] (zCodes_of s) = default [] (zCodes_of s') →
       resource_codes res = resource_codes res' →
       isEligible s res = isEligible s' res')
  ∧ (∀ (s : Enrollee) (nm : string) (codes : option (list string))
       (i i' : option string),
       isEligible s {| resource_name := nm;
                       eligibilityCriteria :=
                         Some {| criteria_zCodes := codes; income := i |} |}
       = isEligible s {| resource_name := nm;
                         eligibilityCriteria :=
                           Some {| criteria_zCodes := codes;
                                   income := i' |} |}).
Proof.
  repeat split.
  - intros s res E. by rewrite isEligible_codes, E.
  - rewrite isEligible_codes.
    destruct (resource_codes res) as [|c cs] eqn:E; [done|].
    intros Hex. apply existsb_exists in Hex as (code & Hin & Hm).
    exists code. split; [by apply list_elem_of_In|].
    by apply bool_decide_eq_true in Hm.
  - rewrite isEligible_codes.
    destruct (resource_codes res) as [|c cs] eqn:E; [done|].
    intros (code & Hin & Hm). apply existsb_exists.
    exists code. split; [by apply list_elem_of_In|].
    by apply bool_decide_eq_true.
  - intros s s' res res' Hs Hr. by rewrite !isEligible_codes, Hs, Hr.
Qed.

Lemma isEligible_rule_witness :
  isEligible (enrollee_with_codes ["Z59.0"])
             {| resource_name := "Pantry"; eligibilityCriteria := None |}
  = true
  ∧ (isEligible (enrollee_with_codes ["Z59.0"])
       {| resource_name := "Shelter";
          eligibilityCriteria :=
            Some {| criteria_zCodes := Some ["Z59.0"; "Z59.1"];
                    income := Some "Below 200% FPL" |} |} = true).
Proof.
  destruct isEligible_rule as (H1 & H2 & _ & _). split.
  - apply H1. reflexivity.
  - apply H2; [discriminate|].
    exists "Z59.0". split; compute_done.
Defined.

(* ===================================================================== *)
(** * Per-subject wellness *)
(* ===================================================================== *)

Section Wellness.

Implicit Types (e : Enrollee) (scores : gmap string Z).

Lemma score_or_zero_default (o : option Z) :
  score_or_zero o = of_Z (default 0%Z o).
Proof.
  destruct o as [z|]; simpl; [|done].
  case_bool_decide; by subst.
Qed.

Lemma dimension_or_zero_scores e scores dim :
  wellnessScores_of e = Some scores →
  dimension_or_zero e dim = default 0%Z (scores !! dim).
Proof. intros E. unfold dimension_or_zero. by rewrite E. Qed.

Lemma dimension_or_zero_none e dim :
  wellnessScores_of e = None → dimension_or_zero e dim = 0%Z.
Proof. intros E. unfold dimension_or_zero. by rewrite E. Qed.

(** The application-shell helper is the specification's per-subject
    wellness. *)
Lemma calculateWellnessScore_spec e :
  calculateWellnessScore (Some e) = of_Z (per_subject_wellness_spec e).
Proof.
  unfold calculateWellnessScore, per_subject_wellness_spec, dimension_total.
  change (Some e ≫= wellnessScores_of) with (wellnessScores_of e).
  destruct (wellnessScores_of e) as [scores|] eqn:E.
  - rewrite !score_or_zero_default.
    unfold dimensions. rewrite !fmap_cons, fmap_nil.
    rewrite !(dimension_or_zero_scores e scores) by done.
    unfold js_sum. cbn [foldl foldr length].
    rewrite !js_add_of_Z. unfold of_Z at 1.
    rewrite js_div_of_nat by lia. unfold Math_round.
    do 4 f_equal. lia.
  - unfold dimensions. rewrite !fmap_cons, fmap_nil.
    rewrite !(dimension_or_zero_none e) by done. compute_done.
Qed.

Lemma per_subject_wellness_spec_Z e :
  per_subject_wellness_spec e = ((dimension_total e + 4) / 8)%Z.
Proof.
  unfold per_subject_wellness_spec. rewrite round_half_up_ratio by lia.
  replace (2 * dimension_total e + 8)%Z
    with ((dimension_total e + 4) * 2)%Z by lia.
  change (2 * 8)%Z with (8 * 2)%Z.
  by rewrite Z.div_mul_cancel_r.
Qed.

(** The analytics helper is the unrounded mean of the dimensions that
    are present. *)
Lemma calculateEnrolleeWellness_present_mean e :
  calculateEnrolleeWellness e = Finite (present_mean e).
Proof.
  unfold calculateEnrolleeWellness, present_mean.
  destruct (wellnessScores_of e) as [scores|]; [|by rewrite <- Z2Qc_inj_0].
  destruct (0 <? length (present_scores scores))%nat eqn:Hlen.
  - apply Nat.ltb_lt in Hlen.
    rewrite js_sum_of_Z. unfold of_Z at 1. by rewrite js_div_of_nat.
  - by rewrite <- Z2Qc_inj_0.
Qed.

Lemma dimension_total_all e v :
  (∀ dim, dim ∈ dimensions → dimension_or_zero e dim = v) →
  dimension_total e = (8 * v)%Z.
Proof.
  intros H. unfold dimension_total, dimensions in *.
  rewrite !fmap_cons, fmap_nil. cbn [foldr].
  rewrite !H by set_solver. lia.
Qed.

Lemma dimension_total_but_one e v missing :
  missing ∈ dimensions →
  dimension_or_zero e missing = 0%Z →
  (∀ dim, dim ∈ dimensions → dim ≠ missing → dimension_or_zero e dim = v) →
  dimension_total e = (7 * v)%Z.
Proof.
  intros Hin H0 H. unfold dimension_total, dimensions in *.
  rewrite !fmap_cons, fmap_nil. cbn [foldr].
  repeat (apply elem_of_cons in Hin as [->|Hin];
          [rewrite H0, !H by (set_solver || done); lia|]).
  by apply elem_of_nil in Hin.
Qed.

End Wellness.

(** Seven dimensions at 80, [social] missing. *)
Example seven_of_eight_present :
  calculateEnrolleeWellness
    (enrollee_with None (delete "social" (uniform_scores 80))) = of_Z 80
  ∧ per_subject_wellness_spec
      (enrollee_with None (delete "social" (uniform_scores 80))) = 70%Z.
Proof. split; compute_done. Qed.

(** C3, as stated, fails on the analytics helper: for a subject with seven
    dimensions at 80 and one missing, the per-subject value fed into trend
    classification is 80, not the 70 that substituting 0 would give. *)
Lemma trend_input_not_zero_substituted :
  calculateEnrolleeWellness
    (enrollee_with None (delete "social" (uniform_scores 80)))
  ≠ of_Z (per_subject_wellness_spec
            (enrollee_with None (delete "social" (uniform_scores 80)))).
Proof. compute_done. Qed.

(** C3, amended.  The application-shell helper [calculateWellnessScore] is
    the mean of the 8 named dimensions with 0 for a missing one, rounded
    to the nearest integer: 80 when all 8 dimensions are 80, and 70 when
    one is missing and the other seven are 80.  The analytics helper
    [calculateEnrolleeWellness], which feeds trend classification, is the
    unrounded mean of the dimensions that are present. *)
Theorem per_subject_wellness (e : Enrollee) :
  calculateWellnessScore (Some e) = of_Z (per_subject_wellness_spec e)
  ∧ per_subject_wellness_spec e = ((dimension_total e + 4) / 8)%Z
  ∧ ((∀ dim, dim ∈ dimensions → dimension_or_zero e dim = 80%Z) →
     calculateWellnessScore (Some e) = of_Z 80)
  ∧ (∀ missing,
       missing ∈ dimensions →
       wellnessScores_of e ≫= (.!! missing) = None →
       (∀ dim, dim ∈ dimensions → dim ≠ missing →
               wellnessScores_of e ≫= (.!! dim) = Some 80%Z) →
       calculateWellnessScore (Some e) = of_Z 70)
  ∧ calculateEnrolleeWellness e = Finite (present_mean e).
Proof.
  split; [apply calculateWellnessScore_spec|].
  split; [apply per_subject_wellness_spec_Z|].
  split; [|split].
  - intros H. rewrite calculateWellnessScore_spec, per_subject_wellness_spec_Z.
    by rewrite (dimension_total_all e 80).
  - intros missing Hin Hm H.
    rewrite calculateWellnessScore_spec, per_subject_wellness_spec_Z.
    rewrite (dimension_total_but_one e 80 missing); [done|done| |].
    + unfold dimension_or_zero. by rewrite Hm.
    + intros dim Hd Hne. unfold dimension_or_zero. by rewrite H.
  - apply calculateEnrolleeWellness_present_mean.
Qed.

Lemma per_subject_wellness_witness :
  calculateWellnessScore (Some (enrollee_with None (uniform_scores 80)))
  = of_Z 80
  ∧ calculateWellnessScore
      (Some (enrollee_with None (delete "social" (uniform_scores 80))))
    = of_Z 70.
Proof.
  split.
  - apply (per_subject_wellness (enrollee_with None (uniform_scores 80))).
    intros dim Hd.
    repeat (apply elem_of_cons in Hd as [->|Hd]; [reflexivity|]).
    by apply elem_of_nil in Hd.
  - apply (per_subject_wellness
             (enrollee_with None (delete "social" (uniform_scores 80))))
      with (missing := "social").
    + compute_done.
    + reflexivity.
    + intros dim Hd Hne.
      repeat (apply elem_of_cons in Hd as [->|Hd];
              [reflexivity || done|]).
      by apply elem_of_nil in Hd.
Defined.

(* ===================================================================== *)
(** * Population average and trend classification *)
(* ===================================================================== *)

Section Trends.

Implicit Types (e : Enrollee) (enrollees : list Enrollee) (avg : Z).




Lemma ten_apart (a : Qc) : (a - Qc_of_Z 10 < a + Qc_of_Z 10)%Qc.
Proof.
  unfold Qcminus. apply Qcplus_lt_mono_l. reflexivity.
Qed.

Lemma is_improving_classify avg e :
  is_improving (of_Z avg) e
  = bool_decide (classify (Qc_of_Z avg) (present_mean e) = Improving).
Proof.
  unfold is_improving, classify.
  rewrite calculateEnrolleeWellness_present_mean. simpl.
  repeat case_bool_decide; done.
Qed.

Lemma is_declining_classify avg e :
  is_declining (of_Z avg) e
  = bool_decide (classify (Qc_of_Z avg) (present_mean e) = Declining).
Proof.
  unfold is_declining, classify.
  rewrite calculateEnrolleeWellness_present_mean. simpl.
  change (Qc_of_Z avg + - Qc_of_Z 10)%Qc with (Qc_of_Z avg - Qc_of_Z 10)%Qc.
  repeat case_bool_decide; try done.
  exfalso.
  pose proof (ten_apart (Qc_of_Z avg)) as Hlt.
  eapply (Qclt_not_le _ _ Hlt), Qclt_le_weak.
  eapply Qclt_trans; eassumption.
Qed.

Lemma is_stable_classify avg e :
  is_stable (of_Z avg) e
  = bool_decide (classify (Qc_of_Z avg) (present_mean e) = Stable).
Proof.
  unfold is_stable, classify.
  rewrite calculateEnrolleeWellness_present_mean. simpl.
  change (present_mean e + - Qc_of_Z avg)%Qc
    with (present_mean e - Qc_of_Z avg)%Qc.
  rewrite Qcabs_Qcminus.
  assert (H := Qcabs_diff_Qcle_condition
                 (Qc_of_Z avg) (present_mean e) (Qc_of_Z 10)).
  repeat case_bool_decide; try done; exfalso.
  - apply H in H0 as [_ Hle]. by apply Qcle_not_lt in Hle.
  - apply H in H0 as [Hle _]. by apply Qcle_not_lt in Hle.
  - apply H0, H. split; by apply Qcnot_lt_le.
Qed.

Lemma filter_ext_length {A} (p q : A → bool) (l : list A) :
  (∀ x, p x = q x) →
  length (List.filter p l) = length (List.filter q l).
Proof. intros H. f_equal. apply List.filter_ext. exact H. Qed.

End Trends.

(** A subject whose only recorded dimension is [physical] = 80, alone in
    the population: the average is 80 and the subject's own mean is 80. *)
Example lone_dimension_subject :
  calculateAverageWellness [enrollee_with None {[ "physical" := 80%Z ]}]
  = of_Z 80
  ∧ calculateEnrolleeWellness (enrollee_with None {[ "physical" := 80%Z ]})
    = of_Z 80
  ∧ per_subject_wellness_spec (enrollee_with None {[ "physical" := 80%Z ]})
    = 10%Z.
Proof. repeat split; compute_done. Qed.

(** C5, as stated, fails: the subject above has per-subject wellness 10
    when 0 is substituted for the missing dimensions, 70 points below the
    population average of 80, which the stated rule classifies as
    declining; [calculateTrends] counts it as stable. *)
Lemma trend_not_by_zero_substituted_wellness :
  calculateAverageWellness [enrollee_with None {[ "physical" := 80%Z ]}]
  = of_Z 80
  ∧ trend_spec (Qc_of_Z 80) (enrollee_with None {[ "physical" := 80%Z ]})
    = Declining
  ∧ declining
      (calculateTrends [enrollee_with None {[ "physical" := 80%Z ]}]) = 0%nat
  ∧ stable
      (calculateTrends [enrollee_with None {[ "physical" := 80%Z ]}]) = 1%nat.
Proof. repeat split; compute_done. Qed.

(** C5, amended.  Trend classification compares each subject's mean of
    the wellness dimensions that are present (unrounded, 0 when none is
    present) with the population average: improving when strictly more
    than 10 above it, declining when strictly more than 10 below it,
    stable otherwise; the three counts are the sizes of these buckets.
    With population average 50, a subject at 65 is improving, one at 50
    is stable and one at 30 is declining. *)
Theorem trend_classification (enrollees : list Enrollee) (avg : Z) :
  calculateAverageWellness enrollees = of_Z avg →
  let bucket e := classify (Qc_of_Z avg) (present_mean e) in
  (∀ e, (is_improving (of_Z avg) e = true
         ↔ (Qc_of_Z avg + Qc_of_Z 10 < present_mean e)%Qc)
        ∧ (is_declining (of_Z avg) e = true
           ↔ (present_mean e < Qc_of_Z avg - Qc_of_Z 10)%Qc)
        ∧ (is_stable (of_Z avg) e = true
           ↔ ¬ (Qc_of_Z avg + Qc_of_Z 10 < present_mean e)%Qc
             ∧ ¬ (present_mean e < Qc_of_Z avg - Qc_of_Z 10)%Qc))
  ∧ improving (calculateTrends enrollees)
    = length (List.filter (λ e, bool_decide (bucket e = Improving)) enrollees)
  ∧ stable (calculateTrends enrollees)
    = length (List.filter (λ e, bool_decide (bucket e = Stable)) enrollees)
  ∧ declining (calculateTrends enrollees)
    = length (List.filter (λ e, bool_decide (bucket e = Declining)) enrollees)
  ∧ (avg = 50%Z →
     ∀ e, (present_mean e = Qc_of_Z 65 → bucket e = Improving)
          ∧ (present_mean e = Qc_of_Z 50 → bucket e = Stable)
          ∧ (present_mean e = Qc_of_Z 30 → bucket e = Declining)).
Proof.
  intros Havg bucket. split; [|repeat split].
  - intros e.
    rewrite is_improving_classify, is_declining_classify, is_stable_classify.
    rewrite !bool_decide_eq_true. unfold classify.
    pose proof (ten_apart (Qc_of_Z avg)) as Hlt.
    repeat case_bool_decide; repeat split; try done; try tauto.
    intros Hd. exfalso.
    eapply (Qclt_not_le _ _ Hlt), Qclt_le_weak.
    eapply Qclt_trans; eassumption.
  - unfold calculateTrends; simpl. rewrite Havg.
    apply filter_ext_length. intros e. apply is_improving_classify.
  - unfold calculateTrends; simpl. rewrite Havg.
    apply filter_ext_length. intros e. apply is_stable_classify.
  - unfold calculateTrends; simpl. rewrite Havg.
    apply filter_ext_length. intros e. apply is_declining_classify.
  - subst avg. unfold bucket. intros ->. compute_done.
  - subst avg. unfold bucket. intros ->. compute_done.
  - subst avg. unfold bucket. intros ->. compute_done.
Qed.

Lemma trend_classification_witness :
  calculateAverageWellness sample_population = of_Z 50
  ∧ improving (calculateTrends sample_population) = 1%nat
  ∧ classify (Qc_of_Z 50)
             (present_mean (enrollee_with None (uniform_scores 30)))
    = Declining.
Proof.
  assert (Havg : calculateAverageWellness sample_population = of_Z 50)
    by compute_done.
  destruct (trend_classification sample_population 50 Havg)
    as (_ & Himp & _ & _ & Hex).
  split; [exact Havg|]. split.
  - rewrite Himp. compute_done.
  - apply (Hex eq_refl). apply Qc_is_canon. compute_done.
Defined.

(* ===================================================================== *)
(** * Risk distribution *)
(* ===================================================================== *)

Section RiskDistribution.

Implicit Types (e : Enrollee) (enrollees : list Enrollee).

(** The three tier filters and the unassessed remainder split the
    list. *)
Lemma tier_counts_split enrollees :
  (length (List.filter (tier_is 1) enrollees)
   + length (List.filter (tier_is 2) enrollees)
   + length (List.filter (tier_is 3) enrollees)
   + length (List.filter (λ e, negb (assessed e)) enrollees))%nat
  = length enrollees.
Proof.
  induction enrollees as [|e l IH]; [done|].
  assert (He : (Nat.b2n (tier_is 1 e) + Nat.b2n (tier_is 2 e)
                + Nat.b2n (tier_is 3 e) + Nat.b2n (negb (assessed e)))%nat
               = 1%nat).
  { unfold assessed, tier_is.
    destruct (tier_of e) as [[n|s]|]; try done.
    repeat case_bool_decide; simpl; lia. }
  cbn [List.filter].
  destruct (tier_is 1 e), (tier_is 2 e), (tier_is 3 e),
           (negb (assessed e)); simpl in *; lia.
Qed.

Lemma all_assessed_no_remainder enrollees :
  Forall (λ e, assessed e = true) enrollees →
  List.filter (λ e, negb (assessed e)) enrollees = [].
Proof.
  induction 1 as [|e l He _ IH]; [done|].
  cbn [List.filter]. by rewrite He.
Qed.

(** Three rounded shares of a whole add up to 99, 100 or 101. *)
Lemma rounded_shares (a b c n : Z) :
  (0 ≤ a)%Z → (0 ≤ b)%Z → (0 ≤ c)%Z → (0 < n)%Z → (a + b + c = n)%Z →
  (99 ≤ (200 * a + n) / (2 * n) + (200 * b + n) / (2 * n)
        + (200 * c + n) / (2 * n) ≤ 101)%Z.
Proof.
  intros Ha Hb Hc Hn Hsum.
  pose proof (Z.div_mod (200 * a + n) (2 * n) ltac:(lia)) as Da.
  pose proof (Z.mod_pos_bound (200 * a + n) (2 * n) ltac:(lia)) as Ma.
  pose proof (Z.div_mod (200 * b + n) (2 * n) ltac:(lia)) as Db.
  pose proof (Z.mod_pos_bound (200 * b + n) (2 * n) ltac:(lia)) as Mb.
  pose proof (Z.div_mod (200 * c + n) (2 * n) ltac:(lia)) as Dc.
  pose proof (Z.mod_pos_bound (200 * c + n) (2 * n) ltac:(lia)) as Mc.
  set (x := ((200 * a + n) / (2 * n))%Z) in *.
  set (y := ((200 * b + n) / (2 * n))%Z) in *.
  set (z := ((200 * c + n) / (2 * n))%Z) in *.
  assert (E : (2 * n * (x + y + z)
               + ((200 * a + n) `mod` (2 * n) + (200 * b + n) `mod` (2 * n)
                  + (200 * c + n) `mod` (2 * n)) = 203 * n)%Z) by lia.
  split; nia.
Qed.

End RiskDistribution.

(** C4, as stated, fails: with one tier-1 subject and one unassessed
    subject the tier counts add up to 1, not 2, and the percentages to
    50. *)
Lemma risk_tiers_undercount :
  let enrollees := [enrollee_with (Some (TierNumber 1)) (uniform_scores 70);
                    enrollee_with (Some (TierLabel "unassessed"))
                                  (uniform_scores 70)] in
  let d := calculateRiskDistribution enrollees in
  (tier1 d + tier2 d + tier3 d)%nat = 1%nat
  ∧ length enrollees = 2%nat
  ∧ tier1Percent d = of_Z 50
  ∧ tier2Percent d = of_Z 0
  ∧ tier3Percent d = of_Z 0.
Proof. repeat split; compute_done. Qed.

(** C4, amended.  The tier counts for tiers 1, 2 and 3 add up to the
    number of subjects whose tier is 1, 2 or 3, which is at most the
    length of the list and equal to it when every subject has such a
    tier; in that case, for a non-empty list, the three percentages are
    integers that add up to 99, 100 or 101. *)
Theorem risk_distribution_counts (enrollees : list Enrollee) :
  let d := calculateRiskDistribution enrollees in
  (tier1 d + tier2 d + tier3 d)%nat
  = length (List.filter assessed enrollees)
  ∧ (tier1 d + tier2 d + tier3 d ≤ length enrollees)%nat
  ∧ (Forall (λ e, assessed e = true) enrollees →
     (tier1 d + tier2 d + tier3 d)%nat = length enrollees
     ∧ (enrollees ≠ [] →
        ∃ p1 p2 p3 : Z,
          tier1Percent d = of_Z p1 ∧ tier2Percent d = of_Z p2
          ∧ tier3Percent d = of_Z p3
          ∧ (99 ≤ p1 + p2 + p3 ≤ 101)%Z)).
Proof.
  intros d.
  assert (Hd : tier1 d = length (List.filter (tier_is 1) enrollees)
               ∧ tier2 d = length (List.filter (tier_is 2) enrollees)
               ∧ tier3 d = length (List.filter (tier_is 3) enrollees)).
  { subst d. unfold calculateRiskDistribution.
    destruct enrollees; [done|]. by simpl. }
  destruct Hd as (E1 & E2 & E3).
  pose proof (tier_counts_split enrollees) as Hsplit.
  assert (Hpart : (length (List.filter assessed enrollees)
                   + length (List.filter (λ e, negb (assessed e)) enrollees))%nat
                  = length enrollees).
  { clear. induction enrollees as [|e l IH]; [done|].
    cbn [List.filter]. destruct (assessed e); simpl; lia. }
  split; [lia|]. split; [lia|].
  intros Hall. pose proof (all_assessed_no_remainder _ Hall) as Hnil.
  rewrite Hnil in Hsplit. simpl in Hsplit.
  split; [lia|]. intros Hne.
  assert (Hlen : (0 < length enrollees)%nat)
    by (destruct enrollees; [done|simpl; lia]).
  assert (Hp : tier1Percent d = percent_of (tier1 d) (length enrollees)
               ∧ tier2Percent d = percent_of (tier2 d) (length enrollees)
               ∧ tier3Percent d = percent_of (tier3 d) (length enrollees)).
  { subst d. unfold calculateRiskDistribution.
    destruct enrollees; [done|]. by simpl. }
  destruct Hp as (P1 & P2 & P3).
  rewrite percent_of_Z in P1, P2, P3 by done.
  eexists _, _, _. split; [exact P1|]. split; [exact P2|].
  split; [exact P3|]. apply rounded_shares; lia.
Qed.

Lemma risk_distribution_counts_witness :
  (tier1 (calculateRiskDistribution sample_population)
   + tier2 (calculateRiskDistribution sample_population)
   + tier3 (calculateRiskDistribution sample_population) ≤ 4)%nat
  ∧ ∃ p1 p2 p3 : Z,
      tier1Percent
        (calculateRiskDistribution
           [enrollee_with (Some (TierNumber 1)) (uniform_scores 70);
            enrollee_with (Some (TierNumber 3)) (uniform_scores 20)])
      = of_Z p1
      ∧ (99 ≤ p1 + p2 + p3 ≤ 101)%Z.
Proof.
  split.
  - apply (risk_distribution_counts sample_population).
  - destruct (risk_distribution_counts
                [enrollee_with (Some (TierNumber 1)) (uniform_scores 70);
                 enrollee_with (Some (TierNumber 3)) (uniform_scores 20)])
      as (_ & _ & H).
    destruct H as (_ & H).
    + repeat constructor.
    + destruct (H ltac:(discriminate)) as (p1 & p2 & p3 & H1 & _ & _ & Hs).
      by exists p1, p2, p3.
Defined.

(* ===================================================================== *)
(** * Guarded divisions *)
(* ===================================================================== *)

Section Guards.

Implicit Types (enrollees : list Enrollee) (referrals : list Referral).



End Guards.

(* ===================================================================== *)
(** * The analytics service on arbitrary arrays *)
(* ===================================================================== *)

Section Arrays.

Local Open Scope list_scope.

(** ** Loops over arrays of records and over arrays with a null element *)

Lemma forEach_records {A S : Type} (callback : S → option A → completion S)
    (f : S → A → S) (s0 : S) (es : list A) :
  (∀ s e, callback s (Some e) = Normal (f s e)) →
  forEach callback s0 (Some <$> es) = Normal (foldl f s0 es).
Proof.
  intros Hf. revert s0. induction es as [|e es IH]; intros s0; [done|].
  rewrite fmap_cons. cbn [forEach foldl]. rewrite Hf. apply IH.
Qed.

Lemma forEach_null {A S : Type} (callback : S → option A → completion S)
    (s0 : S) (items : list (option A)) :
  (∀ s, callback s None = TypeError) → None ∈ items →
  forEach callback s0 items = TypeError.
Proof.
  intros Hnull Hin. revert s0.
  induction items as [|x items IH]; intros s0; [by apply elem_of_nil in Hin|].
  cbn [forEach]. destruct x as [e|]; [|by rewrite Hnull].
  apply elem_of_cons in Hin as [?|Hin]; [done|].
  destruct (callback s0 (Some e)); [by apply IH|done].
Qed.

Lemma filter_records {A : Type} (callback : option A → completion bool)
    (p : A → bool) (es : list A) :
  (∀ e, callback (Some e) = Normal (p e)) →
  filter_completion callback (Some <$> es) = Normal (Some <$> List.filter p es).
Proof.
  intros Hp. induction es as [|e es IH]; [done|].
  rewrite fmap_cons. cbn [filter_completion List.filter].
  rewrite Hp, IH. by destruct (p e).
Qed.




(** An array without a null element is an array of records. *)
Lemma records_or_null {A : Type} (items : list (option A)) :
  None ∈ items ∨ ∃ es, items = Some <$> es.
Proof.
  induction items as [|x items [Hin|(es & ->)]].
  - right. by exists [].
  - left. by right.
  - destruct x as [e|]; [right; by exists (e :: es)|left; by left].
Qed.

Lemma records_not_null {A : Type} (es : list A) : None ∉ (Some <$> es).
Proof. intros (e & ? & _)%list_elem_of_fmap. done. Qed.

(** A function that throws on a null element and returns on records
    throws exactly on the arrays with a null element. *)
Lemma throws_iff_null {A B : Type} (f : list (option A) → completion B) :
  (∀ items, None ∈ items → f items = TypeError) →
  (∀ es, ∃ b, f (Some <$> es) = Normal b) →
  ∀ items, f items = TypeError ↔ None ∈ items.
Proof.
  intros Hnull Hrec items. split; [|apply Hnull].
  intros Hthrow. destruct (records_or_null items) as [?|(es & ->)]; [done|].
  destruct (Hrec es) as (b & Hb). congruence.
Qed.


Lemma length_records {A : Type} (es : list A) :
  length (Some <$> es) = length es.
Proof. apply length_fmap. Qed.

(** ** Finite numbers *)







(** ** Per-subject wellness *)





(** ** The population average *)




Lemma calculateAverageWellness_records (es : list Raw.Enrollee) :
  Raw.calculateAverageWellness (Some <$> es)
  = Normal (if (length es =? 0)%nat then of_Z 0
            else if (0 <? (foldl Raw.add_enrollee (of_Z 0, 0%nat) es).2)%nat
            then Math_round
                   (js_div (foldl Raw.add_enrollee (of_Z 0, 0%nat) es).1
                           (of_nat (foldl Raw.add_enrollee (of_Z 0, 0%nat)
                                          es).2))
            else of_Z 0).
Proof.
  unfold Raw.calculateAverageWellness. rewrite length_records.
  destruct (length es =? 0)%nat; [done|].
  rewrite (forEach_records _ Raw.add_enrollee) by done.
  by destruct (foldl Raw.add_enrollee _ es) as [t c].
Qed.



(** ** The dimension averages *)





(** ** The risk distribution *)




(** ** Z-codes, care teams and referrals *)










(** ** Trends *)

Lemma calculateTrends_records (es : list Raw.Enrollee) (avgWellness : number) :
  Raw.calculateAverageWellness (Some <$> es) = Normal avgWellness →
  let count (bucket : number → number → bool) :=
    length (List.filter (λ e, bucket avgWellness (Raw.wellness_of e)) es) in
  let percent (n : nat) :=
    if (0 <? length es)%nat then percent_of n (length es) else of_Z 0 in
  Raw.calculateTrends (Some <$> es)
  = Normal {| improving := count Raw.is_improving;
              stable := count Raw.is_stable;
              declining := count Raw.is_declining;
              improvingPercent := percent (count Raw.is_improving);
              stablePercent := percent (count Raw.is_stable);
              decliningPercent := percent (count Raw.is_declining) |}.
Proof.
  intros Havg count percent. unfold Raw.calculateTrends. rewrite Havg.
  rewrite (filter_records _
             (λ e, Raw.is_improving avgWellness (Raw.wellness_of e))),
          (filter_records _
             (λ e, Raw.is_stable avgWellness (Raw.wellness_of e))),
          (filter_records _
             (λ e, Raw.is_declining avgWellness (Raw.wellness_of e)))
    by done.
  by rewrite !length_records.
Qed.



(** ** Cohorts *)

Lemma average_tier_null items :
  None ∈ items → Raw.average_tier items = TypeError.
Proof.
  intros Hin. unfold Raw.average_tier.
  destruct items as [|x items]; [by apply elem_of_nil in Hin|].
  cbn [length Nat.ltb Nat.leb]. by rewrite forEach_null.
Qed.

















(** ** The three trend buckets *)






(** ** Records with integer scores *)

Lemma wellnessScores_of_Enrollee (e : Enrollee) :
  Raw.wellnessScores_of (Raw_of_Enrollee e)
  = fmap (M := gmap string) (λ z, VNum (of_Z z)) <$> wellnessScores_of e.
Proof.
  unfold Raw.wellnessScores_of, wellnessScores_of, Raw_of_Enrollee.
  simpl. by destruct (riskProfile e).
Qed.

Lemma as_number_of_Z (scores : gmap string Z) (dim : string) :
  Raw.as_number (((λ z, VNum (of_Z z)) <$> scores) !! dim)
  = of_Z <$> scores !! dim.
Proof. rewrite lookup_fmap. by destruct (scores !! dim). Qed.

Lemma wellness_of_Enrollee (e : Enrollee) :
  Raw.wellness_of (Raw_of_Enrollee e) = calculateEnrolleeWellness e.
Proof.
  unfold Raw.wellness_of, calculateEnrolleeWellness.
  rewrite wellnessScores_of_Enrollee.
  destruct (wellnessScores_of e) as [scores|]; [|done].
  cbn [fmap option_fmap option_map].
  assert (omap (λ dim, Raw.as_number
                         (((λ z, VNum (of_Z z)) <$> scores) !! dim))
               dimensions
          = of_Z <$> present_scores scores) as ->.
  { unfold present_scores. generalize dimensions. intros dims.
    induction dims as [|dim dims IH]; [done|].
    rewrite fmap_cons. cbn [omap list_omap]. rewrite as_number_of_Z.
    destruct (scores !! dim); simpl; by rewrite IH. }
  unfold Raw.mean_or_zero. by rewrite length_fmap.
Qed.

Lemma add_enrollee_of_Enrollee (es : list Enrollee) (acc : number * nat) :
  foldl Raw.add_enrollee acc (Raw_of_Enrollee <$> es)
  = foldl (λ acc enrollee,
             match wellnessScores_of enrollee with
             | Some scores => add_scores scores acc
             | None => acc
             end) acc es.
Proof.
  revert acc. induction es as [|e es IH]; intros acc; [done|].
  rewrite fmap_cons. cbn [foldl]. rewrite IH. f_equal.
  unfold Raw.add_enrollee. rewrite wellnessScores_of_Enrollee.
  destruct (wellnessScores_of e) as [scores|]; [|done].
  cbn [fmap option_fmap option_map].
  unfold Raw.add_scores, add_scores. generalize dimensions. intros dims.
  revert acc. induction dims as [|dim dims IHd]; intros [t c]; [done|].
  cbn [foldl]. rewrite as_number_of_Z.
  destruct (scores !! dim); simpl; apply IHd.
Qed.


(** On records with integer scores the functions on arbitrary arrays
    return what the functions of the earlier sections compute. *)
Lemma calculateAverageWellness_of_Enrollee (es : list Enrollee) :
  Raw.calculateAverageWellness (Some <$> (Raw_of_Enrollee <$> es))
  = Normal (calculateAverageWellness es).
Proof.
  rewrite calculateAverageWellness_records, length_fmap.
  unfold calculateAverageWellness, wellness_totals.
  rewrite add_enrollee_of_Enrollee.
  destruct (length es =? 0)%nat; [done|].
  by destruct (foldl _ _ es) as [t c].
Qed.

Lemma filter_of_Enrollee (p : number → bool) (es : list Enrollee) :
  length (List.filter (λ e, p (Raw.wellness_of e)) (Raw_of_Enrollee <$> es))
  = length (List.filter (λ e, p (calculateEnrolleeWellness e)) es).
Proof.
  induction es as [|e es IH]; [done|].
  rewrite fmap_cons. cbn [List.filter]. rewrite wellness_of_Enrollee.
  destruct (p _); simpl; by rewrite IH.
Qed.

Lemma calculateTrends_of_Enrollee (es : list Enrollee) :
  Raw.calculateTrends (Some <$> (Raw_of_Enrollee <$> es))
  = Normal (calculateTrends es).
Proof.
  rewrite (calculateTrends_records _ _
             (calculateAverageWellness_of_Enrollee es)).
  cbv zeta. rewrite length_fmap.
  rewrite (filter_of_Enrollee
             (Raw.is_improving (calculateAverageWellness es))),
          (filter_of_Enrollee
             (Raw.is_stable (calculateAverageWellness es))),
          (filter_of_Enrollee
             (Raw.is_declining (calculateAverageWellness es))).
  reflexivity.
Qed.

End Arrays.







(* ===================================================================== *)
(** * Referral analysis *)
(* ===================================================================== *)

Section ReferralAnalysis.

Implicit Types (r : Referral) (referrals : list Referral).

Lemma statusCounts_lookup referrals :
  let m := analyzeReferrals referrals in
  statusCounts m !! "Pending"
  = Some (length (List.filter (status_is "Pending") referrals))
  ∧ statusCounts m !! "Accepted"
    = Some (length (List.filter (status_is "Accepted") referrals))
  ∧ statusCounts m !! "Rejected"
    = Some (length (List.filter (status_is "Rejected") referrals)).
Proof.
  cbn [analyzeReferrals statusCounts list_to_map foldr fst snd uncurry].
  split; [|split]; reflexivity.
Qed.


Lemma status_counts_split referrals :
  (length (List.filter (status_is "Pending") referrals)
   + length (List.filter (status_is "Accepted") referrals)
   + length (List.filter (status_is "Rejected") referrals)
   + length (List.filter uncounted_status referrals))%nat
  = length referrals.
Proof.
  induction referrals as [|r l IH]; [done|].
  assert (He : (Nat.b2n (status_is "Pending" r)
                + Nat.b2n (status_is "Accepted" r)
                + Nat.b2n (status_is "Rejected" r)
                + Nat.b2n (uncounted_status r))%nat = 1%nat).
  { unfold uncounted_status, status_is.
    repeat case_bool_decide; simpl; congruence || lia. }
  cbn [List.filter].
  destruct (status_is "Pending" r), (status_is "Accepted" r),
           (status_is "Rejected" r), (uncounted_status r);
    simpl in *; lia.
Qed.




Lemma js_le_of_Z (a b : Z) : (a ≤ b)%Z → js_le (of_Z a) (of_Z b) = true.
Proof.
  intros H. unfold js_le, of_Z. apply bool_decide_eq_true_2.
  exact (proj1 (Z2Qc_inj_le a b) H).
Qed.

End ReferralAnalysis.



(* ===================================================================== *)
(** * Referral status transitions *)
(* ===================================================================== *)

Section ReferralTransitions.

Implicit Types (w : World) (ev : Event) (id : string).

Lemma updateDoc_status_lookup id s docs docs' id' :
  updateDoc_status id s docs = Some docs' →
  docs' !! id' ≫= status
  = if decide (id = id') then Some s else docs !! id' ≫= status.
Proof.
  unfold updateDoc_status. destruct (docs !! id) as [r|] eqn:E; [|done].
  intros [= <-]. rewrite lookup_insert. by case_decide.
Qed.

Lemma cancel_button_guard (p : ReferralsPage) (r : Referral) :
  cancel_button_shown p r = true →
  status r = Some "Pending"
  ∧ hasPermission (page_userRole p) "CANCEL_REFERRAL" = Normal true.
Proof.
  unfold cancel_button_shown, status_is.
  rewrite !andb_true_iff, bool_decide_eq_true, !granted_spec. tauto.
Qed.

Lemma respond_buttons_guard (i : ReferralInboxPage) (r : Referral) :
  respond_buttons_shown i r = true →
  status r = Some "Pending"
  ∧ hasPermission (inbox_userRole i) "RESPOND_REFERRAL" = Normal true.
Proof.
  unfold respond_buttons_shown, status_is.
  rewrite andb_true_iff, bool_decide_eq_true, granted_spec. tauto.
Qed.

(** What enables a click on Cancel. *)
Lemma step_ClickCancel w id w' :
  step w (ClickCancel id) = Some w' →
  ∃ r, page_referrals (page w) !! id = Some r
       ∧ status r = Some "Pending"
       ∧ hasPermission (page_userRole (page w)) "CANCEL_REFERRAL"
         = Normal true
       ∧ w' = {| referrals := referrals w;
                 page := set_canceling (Some id) (page w);
                 inbox := inbox w |}.
Proof.
  simpl. destruct (page_referrals (page w) !! id) as [r|] eqn:Er; [|done].
  destruct (cancel_button_shown (page w) r) eqn:Hshown; [|done].
  intros [= <-]. apply cancel_button_guard in Hshown as [Hs Hp].
  by exists r.
Qed.

(** What enables a click on Accept or Reject. *)
Lemma step_ClickRespond w id action w' :
  step w (ClickRespond id action) = Some w' →
  ∃ r, inbox_referrals (inbox w) !! id = Some r
       ∧ status r = Some "Pending"
       ∧ hasPermission (inbox_userRole (inbox w)) "RESPOND_REFERRAL"
         = Normal true
       ∧ w' = handleRespond id action w.
Proof.
  simpl. destruct (inbox_referrals (inbox w) !! id) as [r|] eqn:Er; [|done].
  destruct (respond_buttons_shown (inbox w) r) eqn:Hshown; [|done].
  intros [= <-]. apply respond_buttons_guard in Hshown as [Hs Hp].
  by exists r.
Qed.



(** Only two events write a status: the confirmed cancellation and the
    submitted response. *)
Lemma step_status_at w ev w' id :
  step w ev = Some w' →
  status_at w' id = status_at w id
  ∨ (ev = ConfirmCancel ∧ cancelingReferralId (page w) = Some id
     ∧ status_at w' id = Some "Cancelled")
  ∨ (ev = SubmitResponse ∧ showResponseDialog (inbox w) = true
     ∧ ∃ action, selectedReferral (inbox w) = Some (id, action)
                 ∧ status_at w' id = Some (response_label action)).
Proof.
  intros Hstep.
  destruct ev as [ |p|id0| | | |p|id0 action| | ].
  - injection Hstep as <-. by left.
  - injection Hstep as <-. by left.
  - apply step_ClickCancel in Hstep as (r & _ & _ & _ & ->). by left.
  - simpl in Hstep. destruct (cancelingReferralId (page w)); [|done].
    injection Hstep as <-. by left.
  - simpl in Hstep.
    destruct (cancelingReferralId (page w)) as [id0|] eqn:Ec; [|done].
    injection Hstep as <-. unfold handleCancelReferral.
    destruct (updateDoc_status id0 "Cancelled" (referrals w))
      as [docs|] eqn:Eu; [|by left].
    unfold status_at; simpl.
    rewrite (updateDoc_status_lookup _ _ _ _ id Eu).
    case_decide as Hid; [subst id0|by left].
    right; left. done.
  - injection Hstep as <-. by left.
  - injection Hstep as <-. by left.
  - apply step_ClickRespond in Hstep as (r & _ & _ & _ & ->). by left.
  - simpl in Hstep. destruct (showResponseDialog (inbox w)); [|done].
    injection Hstep as <-. by left.
  - simpl in Hstep.
    destruct (showResponseDialog (inbox w)) eqn:Hshow; [|done].
    injection Hstep as <-. unfold submitResponse.
    destruct (selectedReferral (inbox w)) as [[id' action]|] eqn:Es;
      [|by left].
    destruct (updateDoc_status id' (response_label action) (referrals w))
      as [docs|] eqn:Eu; [|by left].
    unfold status_at; simpl.
    rewrite (updateDoc_status_lookup _ _ _ _ id Eu).
    case_decide as Hid; [subst id'|by left].
    right; right. split; [done|]. split; [done|]. by exists action.
Qed.


End ReferralTransitions.




(* ===================================================================== *)
(** * Risk prediction *)
(* ===================================================================== *)

Section Prediction.

Implicit Types (w : Qc) (z : nat) (t : tier_value) (e : Enrollee).

Lemma js_lt_of_Z w (a : Z) :
  js_lt (Finite w) (of_Z a) = true ↔ (this w < inject_Z a)%Q.
Proof. unfold js_lt, of_Z. by rewrite bool_decide_eq_true. Qed.

Lemma js_gt_of_Z w (a : Z) :
  js_gt (Finite w) (of_Z a) = true ↔ (inject_Z a < this w)%Q.
Proof. unfold js_gt, js_lt, of_Z. by rewrite bool_decide_eq_true. Qed.

Lemma js_le_Z_of_Z (a b : Z) : js_le (of_Z a) (of_Z b) = true ↔ (a ≤ b)%Z.
Proof.
  unfold js_le, of_Z. rewrite bool_decide_eq_true.
  symmetry. apply Z2Qc_inj_le.
Qed.

Lemma predictRecommendedTier_cases w z t :
  (predictRecommendedTier (Finite w) z t = 1%Z
   ∧ (70 # 1 < this w)%Q ∧ (z ≤ 2)%nat)
  ∨ (predictRecommendedTier (Finite w) z t = 3%Z
     ∧ ((this w < 40 # 1)%Q ∨ (5 ≤ z)%nat))
  ∨ (predictRecommendedTier (Finite w) z t = 2%Z
     ∧ ((this w <= 70 # 1)%Q ∨ (2 < z)%nat)
     ∧ (40 # 1 <= this w)%Q ∧ (z < 5)%nat).
Proof.
  unfold predictRecommendedTier.
  destruct (js_gt (Finite w) (of_Z 70)) eqn:Hgt;
    destruct (Nat.leb_spec z 2) as [Hz|Hz];
    destruct (js_lt (Finite w) (of_Z 40)) eqn:Hlt;
    destruct (Nat.leb_spec 5 z) as [Hz5|Hz5];
    cbn [andb orb];
    try apply js_gt_of_Z in Hgt;
    try (apply not_true_iff_false in Hgt; rewrite js_gt_of_Z in Hgt;
         apply Qnot_lt_le in Hgt);
    try apply js_lt_of_Z in Hlt;
    try (apply not_true_iff_false in Hlt; rewrite js_lt_of_Z in Hlt;
         apply Qnot_lt_le in Hlt);
    first
      [ lia
      | left; split; [reflexivity|split; [assumption|lia]]
      | right; left; split; [reflexivity|];
        first [left; assumption|right; lia]
      | right; right; split; [reflexivity|];
        split; [first [left; assumption|right; lia]|split; [assumption|lia]] ].
Qed.

End Prediction.

(** X1. The recommended tier is always 1, 2 or 3, does not depend on the
    current tier, and is monotone: with a wellness value at least as high
    and at most as many Z-codes, the recommended tier is never higher. *)
Theorem predictRecommendedTier_monotone
    (w w' : Qc) (z z' : nat) (t t' : tier_value) :
  (w ≤ w')%Qc → (z' ≤ z)%nat →
  (1 ≤ predictRecommendedTier (Finite w) z t ≤ 3)%Z
  ∧ predictRecommendedTier (Finite w) z t
    = predictRecommendedTier (Finite w) z t'
  ∧ (predictRecommendedTier (Finite w') z' t'
     ≤ predictRecommendedTier (Finite w) z t)%Z.
Proof.
  intros Hw Hz. unfold Qcle in Hw.
  split; [|split; [done|]].
  - destruct (predictRecommendedTier_cases w z t)
      as [(-> & _)|[(-> & _)|(-> & _)]]; lia.
  - destruct (predictRecommendedTier_cases w z t)
      as [(-> & H1 & H2)|[(-> & H1)|(-> & H1 & H2 & H3)]];
    destruct (predictRecommendedTier_cases w' z' t')
      as [(-> & G1 & G2)|[(-> & G1)|(-> & G1 & G2 & G3)]];
    try lia; exfalso; destruct G1 as [G1|G1]; lra || lia.
Qed.

Lemma predictRecommendedTier_monotone_witness :
  (predictRecommendedTier (of_Z 80) 1 (TierNumber 3)
   ≤ predictRecommendedTier (of_Z 30) 6 (TierNumber 1))%Z.
Proof.
  apply (predictRecommendedTier_monotone
           (Qc_of_Z 30) (Qc_of_Z 80) 6 1 (TierNumber 1) (TierNumber 3)).
  - by apply Z2Qc_inj_le.
  - lia.
Defined.

Section PredictionFacts.

Implicit Types (e : Enrollee) (score : number).

Lemma confidence_rounds :
  Math_round (js_mul conf_075 (of_Z 100)) = of_Z 75
  ∧ Math_round (js_mul conf_07 (of_Z 100)) = of_Z 70
  ∧ Math_round (js_mul conf_06 (of_Z 100)) = of_Z 60.
Proof. repeat split; compute_done. Qed.

Lemma predictRiskTrend_unfold e :
  predictRiskTrend e
  = let wellness := Finite (present_mean e) in
    let zCodeCount := length (default [] (zCodes_of e)) in
    {| prediction :=
         if js_gt wellness (of_Z 70) && (zCodeCount <=? 2)%nat
         then "improving"
         else if js_lt wellness (of_Z 40) && (4 <=? zCodeCount)%nat
         then "declining" else "stable";
       confidence :=
         if js_gt wellness (of_Z 70) && (zCodeCount <=? 2)%nat
         then of_Z 75
         else if js_lt wellness (of_Z 40) && (4 <=? zCodeCount)%nat
         then of_Z 70 else of_Z 60;
       recommendedTier :=
         predictRecommendedTier wellness zCodeCount
                                (tier_or 2 (tier_of e)) |}.
Proof.
  destruct confidence_rounds as (C1 & C2 & C3).
  unfold predictRiskTrend. rewrite calculateEnrolleeWellness_present_mean.
  cbv zeta.
  destruct (js_gt _ _ && _); [by rewrite C1|].
  destruct (js_lt _ _ && _); [by rewrite C2|by rewrite C3].
Qed.

Lemma getWellnessLevel_of_Z (v : Z) :
  getWellnessLevel (of_Z v)
  = if bool_decide (70 ≤ v)%Z then "Good"
    else if bool_decide (40 ≤ v)%Z then "At Risk" else "High Risk".
Proof.
  unfold getWellnessLevel, js_ge.
  repeat case_bool_decide;
    repeat match goal with
      | H : (_ ≤ _)%Z |- _ => apply js_le_Z_of_Z in H; rewrite H
      | H : ¬ (_ ≤ _)%Z |- _ =>
          rewrite <- js_le_Z_of_Z in H; apply not_true_is_false in H;
          rewrite H
      end; done.
Qed.

End PredictionFacts.

(** X2. The trend prediction and the recommended tier go together: an
    improving prediction (confidence 75) comes exactly with recommended
    tier 1, a declining prediction (confidence 70) only with tier 3, and
    a stable prediction (confidence 60) with tier 2 or 3.  A subject whose
    wellness is under 40 with fewer than 4 Z-codes is predicted stable
    although tier 3 is recommended.  The stored tier has no influence on
    the result. *)
Theorem predictRiskTrend_consistent (e : Enrollee) :
  let p := predictRiskTrend e in
  ((prediction p = "improving" ∧ confidence p = of_Z 75
    ∧ recommendedTier p = 1%Z)
   ∨ (prediction p = "declining" ∧ confidence p = of_Z 70
      ∧ recommendedTier p = 3%Z)
   ∨ (prediction p = "stable" ∧ confidence p = of_Z 60
      ∧ (recommendedTier p = 2%Z ∨ recommendedTier p = 3%Z)))
  ∧ ((present_mean e < Qc_of_Z 40)%Qc →
     (length (default [] (zCodes_of e)) < 4)%nat →
     prediction p = "stable" ∧ recommendedTier p = 3%Z)
  ∧ (∀ e', wellnessScores_of e' = wellnessScores_of e →
           zCodes_of e' = zCodes_of e →
           prediction (predictRiskTrend e') = prediction p
           ∧ confidence (predictRiskTrend e') = confidence p
           ∧ recommendedTier (predictRiskTrend e') = recommendedTier p).
Proof.
  intros p. subst p. rewrite predictRiskTrend_unfold. cbv zeta.
  set (w := present_mean e). set (z := length (default [] (zCodes_of e))).
  cbn [prediction confidence recommendedTier].
  pose proof (predictRecommendedTier_cases w z (tier_or 2 (tier_of e)))
    as Hcases.
  split; [|split].
  - destruct (js_gt (Finite w) (of_Z 70)) eqn:Hgt;
      destruct (Nat.leb_spec z 2) as [Hz|Hz];
      destruct (js_lt (Finite w) (of_Z 40)) eqn:Hlt;
      destruct (Nat.leb_spec 4 z) as [Hz4|Hz4];
      cbn [andb orb];
      try apply js_gt_of_Z in Hgt;
      try (apply not_true_iff_false in Hgt; rewrite js_gt_of_Z in Hgt;
           apply Qnot_lt_le in Hgt);
      try apply js_lt_of_Z in Hlt;
      try (apply not_true_iff_false in Hlt; rewrite js_lt_of_Z in Hlt;
           apply Qnot_lt_le in Hlt);
      unfold inject_Z in *;
      destruct Hcases
        as [(-> & H1 & H2)|[(-> & H1)|(-> & H1 & H2 & H3)]];
      try lia; try lra;
      try (destruct H1 as [H1|H1]; (lia || lra));
      first [ left; by repeat split
            | right; left; by repeat split
            | right; right; repeat split; try done; (by left) || (by right) ].
  - intros Hw Hz. unfold Qclt in Hw. fold w in Hw. fold z in Hz.
    assert (Hlt : js_lt (Finite w) (of_Z 40) = true)
      by (by apply js_lt_of_Z).
    assert (Hgt : js_gt (Finite w) (of_Z 70) = false).
    { apply not_true_iff_false. rewrite js_gt_of_Z.
      clear -Hw. clearbody w. simpl in Hw. unfold inject_Z in *. lra. }
    rewrite Hgt, Hlt. cbn [andb].
    destruct (Nat.leb_spec 4 z) as [Hz4|_]; [lia|].
    split; [done|]. unfold predictRecommendedTier. by rewrite Hgt, Hlt.
  - intros e' Hs Hc. rewrite predictRiskTrend_unfold. cbv zeta.
    cbn [prediction confidence recommendedTier].
    assert (Hw : present_mean e' = w)
      by (unfold w, present_mean; by rewrite Hs).
    rewrite Hw, Hc. fold z. by repeat split.
Qed.

Lemma predictRiskTrend_consistent_witness :
  prediction (predictRiskTrend bare_enrollee) = "stable"
  ∧ recommendedTier (predictRiskTrend bare_enrollee) = 3%Z.
Proof.
  apply (predictRiskTrend_consistent bare_enrollee).
  - by apply Z2Qc_inj_lt.
  - simpl. lia.
Defined.

(** X3. The assessment mapper's tier thresholds: a total score up to 11
    gives tier 1, above 11 and up to 31 tier 2, above 31 tier 3; a score
    that is not a number gives tier 3.  No range check is made, so the
    tier is monotone over all scores. *)
Theorem calculateRiskTier_thresholds (q q' : Qc) :
  ((q ≤ Qc_of_Z 11)%Qc → calculateRiskTier (Finite q) = 1%Z)
  ∧ ((Qc_of_Z 11 < q)%Qc → (q ≤ Qc_of_Z 31)%Qc →
     calculateRiskTier (Finite q) = 2%Z)
  ∧ ((Qc_of_Z 31 < q)%Qc → calculateRiskTier (Finite q) = 3%Z)
  ∧ calculateRiskTier NaN = 3%Z
  ∧ ((q ≤ q')%Qc →
     (calculateRiskTier (Finite q) ≤ calculateRiskTier (Finite q'))%Z).
Proof.
  unfold calculateRiskTier, js_le, of_Z, Qcle, Qclt.
  repeat split; try done; intros;
    repeat case_bool_decide; try done; try lia;
    unfold Qcle, Qclt in *; simpl in *; unfold inject_Z in *; lra.
Qed.

Lemma calculateRiskTier_thresholds_witness :
  calculateRiskTier (of_Z 11) = 1%Z
  ∧ calculateRiskTier (of_Z 12) = 2%Z
  ∧ calculateRiskTier (of_Z 32) = 3%Z
  ∧ (calculateRiskTier (of_Z 12) ≤ calculateRiskTier (of_Z 32))%Z.
Proof.
  destruct (calculateRiskTier_thresholds (Qc_of_Z 11) (Qc_of_Z 11))
    as (H1 & _).
  destruct (calculateRiskTier_thresholds (Qc_of_Z 12) (Qc_of_Z 32))
    as (_ & H2 & _ & _ & H5).
  destruct (calculateRiskTier_thresholds (Qc_of_Z 32) (Qc_of_Z 32))
    as (_ & _ & H3 & _).
  split; [|split; [|split]].
  - apply H1. by apply Z2Qc_inj_le.
  - apply H2; [by apply Z2Qc_inj_lt|by apply Z2Qc_inj_le].
  - apply H3. by apply Z2Qc_inj_lt.
  - apply H5. by apply Z2Qc_inj_le.
Defined.

(** X4. The colour label and the wellness level agree on every score,
    including one that is not a number (High Risk).  For the rounded
    per-subject score of the application shell, the level is Good exactly
    when the 8 dimensions (0 for a missing one) total at least 556, and
    High Risk exactly when they total less than 316. *)
Theorem wellness_level_thresholds (score : number) (e : Enrollee) :
  label (getWellnessColor score) = getWellnessLevel score
  ∧ getWellnessLevel NaN = "High Risk"
  ∧ (getWellnessLevel (calculateWellnessScore (Some e)) = "Good"
     ↔ (556 ≤ dimension_total e)%Z)
  ∧ (getWellnessLevel (calculateWellnessScore (Some e)) = "High Risk"
     ↔ (dimension_total e < 316)%Z).
Proof.
  split; [|split; [done|]].
  - unfold getWellnessColor, getWellnessLevel.
    by repeat destruct (js_ge _ _).
  - rewrite calculateWellnessScore_spec, per_subject_wellness_spec_Z.
    rewrite getWellnessLevel_of_Z.
    split; repeat case_bool_decide; split; intros; try done;
      first [ Z.to_euclidean_division_equations; lia
            | exfalso; Z.to_euclidean_division_equations; lia ].
Qed.

(* ===================================================================== *)
(** * Frequency tables *)
(* ===================================================================== *)

Section Frequencies.

Implicit Types (counts : gmap string counter) (key : string)
               (keys : list string).

Lemma tallied_empty : tallied ∅.
Proof. intros key c. by rewrite lookup_empty. Qed.

Lemma tallied_plain counts key :
  tallied counts → key ∉ Object_prototype_members →
  counts !! key = None ∨ ∃ n, counts !! key = Some (Count n) ∧ (0 < n)%nat.
Proof.
  intros Hw Hk. destruct (counts !! key) as [c|] eqn:E; [right|by left].
  specialize (Hw key c E). rewrite bool_decide_eq_false_2 in Hw by done.
  destruct Hw as (n & -> & Hn). by exists n.
Qed.

Lemma tallied_inherited counts key :
  tallied counts → key ∈ Object_prototype_members →
  counts !! key = None ∨ (counts !! key = Some Text ∧ key ≠ "__proto__").
Proof.
  intros Hw Hk. destruct (counts !! key) as [c|] eqn:E; [right|by left].
  specialize (Hw key c E). rewrite bool_decide_eq_true_2 in Hw by done.
  by destruct Hw as [-> ?].
Qed.

(** The effect of one [bump]. *)
Lemma bump_plain counts key :
  tallied counts → key ∉ Object_prototype_members →
  bump key counts
  = <[key := Count (S (default 0%nat (count_of <$> counts !! key)))]> counts.
Proof.
  intros Hw Hk. unfold bump, get_property.
  destruct (tallied_plain counts key Hw Hk) as [E|(n & E & _)]; rewrite E.
  - by rewrite bool_decide_eq_false_2.
  - done.
Qed.

Lemma bump_inherited counts key :
  tallied counts → key ∈ Object_prototype_members →
  bump key counts
  = if bool_decide (key = "__proto__") then counts
    else <[key := Text]> counts.
Proof.
  intros Hw Hk. unfold bump, get_property.
  destruct (tallied_inherited counts key Hw Hk) as [E|[E Hne]]; rewrite E.
  - by rewrite bool_decide_eq_true_2.
  - by rewrite bool_decide_eq_false_2.
Qed.

Lemma bump_tallied counts key : tallied counts → tallied (bump key counts).
Proof.
  intros Hw. destruct (decide (key ∈ Object_prototype_members)) as [Hk|Hk].
  - rewrite bump_inherited by done. case_bool_decide as Hp; [done|].
    intros k c. rewrite lookup_insert. case_decide as Hkk; [|apply Hw].
    subst k. intros [= <-]. by rewrite bool_decide_eq_true_2.
  - rewrite bump_plain by done.
    intros k c. rewrite lookup_insert. case_decide as Hkk; [|apply Hw].
    subst k. intros [= <-]. rewrite bool_decide_eq_false_2 by done.
    eexists. split; [done|lia].
Qed.

Lemma bump_lookup_ne counts key key' :
  key ≠ key' → bump key counts !! key' = counts !! key'.
Proof.
  intros Hne. unfold bump.
  destruct (get_property counts key) as [[n|]| |];
    try case_bool_decide; try done; by rewrite lookup_insert_ne.
Qed.

Lemma count_total_insert_fresh counts key c :
  counts !! key = None →
  count_total (<[key := c]> counts) = (count_of c + count_total counts)%nat.
Proof.
  intros Hk. unfold count_total.
  rewrite map_fold_insert_L; [done| |done]. intros; lia.
Qed.

Lemma count_total_insert counts key c :
  (count_total (<[key := c]> counts)
   + default 0 (count_of <$> counts !! key)
   = count_of c + count_total counts)%nat.
Proof.
  destruct (counts !! key) as [c0|] eqn:Hk; simpl.
  - rewrite <- (insert_delete_eq counts).
    rewrite count_total_insert_fresh by apply lookup_delete_eq.
    rewrite <- (insert_delete_id counts key c0 Hk) at 2.
    rewrite count_total_insert_fresh by apply lookup_delete_eq. lia.
  - rewrite count_total_insert_fresh by done. lia.
Qed.

Lemma count_total_bump counts key :
  tallied counts →
  count_total (bump key counts)
  = (count_total counts
     + if bool_decide (key ∈ Object_prototype_members) then 0 else 1)%nat.
Proof.
  intros Hw. case_bool_decide as Hk.
  - rewrite bump_inherited by done. case_bool_decide; [lia|].
    pose proof (count_total_insert counts key Text) as Hins.
    destruct (tallied_inherited counts key Hw Hk) as [E|[E _]];
      rewrite E in Hins; simpl in Hins; lia.
  - rewrite bump_plain by done.
    pose proof (count_total_insert counts key
                  (Count (S (default 0%nat (count_of <$> counts !! key)))))
      as Hins.
    simpl in Hins. lia.
Qed.

(** Counting a list of keys into a table. *)
Lemma tally_tallied {A} (f : A → string) (l : list A) counts :
  tallied counts → tallied (foldl (λ c x, bump (f x) c) counts l).
Proof.
  revert counts. induction l as [|x l IH]; intros counts Hw; [done|].
  cbn [foldl]. by apply IH, bump_tallied.
Qed.

Lemma tally_total {A} (f : A → string) (l : list A) counts :
  tallied counts →
  count_total (foldl (λ c x, bump (f x) c) counts l)
  = (count_total counts + length (plain_keys (f <$> l)))%nat.
Proof.
  revert counts. induction l as [|x l IH]; intros counts Hw.
  - simpl. lia.
  - cbn [foldl]. rewrite IH by by apply bump_tallied.
    rewrite count_total_bump by done.
    rewrite fmap_cons. unfold plain_keys. cbn [List.filter].
    case_bool_decide; cbn [negb length]; lia.
Qed.

Lemma tally_lookup_plain {A} (f : A → string) (l : list A) counts key :
  tallied counts → key ∉ Object_prototype_members →
  default 0%nat (count_of <$> foldl (λ c x, bump (f x) c) counts l !! key)
  = (default 0%nat (count_of <$> counts !! key)
     + occurrences key (f <$> l))%nat.
Proof.
  intros Hw Hk. revert counts Hw.
  induction l as [|x l IH]; intros counts Hw.
  - simpl. unfold occurrences. simpl. lia.
  - cbn [foldl]. rewrite IH by by apply bump_tallied.
    unfold occurrences. rewrite fmap_cons. cbn [List.filter].
    case_bool_decide as Hx; simpl.
    + rewrite Hx, bump_plain, lookup_insert_eq by done. simpl. lia.
    + rewrite bump_lookup_ne by done. lia.
Qed.

Lemma tally_lookup_inherited {A} (f : A → string) (l : list A) counts key :
  tallied counts → key ∈ Object_prototype_members →
  foldl (λ c x, bump (f x) c) counts l !! key
  = if bool_decide (key ∈ f <$> l) && negb (bool_decide (key = "__proto__"))
    then Some Text else counts !! key.
Proof.
  intros Hw Hk. revert counts Hw.
  induction l as [|x l IH]; intros counts Hw; [done|].
  cbn [foldl]. rewrite IH by by apply bump_tallied.
  rewrite fmap_cons.
  destruct (decide (key = f x)) as [->|Hx].
  - rewrite (bool_decide_eq_true_2 (f x ∈ f x :: _)) by by left.
    rewrite bump_inherited by done.
    destruct (decide (f x = "__proto__")) as [Hp|Hp].
    + rewrite !(bool_decide_eq_true_2 _ Hp). simpl.
      by rewrite andb_false_r.
    + rewrite !(bool_decide_eq_false_2 _ Hp). simpl.
      rewrite lookup_insert_eq, andb_true_r. by case_bool_decide.
  - rewrite bump_lookup_ne by done.
    rewrite (bool_decide_ext (key ∈ f x :: (f <$> l)) (key ∈ f <$> l));
      [done|].
    rewrite elem_of_cons. split; [by intros [?|?]|by right].
Qed.

Lemma occurrences_zero key keys : occurrences key keys = 0%nat ↔ key ∉ keys.
Proof.
  unfold occurrences. induction keys as [|k keys IH]; simpl.
  - split; [intros _; apply not_elem_of_nil|done].
  - rewrite not_elem_of_cons. case_bool_decide; simpl.
    + split; [done|]. intros [Hne _]. by subst.
    + rewrite IH. split; [by split|by intros [_ ?]].
Qed.

Lemma plain_keys_all keys :
  Forall (λ k, k ∉ Object_prototype_members) keys → plain_keys keys = keys.
Proof.
  induction 1 as [|k keys Hk _ IH]; [done|].
  unfold plain_keys. cbn [List.filter].
  rewrite (bool_decide_eq_false_2 _ Hk). simpl. f_equal. exact IH.
Qed.

(** A table tallied from scratch.  A plain key is mapped to its number
    of occurrences (and is absent when it never occurs); the name of an
    inherited member is mapped to a text once it has occurred, except
    [__proto__], which never becomes a key; the counts add up to the
    number of items with a plain key. *)
Lemma tally_from_empty {A} (f : A → string) (l : list A) key :
  let counts := foldl (λ c x, bump (f x) c) (∅ : gmap string counter) l in
  (key ∉ Object_prototype_members →
   counts !! key
   = if (occurrences key (f <$> l) =? 0)%nat then None
     else Some (Count (occurrences key (f <$> l))))
  ∧ (key ∈ Object_prototype_members →
     counts !! key
     = if bool_decide (key ∈ f <$> l)
          && negb (bool_decide (key = "__proto__"))
       then Some Text else None)
  ∧ count_total counts = length (plain_keys (f <$> l))
  ∧ (Forall (λ k, k ∉ Object_prototype_members) (f <$> l) →
     count_total counts = length l).
Proof.
  intros counts. subst counts.
  pose proof (tally_tallied f l ∅ tallied_empty) as Hw.
  assert (Ht : count_total (foldl (λ c x, bump (f x) c) ∅ l)
               = length (plain_keys (f <$> l))).
  { rewrite tally_total by apply tallied_empty.
    unfold count_total. by rewrite map_fold_empty. }
  split; [|split; [|split; [exact Ht|]]].
  - intros Hk.
    pose proof (tally_lookup_plain f l ∅ key tallied_empty Hk) as Hl.
    rewrite lookup_empty in Hl. simpl in Hl.
    destruct (tallied_plain _ key Hw Hk) as [E|(n & E & Hn)];
      rewrite E in Hl |- *; simpl in Hl; rewrite <- Hl.
    + done.
    + destruct n; [lia|done].
  - intros Hk. rewrite tally_lookup_inherited by (done || apply tallied_empty).
    by rewrite lookup_empty.
  - intros Hall. rewrite Ht, plain_keys_all by done. by rewrite length_fmap.
Qed.

End Frequencies.

Section Tallies.

Implicit Types (enrollees : list Enrollee) (referrals : list Referral).

Lemma tally_id (l : list string) (counts : gmap string counter) :
  foldl (λ c code, bump code c) counts l
  = foldl (λ c x, bump (id x) c) counts l.
Proof. reflexivity. Qed.

Lemma analyzeZCodes_fold enrollees (counts : gmap string counter)
      (total withCodes : nat) :
  foldl (λ '(counts, total, withCodes) enrollee,
           let zs := default [] (zCodes_of enrollee) in
           if (0 <? length zs)%nat
           then (foldl (λ c code, bump code c) counts zs,
                 (total + length zs)%nat, S withCodes)
           else (counts, total, withCodes))
        (counts, total, withCodes) enrollees
  = (foldl (λ c code, bump code c) counts (all_zCodes enrollees),
     (total + length (all_zCodes enrollees))%nat,
     (withCodes
      + length (List.filter
                  (λ e, (0 <? length (default [] (zCodes_of e)))%nat)
                  enrollees))%nat).
Proof.
  revert counts total withCodes.
  induction enrollees as [|e l IH]; intros counts total withCodes.
  - simpl. do 2 f_equal; lia.
  - cbn [foldl]. unfold all_zCodes. rewrite fmap_cons. cbn [concat List.filter].
    fold (all_zCodes l).
    destruct (default [] (zCodes_of e)) as [|code zs] eqn:Ez.
    + simpl. rewrite IH. do 2 f_equal.
    + cbn [length Nat.ltb Nat.leb]. rewrite IH.
      rewrite foldl_app, length_app. cbn [length].
      f_equal; [f_equal; lia|]. rewrite Nat.add_succ_comm. reflexivity.
Qed.

Lemma nonempty_lists_le_total enrollees :
  (length (List.filter (λ e, (0 <? length (default [] (zCodes_of e)))%nat)
                       enrollees)
   ≤ length (all_zCodes enrollees))%nat.
Proof.
  induction enrollees as [|e l IH]; [done|].
  unfold all_zCodes. rewrite fmap_cons. cbn [concat List.filter].
  fold (all_zCodes l). rewrite length_app.
  destruct (default [] (zCodes_of e)); simpl; lia.
Qed.

Lemma analyzeCareTeams_fold enrollees (total withTeams : nat)
      (counts : gmap string counter) :
  foldl (λ '(total, withTeams, counts) enrollee,
           let team := default [] (careTeam enrollee) in
           if (0 <? length team)%nat
           then ((total + length team)%nat, S withTeams,
                 foldl (λ c member,
                          bump (string_or (member_role member) "Unknown") c)
                       counts team)
           else (total, withTeams, counts))
        (total, withTeams, counts) enrollees
  = ((total + length (all_team_roles enrollees))%nat,
     (withTeams
      + length (List.filter
                  (λ e, (0 <? length (default [] (careTeam e)))%nat)
                  enrollees))%nat,
     foldl (λ c code, bump code c) counts (all_team_roles enrollees)).
Proof.
  revert total withTeams counts.
  induction enrollees as [|e l IH]; intros total withTeams counts.
  - simpl. do 2 f_equal; lia.
  - cbn [foldl]. unfold all_team_roles. rewrite fmap_cons.
    cbn [concat List.filter]. fold (all_team_roles l).
    destruct (default [] (careTeam e)) as [|member team] eqn:Et.
    + simpl. rewrite IH. do 2 f_equal.
    + cbn [length Nat.ltb Nat.leb]. rewrite IH.
      rewrite foldl_app, length_app, length_fmap. cbn [length].
      f_equal; [f_equal; [lia|rewrite Nat.add_succ_comm; reflexivity]|].
      f_equal. rewrite fmap_cons. cbn [foldl].
      generalize (bump (string_or (member_role member) "Unknown") counts).
      clear. induction team as [|m team IH]; intros c; [done|].
      rewrite fmap_cons. cbn [foldl]. apply IH.
Qed.

End Tallies.

(** X5. The Z-code analysis: the total is the number of Z-code entries
    over all subjects.  A code that does not bear the name of a member
    inherited from [Object.prototype] is mapped to its number of
    occurrences, and is absent from the table exactly when it never
    occurs.  A code bearing such a name is not counted: its entry is a
    text, and [__proto__] gets no entry at all.  So the counts add up to
    the number of entries with a plain code, which is the total when no
    code bears such a name.  The number of subjects with Z-codes exceeds
    neither the number of subjects nor the total. *)
Theorem analyzeZCodes_counts (enrollees : list Enrollee) (code : string) :
  let a := analyzeZCodes enrollees in
  let codes := all_zCodes enrollees in
  totalZCodes a = length codes
  ∧ (code ∉ Object_prototype_members →
     zCodeCounts a !! code
     = if (occurrences code codes =? 0)%nat then None
       else Some (Count (occurrences code codes)))
  ∧ (code ∈ Object_prototype_members →
     zCodeCounts a !! code
     = if bool_decide (code ∈ codes) && negb (bool_decide (code = "__proto__"))
       then Some Text else None)
  ∧ count_total (zCodeCounts a) = length (plain_keys codes)
  ∧ (Forall (λ c, c ∉ Object_prototype_members) codes →
     count_total (zCodeCounts a) = totalZCodes a)
  ∧ (enrolleesWithZCodes a ≤ length enrollees)%nat
  ∧ (enrolleesWithZCodes a ≤ totalZCodes a)%nat.
Proof.
  intros a codes. subst a codes. unfold analyzeZCodes.
  rewrite analyzeZCodes_fold.
  cbn [totalZCodes zCodeCounts enrolleesWithZCodes].
  rewrite tally_id.
  destruct (tally_from_empty id (all_zCodes enrollees) code)
    as (Hplain & Hinh & Htot & Hall).
  rewrite list_fmap_id in Hplain, Hinh, Htot, Hall.
  split; [done|]. split; [done|]. split; [done|]. split; [done|].
  split; [done|]. split.
  - simpl. apply List.filter_length_le.
  - simpl. apply nonempty_lists_le_total.
Qed.

(** X6. The care-team analysis: the total is the number of team members
    over all subjects, a member without a role being labelled Unknown.
    A role label that does not bear the name of a member inherited from
    [Object.prototype] is mapped to the number of members carrying it; a
    label bearing such a name is not counted (its entry is a text, and
    [__proto__] gets no entry); so the counts add up to the number of
    members with a plain label, which is the total when no label bears
    such a name. *)
Theorem analyzeCareTeams_counts (enrollees : list Enrollee) (r : string) :
  let a := analyzeCareTeams enrollees in
  let labels := all_team_roles enrollees in
  totalTeamMembers a = length labels
  ∧ (r ∉ Object_prototype_members →
     roleCounts a !! r
     = if (occurrences r labels =? 0)%nat then None
       else Some (Count (occurrences r labels)))
  ∧ (r ∈ Object_prototype_members →
     roleCounts a !! r
     = if bool_decide (r ∈ labels) && negb (bool_decide (r = "__proto__"))
       then Some Text else None)
  ∧ count_total (roleCounts a) = length (plain_keys labels)
  ∧ (Forall (λ c, c ∉ Object_prototype_members) labels →
     count_total (roleCounts a) = totalTeamMembers a)
  ∧ (enrolleesWithTeams a ≤ length enrollees)%nat.
Proof.
  intros a labels. subst a labels. unfold analyzeCareTeams.
  rewrite analyzeCareTeams_fold.
  cbn [totalTeamMembers roleCounts enrolleesWithTeams].
  rewrite tally_id.
  destruct (tally_from_empty id (all_team_roles enrollees) r)
    as (Hplain & Hinh & Htot & Hall).
  rewrite list_fmap_id in Hplain, Hinh, Htot, Hall.
  split; [done|]. split; [done|]. split; [done|]. split; [done|].
  split; [done|].
  simpl. apply List.filter_length_le.
Qed.

(** X7. The per-resource referral counts, a referral without a resource
    name being counted under Unknown: a resource name that does not bear
    the name of a member inherited from [Object.prototype] is mapped to
    the number of referrals naming it, whatever their status; a name
    bearing such a name is not counted (its entry is a text, and
    [__proto__] gets no entry).  When no resource bears such a name the
    counts add up to the number of referrals, so they are never below
    the sum of the three status counts. *)
Theorem resourceCounts_cover (referrals : list Referral) (name : string) :
  let m := analyzeReferrals referrals in
  let names := (λ r, string_or (resourceName r) "Unknown") <$> referrals in
  (name ∉ Object_prototype_members →
   resourceCounts m !! name
   = if (occurrences name names =? 0)%nat then None
     else Some (Count (occurrences name names)))
  ∧ (name ∈ Object_prototype_members →
     resourceCounts m !! name
     = if bool_decide (name ∈ names) && negb (bool_decide (name = "__proto__"))
       then Some Text else None)
  ∧ count_total (resourceCounts m) = length (plain_keys names)
  ∧ (Forall (λ c, c ∉ Object_prototype_members) names →
     count_total (resourceCounts m) = length referrals
     ∧ (status_count m "Pending" + status_count m "Accepted"
        + status_count m "Rejected" ≤ count_total (resourceCounts m))%nat).
Proof.
  intros m names. subst m names.
  destruct (tally_from_empty
              (λ r, string_or (resourceName r) "Unknown") referrals name)
    as (Hplain & Hinh & Htot & Hall).
  split; [exact Hplain|]. split; [exact Hinh|]. split; [exact Htot|].
  intros Hnames. specialize (Hall Hnames). split; [exact Hall|].
  cbn [analyzeReferrals resourceCounts]. rewrite Hall.
  destruct (statusCounts_lookup referrals) as (HP & HA & HR).
  unfold status_count. rewrite HP, HA, HR. simpl.
  pose proof (status_counts_split referrals). lia.
Qed.

(* ===================================================================== *)
(** * Ranges of the wellness values *)
(* ===================================================================== *)

Section WellnessRanges.

Implicit Types (e : Enrollee) (scores : gmap string Z) (dims : list string).

Lemma zero_fill_sum scores dims :
  foldr Z.add 0%Z ((λ dim, default 0%Z (scores !! dim)) <$> dims)
  = foldr Z.add 0%Z (omap id ((λ dim, scores !! dim) <$> dims)).
Proof.
  induction dims as [|dim dims IH]; [done|].
  rewrite !fmap_cons. cbn [omap list_omap foldr].
  destruct (scores !! dim) as [v|]; simpl; rewrite IH; [done|lia].
Qed.

Lemma present_sum_range scores dims :
  (∀ dim v, scores !! dim = Some v → (0 ≤ v ≤ 100)%Z) →
  let vs := omap id ((λ dim, scores !! dim) <$> dims) in
  (0 ≤ foldr Z.add 0%Z vs ≤ 100 * Z.of_nat (length vs))%Z
  ∧ (length vs ≤ length dims)%nat.
Proof.
  intros Hr. induction dims as [|dim dims IH]; [simpl; lia|].
  rewrite fmap_cons. cbn [omap list_omap].
  destruct (scores !! dim) as [v|] eqn:E; simpl in *.
  - specialize (Hr dim v E). lia.
  - lia.
Qed.

Lemma present_sum_nonneg scores dims :
  (∀ dim v, scores !! dim = Some v → (0 ≤ v)%Z) →
  (0 ≤ foldr Z.add 0%Z (omap id ((λ dim, scores !! dim) <$> dims)))%Z.
Proof.
  intros Hr. induction dims as [|dim dims IH]; [done|].
  rewrite fmap_cons. cbn [omap list_omap].
  destruct (scores !! dim) as [v|] eqn:E; simpl in *; [|done].
  specialize (Hr dim v E). lia.
Qed.

Lemma present_length_le scores dims :
  (length (omap id ((λ dim, scores !! dim) <$> dims)) ≤ length dims)%nat.
Proof.
  induction dims as [|dim dims IH]; [done|].
  rewrite fmap_cons. cbn [omap list_omap].
  destruct (scores !! dim); simpl in *; lia.
Qed.

Lemma present_all scores dims :
  (∀ dim, dim ∈ dims → is_Some (scores !! dim)) →
  length (omap id ((λ dim, scores !! dim) <$> dims)) = length dims.
Proof.
  intros H. induction dims as [|dim dims IH]; [done|].
  rewrite fmap_cons. cbn [omap list_omap].
  destruct (H dim) as [v ->]; [set_solver|]. simpl. f_equal.
  apply IH. intros d Hd. apply H. set_solver.
Qed.

Lemma dimension_total_present e scores :
  wellnessScores_of e = Some scores →
  dimension_total e = foldr Z.add 0%Z (present_scores scores).
Proof.
  intros E. unfold dimension_total, present_scores.
  rewrite <- zero_fill_sum. f_equal. apply list_fmap_ext.
  intros _ dim _. by apply dimension_or_zero_scores.
Qed.

Lemma dimension_total_absent e :
  wellnessScores_of e = None → dimension_total e = 0%Z.
Proof.
  intros E. unfold dimension_total, dimensions.
  rewrite !fmap_cons, fmap_nil. cbn [foldr].
  by rewrite !(dimension_or_zero_none e).
Qed.

(** A ratio of integers lies between two integers when the numerator lies
    between their multiples of the denominator. *)
Lemma Qc_ratio_range (lo hi a k : Z) :
  (0 < k)%Z → (lo * k ≤ a ≤ hi * k)%Z →
  (Qc_of_Z lo ≤ Qc_of_Z a / Qc_of_Z k)%Qc
  ∧ (Qc_of_Z a / Qc_of_Z k ≤ Qc_of_Z hi)%Qc.
Proof.
  intros Hk [Hlo Hhi]. destruct k as [|p|p]; try lia.
  unfold Qcle. simpl. rewrite !Qred_correct.
  unfold Qle, Qmult, Qinv; simpl. split; lia.
Qed.

Lemma present_mean_ratio e scores :
  wellnessScores_of e = Some scores →
  (0 < length (present_scores scores))%nat →
  present_mean e
  = (Qc_of_Z (foldr Z.add 0%Z (present_scores scores))
     / Qc_of_Z (Z.of_nat (length (present_scores scores))))%Qc.
Proof.
  intros E Hk. unfold present_mean. rewrite E.
  apply Nat.ltb_lt in Hk. by rewrite Hk.
Qed.

Lemma present_mean_none e scores :
  wellnessScores_of e = Some scores →
  length (present_scores scores) = 0%nat →
  present_mean e = 0%Qc ∧ dimension_total e = 0%Z.
Proof.
  intros E Hk. split.
  - unfold present_mean. by rewrite E, Hk.
  - rewrite (dimension_total_present e scores E).
    by destruct (present_scores scores).
Qed.

Lemma add_scores_range scores dims (t : Z) (c : nat) :
  (∀ dim v, scores !! dim = Some v → (0 ≤ v ≤ 100)%Z) →
  (0 ≤ t ≤ 100 * Z.of_nat c)%Z →
  ∃ t' c',
    foldl (λ '(totalScore, scoreCount) dim,
             match scores !! dim with
             | Some score => (js_add totalScore (of_Z score), S scoreCount)
             | None => (totalScore, scoreCount)
             end) (of_Z t, c) dims = (of_Z t', c')
    ∧ (0 ≤ t' ≤ 100 * Z.of_nat c')%Z.
Proof.
  intros Hr. revert t c. induction dims as [|dim dims IH]; intros t c Ht.
  - by exists t, c.
  - cbn [foldl]. destruct (scores !! dim) as [score|] eqn:E.
    + rewrite js_add_of_Z. apply IH. specialize (Hr dim score E). lia.
    + by apply IH.
Qed.

Lemma wellness_totals_range (enrollees : list Enrollee) (t : Z) (c : nat) :
  Forall scores_in_range enrollees →
  (0 ≤ t ≤ 100 * Z.of_nat c)%Z →
  ∃ t' c',
    foldl (λ acc enrollee,
             match wellnessScores_of enrollee with
             | Some scores => add_scores scores acc
             | None => acc
             end) (of_Z t, c) enrollees = (of_Z t', c')
    ∧ (0 ≤ t' ≤ 100 * Z.of_nat c')%Z.
Proof.
  intros Hall. revert t c.
  induction Hall as [|e l He _ IH]; intros t c Ht.
  - by exists t, c.
  - cbn [foldl]. destruct (wellnessScores_of e) as [scores|] eqn:E.
    + destruct (add_scores_range scores dimensions t c) as (t1 & c1 & E1 & H1);
        [intros dim v; by apply He|done|].
      unfold add_scores. rewrite E1. by apply IH.
    + by apply IH.
Qed.

Lemma rounded_ratio_range (t c : Z) :
  (0 < c)%Z → (0 ≤ t ≤ 100 * c)%Z →
  (0 ≤ (2 * t + c) / (2 * c) ≤ 100)%Z.
Proof.
  intros Hc Ht. split.
  - apply Z.div_pos; lia.
  - apply Z.lt_succ_r, Z.div_lt_upper_bound; lia.
Qed.

(** Filling in zeros divides the same total by 8 instead of by the
    number of values present, which can only lower a non-negative mean. *)
Lemma zero_fill_lowers (t k : Z) :
  (0 ≤ t)%Z → (0 < k ≤ 8)%Z →
  ((2 * t + 8) / (2 * 8) ≤ (2 * t + k) / (2 * k))%Z.
Proof.
  intros Ht Hk. apply Z.div_le_lower_bound; [lia|].
  pose proof (Z.mul_div_le (2 * t + 8) (2 * 8) ltac:(lia)).
  pose proof (Z.div_pos (2 * t + 8) (2 * 8) ltac:(lia) ltac:(lia)).
  nia.
Qed.

End WellnessRanges.

Lemma uniform_scores_in_range (t : option tier_value) (v : Z) :
  (0 ≤ v ≤ 100)%Z → scores_in_range (enrollee_with t (uniform_scores v)).
Proof.
  intros Hv scores dim x [= <-] Hx.
  apply elem_of_list_to_map_2, list_elem_of_fmap in Hx as (d & [= _ ->] & _).
  exact Hv.
Qed.

(** X8. When every recorded wellness score lies within 0..100, so do the
    values derived from them: the population average, each subject's
    rounded score of the application shell, and each subject's mean of
    the present dimensions. *)
Theorem wellness_values_in_range (enrollees : list Enrollee) :
  Forall scores_in_range enrollees →
  (∃ avg : Z, calculateAverageWellness enrollees = of_Z avg
              ∧ (0 ≤ avg ≤ 100)%Z)
  ∧ ∀ e, e ∈ enrollees →
         (∃ v : Z, calculateWellnessScore (Some e) = of_Z v
                   ∧ (0 ≤ v ≤ 100)%Z)
         ∧ calculateEnrolleeWellness e = Finite (present_mean e)
         ∧ (0 ≤ present_mean e)%Qc ∧ (present_mean e ≤ Qc_of_Z 100)%Qc.
Proof.
  intros Hall. split.
  - unfold calculateAverageWellness.
    destruct (length enrollees =? 0)%nat; [exists 0%Z; split; [done|lia]|].
    destruct (wellness_totals_range enrollees 0 0 Hall ltac:(lia))
      as (t & c & E & Ht).
    unfold wellness_totals. rewrite E.
    destruct (0 <? c)%nat eqn:Hc; [|exists 0%Z; split; [done|lia]].
    apply Nat.ltb_lt in Hc. unfold of_Z at 1.
    rewrite js_div_of_nat by done. unfold Math_round.
    rewrite round_half_up_ratio by lia.
    eexists. split; [reflexivity|]. apply rounded_ratio_range; lia.
  - intros e Hin.
    assert (He : scores_in_range e).
    { rewrite Forall_forall in Hall. by apply Hall. }
    split; [|split; [apply calculateEnrolleeWellness_present_mean|]].
    + rewrite calculateWellnessScore_spec, per_subject_wellness_spec_Z.
      eexists. split; [reflexivity|].
      destruct (wellnessScores_of e) as [scores|] eqn:E.
      * rewrite (dimension_total_present e scores E).
        destruct (present_sum_range scores dimensions) as [Hs Hl];
          [intros dim v; by apply He|].
        fold (present_scores scores) in Hs, Hl. simpl in Hl.
        Z.to_euclidean_division_equations. lia.
      * rewrite (dimension_total_absent e E). done.
    + destruct (wellnessScores_of e) as [scores|] eqn:E.
      * destruct (present_sum_range scores dimensions) as [Hs Hl];
          [intros dim v; by apply He|].
        fold (present_scores scores) in Hs, Hl.
        destruct (length (present_scores scores)) as [|k] eqn:Ek.
        -- destruct (present_mean_none e scores E Ek) as [-> _].
           split; [done|]. rewrite <- Z2Qc_inj_0. by apply Z2Qc_inj_le.
        -- rewrite (present_mean_ratio e scores E) by lia. rewrite Ek.
           rewrite <- Z2Qc_inj_0. apply Qc_ratio_range; lia.
      * unfold present_mean. rewrite E.
        split; [done|]. rewrite <- Z2Qc_inj_0. by apply Z2Qc_inj_le.
Qed.

Lemma wellness_values_in_range_witness :
  ∃ avg : Z, calculateAverageWellness sample_population = of_Z avg
             ∧ (0 ≤ avg ≤ 100)%Z.
Proof.
  apply (wellness_values_in_range sample_population).
  repeat (apply List.Forall_cons; [apply uniform_scores_in_range; lia|]).
  apply List.Forall_nil.
Defined.

(** X9. The two per-subject helpers compared: when all 8 dimensions are
    recorded, the application shell's score is the analytics mean
    rounded; when some are missing and the recorded scores are not
    negative, the shell's zero-filled score is at most the rounded
    analytics mean. *)
Theorem shell_score_vs_analytics_mean (e : Enrollee) (scores : gmap string Z) :
  wellnessScores_of e = Some scores →
  ((∀ dim, dim ∈ dimensions → is_Some (scores !! dim)) →
   calculateWellnessScore (Some e)
   = Math_round (calculateEnrolleeWellness e))
  ∧ ((∀ dim v, scores !! dim = Some v → (0 ≤ v)%Z) →
     js_le (calculateWellnessScore (Some e))
           (Math_round (calculateEnrolleeWellness e)) = true).
Proof.
  intros E.
  rewrite calculateWellnessScore_spec, calculateEnrolleeWellness_present_mean.
  unfold Math_round, per_subject_wellness_spec.
  rewrite (dimension_total_present e scores E).
  split.
  - intros Hall. pose proof (present_all scores dimensions Hall) as Hlen.
    fold (present_scores scores) in Hlen.
    rewrite (present_mean_ratio e scores E) by (rewrite Hlen; simpl; lia).
    by rewrite Hlen.
  - intros Hpos. apply js_le_of_Z.
    pose proof (present_sum_nonneg scores dimensions Hpos) as Hs.
    pose proof (present_length_le scores dimensions) as Hl.
    fold (present_scores scores) in Hs.
    destruct (length (present_scores scores)) as [|k] eqn:Ek.
    + destruct (present_mean_none e scores E Ek) as [-> Ht].
      rewrite (dimension_total_present e scores E) in Ht. rewrite Ht.
      done.
    + rewrite (present_mean_ratio e scores E) by lia. rewrite Ek.
      rewrite !round_half_up_ratio by lia.
      apply zero_fill_lowers; [done|].
      fold (present_scores scores) in Hl. rewrite Ek in Hl. simpl in Hl. lia.
Qed.

Lemma shell_score_vs_analytics_mean_witness :
  calculateWellnessScore (Some (enrollee_with None (uniform_scores 65)))
  = Math_round
      (calculateEnrolleeWellness (enrollee_with None (uniform_scores 65))).
Proof.
  apply (shell_score_vs_analytics_mean
           (enrollee_with None (uniform_scores 65)) (uniform_scores 65));
    [reflexivity|].
  intros dim Hd.
  repeat (apply elem_of_cons in Hd as [->|Hd]; [by eexists|]).
  by apply elem_of_nil in Hd.
Defined.

(* ===================================================================== *)
(** * Cohorts and the risk-tier chart *)
(* ===================================================================== *)

Section Cohorts.

Implicit Types (e : Enrollee) (enrollees : list Enrollee).





Lemma four_buckets_split enrollees :
  (length (List.filter (tier_is 1) enrollees)
   + length (List.filter (tier_is 2) enrollees)
   + length (List.filter (tier_is 3) enrollees)
   + length (List.filter tier_falsy enrollees)
   + length (List.filter (λ e, negb (assessed e || tier_falsy e)) enrollees))%nat
  = length enrollees.
Proof.
  induction enrollees as [|e l IH]; [done|].
  assert (He : (Nat.b2n (tier_is 1 e) + Nat.b2n (tier_is 2 e)
                + Nat.b2n (tier_is 3 e) + Nat.b2n (tier_falsy e)
                + Nat.b2n (negb (assessed e || tier_falsy e)))%nat = 1%nat).
  { unfold assessed, tier_is, tier_falsy.
    destruct (tier_of e) as [[n|s]|]; try done.
    - repeat case_bool_decide; simpl; lia.
    - case_bool_decide; simpl; lia. }
  cbn [List.filter].
  set (other := negb (assessed e || tier_falsy e)) in *. clearbody other.
  destruct (tier_is 1 e), (tier_is 2 e), (tier_is 3 e), (tier_falsy e),
           other; simpl in *; lia.
Qed.

Lemma filter_none_iff {A} (p : A → bool) (l : list A) :
  length (List.filter p l) = 0%nat ↔ Forall (λ x, p x = false) l.
Proof.
  induction l as [|x l IH]; [by split|].
  cbn [List.filter]. rewrite Forall_cons. destruct (p x); simpl.
  - split; [lia|]. by intros [? _].
  - rewrite IH. split; [by split|by intros [_ ?]].
Qed.

Lemma filter_member_length {A} (p : A → bool) (l : list A) (x : A) :
  x ∈ l → p x = true → (0 < length (List.filter p l))%nat.
Proof.
  intros Hin Hp.
  assert (H : x ∈ List.filter p l).
  { apply list_elem_of_In, filter_In. split; [|done].
    by apply list_elem_of_In. }
  destruct (List.filter p l); [by apply elem_of_nil in H|simpl; lia].
Qed.

Lemma filter_sublist {A} (p : A → bool) (l : list A) :
  sublist (List.filter p l) l.
Proof.
  induction l as [|x l IH]; [constructor|].
  cbn [List.filter]. destruct (p x); by constructor.
Qed.

Lemma filter_implies_length {A} (p q : A → bool) (l : list A) :
  (∀ x, p x = true → q x = true) →
  (length (List.filter p l) ≤ length (List.filter q l))%nat.
Proof.
  intros H. induction l as [|x l IH]; [done|].
  cbn [List.filter]. destruct (p x) eqn:Hp.
  - rewrite (H x Hp). simpl. lia.
  - destruct (q x); simpl; lia.
Qed.

Lemma filter_complement_length {A} (p : A → bool) (l : list A) :
  (length (List.filter p l) + length (List.filter (λ x, negb (p x)) l))%nat
  = length l.
Proof.
  induction l as [|x l IH]; [done|].
  cbn [List.filter]. destruct (p x); simpl; lia.
Qed.

Lemma without_zCodes_no_prefix prefix e :
  without_zCodes e = true → has_code_with_prefix prefix e = false.
Proof.
  unfold without_zCodes, has_code_with_prefix.
  destruct (zCodes_of e) as [[|code codes]|]; done.
Qed.

End Cohorts.


(** X11. The four buckets of the risk-tier chart (tiers 1, 2, 3 and Not
    Assessed) never count a subject twice, so they add up to at most the
    number of subjects; they add up to exactly that number when every
    tier is 1, 2, 3, absent, 0 or empty, and to less as soon as one
    subject carries another tier value, such as the label unassessed. *)
Theorem chart_buckets (enrollees : list Enrollee) :
  let c := tierCounts enrollees in
  let shown := (chart_tier1 c + chart_tier2 c + chart_tier3 c + noTier c)%nat in
  (shown ≤ length enrollees)%nat
  ∧ (shown = length enrollees
     ↔ Forall (λ e, assessed e || tier_falsy e = true) enrollees)
  ∧ (∀ e, e ∈ enrollees → tier_of e = Some (TierLabel "unassessed") →
          (shown < length enrollees)%nat).
Proof.
  intros c shown. subst shown c. cbn [tierCounts chart_tier1 chart_tier2
                                      chart_tier3 noTier].
  pose proof (four_buckets_split enrollees) as Hsplit.
  split; [lia|]. split.
  - split.
    + intros Heq.
      assert (H0 : length (List.filter
                             (λ e, negb (assessed e || tier_falsy e))
                             enrollees) = 0%nat) by lia.
      apply filter_none_iff in H0.
      eapply Forall_impl; [exact H0|]. simpl. intros e He.
      by apply negb_false_iff in He.
    + intros Hall.
      assert (H0 : length (List.filter
                             (λ e, negb (assessed e || tier_falsy e))
                             enrollees) = 0%nat).
      { apply filter_none_iff. eapply Forall_impl; [exact Hall|].
        simpl. intros e He. by rewrite He. }
      lia.
  - intros e Hin Ht.
    assert (Hother : negb (assessed e || tier_falsy e) = true).
    { unfold assessed, tier_is, tier_falsy. by rewrite Ht. }
    pose proof (filter_member_length
                  (λ e, negb (assessed e || tier_falsy e))
                  enrollees e Hin Hother).
    lia.
Qed.

Lemma chart_buckets_witness :
  (chart_tier1 (tierCounts [enrollee_with (Some (TierLabel "unassessed"))
                                          (uniform_scores 70)])
   + chart_tier2 (tierCounts [enrollee_with (Some (TierLabel "unassessed"))
                                            (uniform_scores 70)])
   + chart_tier3 (tierCounts [enrollee_with (Some (TierLabel "unassessed"))
                                            (uniform_scores 70)])
   + noTier (tierCounts [enrollee_with (Some (TierLabel "unassessed"))
                                       (uniform_scores 70)]) < 1)%nat.
Proof.
  destruct (chart_buckets
              [enrollee_with (Some (TierLabel "unassessed"))
                             (uniform_scores 70)]) as (_ & _ & H).
  apply (H (enrollee_with (Some (TierLabel "unassessed")) (uniform_scores 70))).
  - repeat constructor.
  - reflexivity.
Defined.

(** X12. The Z-code cohorts: an enrollee in the No Z-Codes category is in
    none of the three prefix categories, so each prefix category together
    with No Z-Codes holds at most all enrollees; every category keeps the
    order of the enrollee list; the prefix categories can overlap, so the
    four counts can add up to more than the number of enrollees. *)
Theorem zCode_categories_shape (enrollees : list Enrollee) :
  fst <$> zCode_categories enrollees
  = ["Housing Insecurity"; "Employment Issues"; "Educational Problems";
     "No Z-Codes"]
  ∧ Forall (λ category, sublist (snd category) enrollees)
           (zCode_categories enrollees)
  ∧ (∀ e prefix, without_zCodes e = true →
                 has_code_with_prefix prefix e = false)
  ∧ Forall (λ category,
              fst category ≠ "No Z-Codes" →
              (length (snd category)
               + length (List.filter without_zCodes enrollees)
               ≤ length enrollees)%nat)
           (zCode_categories enrollees)
  ∧ (∃ es, (length es
            < foldr (λ category n, (length (snd category) + n)%nat) 0%nat
                    (zCode_categories es))%nat).
Proof.
  split; [done|]. split; [|split; [|split]].
  - unfold zCode_categories.
    repeat (apply List.Forall_cons; [apply filter_sublist|]).
    apply List.Forall_nil.
  - intros e prefix. apply without_zCodes_no_prefix.
  - unfold zCode_categories.
    pose proof (filter_complement_length without_zCodes enrollees) as Hc.
    repeat (apply List.Forall_cons;
            [ intros _; cbn [snd];
              match goal with
              | |- context [List.filter (has_code_with_prefix ?p) _] =>
                  pose proof (filter_implies_length
                                (has_code_with_prefix p)
                                (λ x, negb (without_zCodes x)) enrollees) as Hle
              end;
              lapply Hle;
              [lia
              |intros x Hx; apply negb_true_iff;
               destruct (without_zCodes x) eqn:Hw; [|done];
               by rewrite (without_zCodes_no_prefix _ x Hw) in Hx] |]).
    apply List.Forall_cons; [by intros []|]. apply List.Forall_nil.
  - exists [enrollee_with_codes ["Z59.0"; "Z56.0"]]. compute_done.
Qed.

(* ===================================================================== *)
(** * Resource filtering and navigation *)
(* ===================================================================== *)

Section Filtering.

Implicit Types (e : Enrollee) (res : Resource) (resources : list Resource).

Lemma isEligible_monotone e e' res :
  (∀ code, code ∈ default [] (zCodes_of e) →
           code ∈ default [] (zCodes_of e')) →
  isEligible e res = true → isEligible e' res = true.
Proof.
  intros Hsub. rewrite !isEligible_codes.
  destruct (resource_codes res) as [|c cs]; [done|].
  rewrite !existsb_exists. intros (code & Hin & Hm).
  exists code. split; [done|].
  apply bool_decide_eq_true. apply Hsub. by apply bool_decide_eq_true in Hm.
Qed.

Lemma isEligible_no_codes e res :
  default [] (zCodes_of e) = [] →
  isEligible e res = bool_decide (resource_codes res = []).
Proof.
  intros He. rewrite isEligible_codes, He.
  destruct (resource_codes res) as [|c cs] eqn:E; [done|].
  rewrite bool_decide_eq_false_2 by done.
  apply not_true_iff_false. rewrite existsb_exists.
  intros (code & _ & Hm). apply bool_decide_eq_true in Hm.
  by apply elem_of_nil in Hm.
Qed.

Lemma filter_elem_of {A} (p : A → bool) (l : list A) (x : A) :
  x ∈ List.filter p l ↔ x ∈ l ∧ p x = true.
Proof. rewrite !list_elem_of_In. apply filter_In. Qed.

End Filtering.

(** X13. The resource list shown for a selected subject is the full list
    with some entries removed, in the same order; without a selection it
    is the full list.  A resource without code restriction is never
    removed; for a subject without Z-codes exactly the unrestricted
    resources remain; and a subject with more Z-codes never sees fewer
    resources. *)
Theorem filteredResources_shape (resources : list Resource) (e e' : Enrollee) :
  filteredResources None resources = resources
  ∧ sublist (filteredResources (Some e) resources) resources
  ∧ (∀ res, res ∈ resources → resource_codes res = [] →
            res ∈ filteredResources (Some e) resources)
  ∧ (default [] (zCodes_of e) = [] →
     filteredResources (Some e) resources
     = List.filter (λ res, bool_decide (resource_codes res = [])) resources)
  ∧ ((∀ code, code ∈ default [] (zCodes_of e) →
              code ∈ default [] (zCodes_of e')) →
     ∀ res, res ∈ filteredResources (Some e) resources →
            res ∈ filteredResources (Some e') resources).
Proof.
  split; [done|]. split; [apply filter_sublist|]. split; [|split].
  - intros res Hin Hc. apply filter_elem_of. split; [done|].
    by rewrite isEligible_codes, Hc.
  - intros He. apply List.filter_ext. intros res.
    by apply isEligible_no_codes.
  - intros Hsub res. cbn [filteredResources]. rewrite !filter_elem_of.
    intros [Hin Hel]. split; [done|].
    by apply (isEligible_monotone e e').
Qed.

Lemma filteredResources_shape_witness :
  {| resource_name := "Pantry"; eligibilityCriteria := None |}
  ∈ filteredResources
      (Some bare_enrollee)
      [{| resource_name := "Shelter";
          eligibilityCriteria :=
            Some {| criteria_zCodes := Some ["Z59.0"]; income := None |} |};
       {| resource_name := "Pantry"; eligibilityCriteria := None |}].
Proof.
  destruct (filteredResources_shape
              [{| resource_name := "Shelter";
                  eligibilityCriteria :=
                    Some {| criteria_zCodes := Some ["Z59.0"];
                            income := None |} |};
               {| resource_name := "Pantry"; eligibilityCriteria := None |}]
              bare_enrollee bare_enrollee) as (_ & _ & H & _).
  apply H.
  - repeat constructor.
  - reflexivity.
Defined.

Section Navigation.

Implicit Types (userRole : option string) (r a : string) (s : Shell).

(** Only the three roles occur in the permission table. *)
Lemma PERMISSIONS_roles :
  map_Forall (λ _ roles, Forall (λ r, r ∈ ROLES) roles) PERMISSIONS.
Proof. compute_done. Qed.

Lemma hasPermission_role r a :
  hasPermission (Some r) a = Normal true → r ∈ ROLES.
Proof.
  rewrite hasPermission_granted. intros (roles & E & Hin).
  pose proof (PERMISSIONS_roles a roles E) as Hall.
  rewrite Forall_forall in Hall. by apply Hall.
Qed.

(** A role outside the three is refused every action of the table. *)
Lemma hasPermission_other userRole a :
  userRole ≠ Some ROLES_ADMIN → userRole ≠ Some ROLES_PARTNER →
  userRole ≠ Some ROLES_ENROLLMENT_MANAGER →
  is_Some (PERMISSIONS !! a) →
  hasPermission userRole a = Normal false.
Proof.
  intros HA HP HE [roles E]. destruct userRole as [r|]; [|done].
  rewrite (hasPermission_defined a r roles E). f_equal.
  apply bool_decide_eq_false_2. intros Hin.
  assert (H : r ∈ ROLES).
  { apply (hasPermission_role r a). rewrite (hasPermission_defined a r roles E).
    by rewrite bool_decide_eq_true_2. }
  unfold ROLES in H.
  repeat (apply elem_of_cons in H as [->|H]; [done|]).
  by apply elem_of_nil in H.
Qed.

(** After three commits nothing is left to do. *)
Lemma settle_stable s : run_effects (settle s) = settle s.
Proof.
  destruct s as [d u r l h c].
  unfold settle, run_effects, usePermissions_effect, AppContent_effect.
  cbn [db user userRole permissionsLoading hasSetInitialPage currentPage].
  destruct (decide (c = "dashboard")) as [->|Hc].
  - by destruct d, l, h, (truthy_string u), (isAdmin r), (isPartner r).
  - apply (bool_decide_eq_false_2 _) in Hc.
    destruct d, l, h, (truthy_string u);
      repeat (progress (cbn [negb orb andb fst snd]; rewrite ?Hc));
      reflexivity.
Qed.

(** Once the initial page has been set, the effects do nothing. *)
Lemma settle_landed s :
  hasSetInitialPage s = true → permissionsLoading s = false → settle s = s.
Proof.
  destruct s as [d u r l h c]. simpl. intros -> ->.
  unfold settle, run_effects, usePermissions_effect, AppContent_effect.
  cbn [db user userRole permissionsLoading hasSetInitialPage currentPage].
  by destruct d, (truthy_string u).
Qed.

(** Mounting sets the initial page before any role is known. *)
Lemma mount_landed :
  mount = {| db := true; user := None; userRole := None;
             permissionsLoading := false; hasSetInitialPage := true;
             currentPage := "dashboard" |}.
Proof. reflexivity. Qed.

Lemma shell_step_landed s ev s' :
  hasSetInitialPage s = true → permissionsLoading s = false →
  shell_step s ev = Some s' →
  hasSetInitialPage s' = true ∧ permissionsLoading s' = false
  ∧ (is_Navigate ev = false → currentPage s' = currentPage s).
Proof.
  intros Hh Hl Hstep. destruct ev as [uid|profileSnap|page]; simpl in Hstep.
  - injection Hstep as <-. by rewrite settle_landed.
  - destruct (db s && truthy_string (user s)); [|done].
    injection Hstep as <-. by rewrite settle_landed.
  - injection Hstep as <-. by rewrite settle_landed.
Qed.

Lemma shell_exec_landed evs : ∀ s s',
  hasSetInitialPage s = true → permissionsLoading s = false →
  Forall (λ ev, is_Navigate ev = false) evs →
  shell_exec s evs = Some s' →
  hasSetInitialPage s' = true ∧ currentPage s' = currentPage s.
Proof.
  induction evs as [|ev evs IH]; intros s s' Hh Hl Hnav Hexec;
    simpl in Hexec.
  - by injection Hexec as <-.
  - destruct (shell_step s ev) as [s1|] eqn:Hstep; [|done].
    apply Forall_cons in Hnav as [Hev Hnav].
    destruct (shell_step_landed s ev s1 Hh Hl Hstep) as (Hh1 & Hl1 & Hc1).
    destruct (IH s1 s' Hh1 Hl1 Hnav Hexec) as [Hh' Hc'].
    split; [done|]. rewrite Hc'. by apply Hc1.
Qed.

End Navigation.

(** X14. What the sidebar offers: an Admin gets the nine admin entries, a
    Partner the three partner entries, an Enrollment Manager the manager
    entries except Load Sample Data, and anyone else, the default role CPC
    or a role not yet loaded included, only the dashboard; building the
    list never throws.  Every entry offered leads to an explicit case of
    [ContentArea], and a page name outside the cases falls back to the
    dashboard page.  The effect of [AppContent] that would send an Admin
    to the admin portal and a Partner to the partner dashboard runs out
    at mount, when [usePermissions] has cleared [loading] for want of a
    database handle and no role is known yet: whatever is signed in and
    loaded later, until the user navigates the page stays ['dashboard'],
    which for a Partner is not among the entries of the sidebar. *)
Theorem navItems_by_role (role : option string) :
  (∃ items,
     navItems role = Normal items
     ∧ nav_id <$> items
       = (if bool_decide (role = Some "Admin")
          then ["admin-portal"; "dashboard"; "enrollees"; "resources";
                "referrals"; "create"; "provider-dashboard";
                "referral-inbox"; "load-data"]
          else if bool_decide (role = Some "Partner")
          then ["provider-dashboard"; "referral-inbox"; "resources"]
          else if bool_decide (role = Some "Enrollment Manager")
          then ["dashboard"; "enrollees"; "resources"; "referrals"; "create"]
          else ["dashboard"])
     ∧ Forall (λ item, nav_id item ∈ routed_pages) items)
  ∧ (∀ page, page ∉ routed_pages → ContentArea page = "DashboardPage")
  ∧ (∀ (evs : list ShellEvent) (s : Shell),
       Forall (λ ev, is_Navigate ev = false) evs →
       shell_exec mount evs = Some s →
       hasSetInitialPage s = true ∧ currentPage s = "dashboard")
  ∧ (∃ s : Shell,
       shell_exec mount
         [SignedIn "u2"; ProfileSnapshot (Some {| role := Some "Partner" |})]
       = Some s
       ∧ isPartner (userRole s) = true
       ∧ ∃ items, navItems (userRole s) = Normal items
                  ∧ currentPage s ∉ nav_id <$> items).
Proof.
  assert (Hitems : ∃ items,
    navItems role = Normal items
    ∧ nav_id <$> items
      = (if bool_decide (role = Some "Admin")
         then ["admin-portal"; "dashboard"; "enrollees"; "resources";
               "referrals"; "create"; "provider-dashboard";
               "referral-inbox"; "load-data"]
         else if bool_decide (role = Some "Partner")
         then ["provider-dashboard"; "referral-inbox"; "resources"]
         else if bool_decide (role = Some "Enrollment Manager")
         then ["dashboard"; "enrollees"; "resources"; "referrals"; "create"]
         else ["dashboard"])).
  { unfold navItems, isAdmin, isPartner, ROLES_ADMIN, ROLES_PARTNER.
    case_bool_decide as HA; [by eexists|].
    case_bool_decide as HP; [by eexists|].
    case_bool_decide as HE; [subst; by eexists|].
    unfold enrollmentManagerNavItems.
    cbn [filter_completion nav_permission truthy_string negb].
    rewrite !(hasPermission_other role _ HA HP HE) by (by eexists).
    by eexists. }
  destruct Hitems as (items & Hnav & Hids).
  split; [|split; [|split]].
  - exists items. split; [done|]. split; [done|].
    apply Forall_forall. intros item Hin.
    apply (list_elem_of_fmap_2 nav_id) in Hin. rewrite Hids in Hin.
    unfold routed_pages.
    repeat case_bool_decide;
      repeat (apply elem_of_cons in Hin as [->|Hin]; [compute_done|]);
      by apply elem_of_nil in Hin.
  - intros page Hp. unfold routed_pages in Hp. unfold ContentArea.
    repeat (rewrite bool_decide_eq_false_2;
            [|intros ->; apply Hp; compute_done]).
    done.
  - intros evs s Hnavigate Hexec.
    by apply (shell_exec_landed evs mount s).
  - eexists. split; [reflexivity|]. split; [reflexivity|].
    eexists. split; [reflexivity|]. compute_done.
Qed.

(* ===================================================================== *)
(** * Assessment mapper *)
(* ===================================================================== *)

Section Mapper.

Implicit Types (a : Assessment) (v : Z).

Lemma round_half_up_eq (x : Qc) (n : Z) (p : positive) :
  (this x == n # p)%Q →
  round_half_up x = ((2 * n + Z.pos p) / (2 * Z.pos p))%Z.
Proof.
  intros H. unfold round_half_up.
  assert (E : (this (x + Q2Qc (1 # 2))%Qc == (2 * n + Z.pos p) # (2 * p))%Q).
  { simpl. rewrite !Qred_correct, H. unfold Qeq, Qplus; simpl. lia. }
  rewrite (Qfloor_comp _ _ E). reflexivity.
Qed.

Lemma js_div_pos (q : Qc) (k : Z) :
  (0 < k)%Z → js_div (Finite q) (of_Z k) = Finite (q / Qc_of_Z k)%Qc.
Proof.
  intros Hk. unfold of_Z, js_div.
  destruct (decide (Qc_of_Z k = 0%Qc)) as [E|_]; [|done].
  rewrite <- Z2Qc_inj_0 in E. apply Z2Qc_inj in E. lia.
Qed.

Lemma js_sub_of_Z (n m : Z) : js_sub (of_Z n) (of_Z m) = of_Z (n - m).
Proof. unfold js_sub, of_Z; simpl. by rewrite Z2Qc_inj_sub. Qed.

(** On the 0..100 scales the percentile mapping returns its input. *)
Lemma mapScoreToPercentile_percent v :
  mapScoreToPercentile (of_Z v) (of_Z 0) (of_Z 100) (of_Z 0) (of_Z 100)
  = of_Z v.
Proof.
  unfold mapScoreToPercentile.
  rewrite !js_sub_of_Z. change (100 - 0)%Z with 100%Z.
  unfold of_Z at 1. rewrite js_div_pos by lia.
  unfold of_Z at 1 2. cbn [js_mul js_add Math_round]. f_equal.
  rewrite (round_half_up_eq _ v 1).
  - Z.to_euclidean_division_equations. lia.
  - simpl. rewrite !Qred_correct. unfold Qeq, Qplus, Qmult, Qinv; simpl. lia.
Qed.

Lemma emotional_score (p g : Z) :
  Math_round
    (js_sub (of_Z 100)
       (js_mul (js_div (js_add (js_div (of_Z p) (of_Z 27))
                               (js_div (of_Z g) (of_Z 21)))
                       (of_Z 2))
               (of_Z 100)))
  = of_Z ((2 * (18900 - 350 * p - 450 * g) + 189) / 378).
Proof.
  unfold of_Z at 2 4. rewrite !js_div_pos by lia.
  cbn [js_add]. rewrite js_div_pos by lia.
  unfold of_Z at 2 3. cbn [js_mul].
  unfold js_sub, of_Z at 1. cbn [js_neg js_add Math_round]. f_equal.
  rewrite (round_half_up_eq _ (18900 - 350 * p - 450 * g) 189).
  - reflexivity.
  - simpl. rewrite !Qred_correct.
    unfold Qeq, Qplus, Qmult, Qinv, Qopp; simpl. lia.
Qed.

Lemma number_or_of_Z (o : option Z) (d : Z) :
  number_or o d
  = of_Z (match o with
          | Some z => if bool_decide (z = 0%Z) then d else z
          | None => d
          end).
Proof. destruct o as [z|]; simpl; [|done]. by case_bool_decide. Qed.

Lemma indicator_score_range (o : option Z) :
  (∀ v, o = Some v → (0 ≤ v ≤ 100)%Z) →
  ∃ v, mapScoreToPercentile (number_or o 50)
                            (of_Z 0) (of_Z 100) (of_Z 0) (of_Z 100)
       = of_Z v ∧ (0 ≤ v ≤ 100)%Z.
Proof.
  intros H. rewrite number_or_of_Z, mapScoreToPercentile_percent.
  eexists. split; [reflexivity|].
  destruct o as [z|]; [|lia]. specialize (H z eq_refl).
  case_bool_decide; lia.
Qed.

Lemma table_score_range (table : gmap string Z) (key : option string) :
  map_Forall (λ _ v, (0 ≤ v ≤ 100)%Z) table →
  plain_key key →
  ∃ v, map_or_50 table key = VNum (of_Z v) ∧ (0 ≤ v ≤ 100)%Z.
Proof.
  intros H Hkey. unfold map_or_50.
  destruct key as [k|]; [|exists 50%Z; split; [done|lia]].
  specialize (Hkey k eq_refl). unfold get_property.
  destruct (table !! k) as [z|] eqn:E.
  - rewrite number_or_of_Z. eexists. split; [reflexivity|].
    apply H in E. case_bool_decide; lia.
  - rewrite bool_decide_eq_false_2 by done. exists 50%Z. split; [done|lia].
Qed.

Lemma table_inherited (table : gmap string Z) (k : string) :
  table !! k = None → k ∈ Object_prototype_members →
  map_or_50 table (Some k) = VObject.
Proof.
  intros E Hk. unfold map_or_50. by rewrite get_property_inherited.
Qed.

Lemma elem_of_push_if x (c : bool) (code : string) (l : list string) :
  x ∈ push_if c code l ↔ x ∈ l ∨ (c = true ∧ x = code).
Proof.
  unfold push_if. destruct c.
  - rewrite elem_of_app, list_elem_of_singleton.
    split; [intros [?|?]; auto|intros [?|[_ ?]]; auto].
  - split; [auto|intros [?|[? _]]; done].
Qed.

End Mapper.

(** X15. The wellness scores computed from an assessment always have
    exactly the 8 dimension keys, and the five scores computed by
    arithmetic are integers.  The three scores read from a table are
    integers too unless the education level, employment status or
    housing status bears the name of a member inherited from
    [Object.prototype]: then the score is that member, not a number.
    When no status bears such a name and the numeric inputs lie within
    their documented scales, every score lies within 0..100.  An
    indicator score of 0 is treated like a missing one and yields 50. *)
Theorem calculateWellnessScores_range (a : Assessment) :
  dom (calculateWellnessScores a) = list_to_set dimensions
  ∧ (∀ dim, dim ∈ ["physical"; "emotional"; "social"; "financial";
                    "spiritual"] →
            ∃ v, calculateWellnessScores a !! dim = Some (VNum (of_Z v)))
  ∧ (plain_key (education_level a) → plain_key (employment_status a) →
     plain_key (housing_status a) →
     (∀ dim, dim ∈ dimensions →
             ∃ v, calculateWellnessScores a !! dim = Some (VNum (of_Z v)))
     ∧ (assessment_in_range a →
        ∀ dim, dim ∈ dimensions →
               ∃ v, calculateWellnessScores a !! dim = Some (VNum (of_Z v))
                    ∧ (0 ≤ v ≤ 100)%Z))
  ∧ (physical_health_score a = Some 0%Z →
     calculateWellnessScores a !! "physical" = Some (VNum (of_Z 50)))
  ∧ (∀ k, k ∈ Object_prototype_members →
          (education_level a = Some k →
           calculateWellnessScores a !! "intellectual" = Some VObject)
          ∧ (employment_status a = Some k →
             calculateWellnessScores a !! "occupational" = Some VObject)
          ∧ (housing_status a = Some k →
             calculateWellnessScores a !! "environmental" = Some VObject)).
Proof.
  split; [|split; [|split; [|split]]].
  - unfold calculateWellnessScores. cbv zeta.
    rewrite !dom_insert_L, dom_empty_L. unfold dimensions. set_solver.
  - intros dim Hd. unfold calculateWellnessScores. cbv zeta.
    rewrite !number_or_of_Z, !mapScoreToPercentile_percent, emotional_score.
    repeat (apply elem_of_cons in Hd as [->|Hd];
            [rewrite ?lookup_insert_ne by done; rewrite lookup_insert_eq;
             by eexists|]).
    by apply elem_of_nil in Hd.
  - intros Hedu Hemp Hhou.
    destruct (table_score_range educationMap (education_level a))
      as (v4 & E4 & R4); [compute_done|done|].
    destruct (table_score_range employmentMap (employment_status a))
      as (v5 & E5 & R5); [compute_done|done|].
    destruct (table_score_range housingMap (housing_status a))
      as (v6 & E6 & R6); [compute_done|done|].
    split.
    + intros dim Hd. unfold calculateWellnessScores, dimensions in *.
      cbv zeta.
      unfold mapEducationToScore, mapEmploymentToScore, mapHousingToScore.
      rewrite E4, E5, E6.
      rewrite !number_or_of_Z, !mapScoreToPercentile_percent, emotional_score.
      repeat (apply elem_of_cons in Hd as [->|Hd];
              [rewrite ?lookup_insert_ne by done; rewrite lookup_insert_eq;
               by eexists|]).
      by apply elem_of_nil in Hd.
    + intros (Hp & Hs & Hf & Hsp & Hphq & Hgad) dim Hd.
      unfold calculateWellnessScores, dimensions in *. cbv zeta.
      destruct (indicator_score_range _ Hp) as (v1 & E1 & R1).
      destruct (indicator_score_range _ Hs) as (v3 & E3 & R3).
      destruct (indicator_score_range
                  (defined_value (financial_stability a)))
        as (v7 & E7 & R7).
      { intros v Hv. apply Hf.
        by destruct (financial_stability a); simplify_eq/=. }
      destruct (indicator_score_range _ Hsp) as (v8 & E8 & R8).
      unfold mapEducationToScore, mapEmploymentToScore, mapHousingToScore.
      rewrite E1, E3, E4, E5, E6, E7, E8.
      rewrite !number_or_of_Z, emotional_score.
      repeat (apply elem_of_cons in Hd as [->|Hd];
              [rewrite ?lookup_insert_ne by done; rewrite lookup_insert_eq;
               eexists; split; [reflexivity|]; try done|]).
      * destruct (phq9_score a) as [p|] eqn:Ep;
          destruct (gad7_score a) as [g|] eqn:Eg;
          try specialize (Hphq p eq_refl); try specialize (Hgad g eq_refl);
          repeat case_bool_decide;
          Z.to_euclidean_division_equations; lia.
      * by apply elem_of_nil in Hd.
  - intros E0. unfold calculateWellnessScores. cbv zeta.
    rewrite !lookup_insert_ne by done. rewrite lookup_insert_eq.
    rewrite E0. simpl. by rewrite mapScoreToPercentile_percent.
  - intros k Hk.
    assert (Hnone : educationMap !! k = None ∧ employmentMap !! k = None
                    ∧ housingMap !! k = None).
    { repeat (apply elem_of_cons in Hk as [->|Hk]; [done|]).
      by apply elem_of_nil in Hk. }
    destruct Hnone as (H4 & H5 & H6).
    unfold calculateWellnessScores. cbv zeta.
    unfold mapEducationToScore, mapEmploymentToScore, mapHousingToScore.
    split; [|split]; intros ->;
      rewrite ?lookup_insert_ne by done; rewrite lookup_insert_eq;
      by rewrite table_inherited.
Qed.

Lemma calculateWellnessScores_range_witness :
  ∃ v, calculateWellnessScores blank_assessment !! "intellectual"
       = Some (VNum (of_Z v)) ∧ (0 ≤ v ≤ 100)%Z.
Proof.
  destruct (calculateWellnessScores_range blank_assessment)
    as (_ & _ & H & _).
  destruct H as [_ H]; try (intros k; discriminate).
  apply H.
  - repeat split; intros ?; discriminate.
  - compute_done.
Defined.

Section ZCodeExtraction.

Implicit Types (a : Assessment).

Lemma stability_below_30_iff a :
  stability_below_30 a = true
  ↔ financial_stability a = Null
    ∨ ∃ v, financial_stability a = Defined v ∧ (v < 30)%Z.
Proof.
  unfold stability_below_30. destruct (financial_stability a) as [| |v].
  - split; [done|]. by intros [?|(? & ? & _)].
  - split; [by left|done].
  - rewrite bool_decide_eq_true. split.
    + intros Hv. right. by exists v.
    + by intros [?|(? & [= <-] & ?)].
Qed.

(** Facts that hold for every combination of the eleven conditions. *)
Lemma extractZCodes_closed a :
  NoDup (extractZCodes a)
  ∧ (length (extractZCodes a) ≤ 10)%nat
  ∧ ¬ ("Z59.0" ∈ extractZCodes a ∧ "Z59.8" ∈ extractZCodes a)
  ∧ Forall (λ code, code ≠ "Z65.1" →
                    ∃ name, getZCodeName code = VStr name ∧ name ≠ code)
           (extractZCodes a).
Proof.
  pose (named := λ code : string,
          match zCodeNames !! code with
          | Some name => bool_decide (name ≠ EmptyString ∧ name ≠ code)
          | None => false
          end).
  assert (Hn : ∀ code, named code = true →
                       ∃ name, getZCodeName code = VStr name ∧ name ≠ code).
  { intros code. unfold named, getZCodeName.
    destruct (zCodeNames !! code) as [name|] eqn:E; [|done].
    intros [Hne Hnc]%bool_decide_eq_true.
    exists name. split; [|done].
    rewrite (get_property_own _ _ _ E). unfold string_or, truthy_string.
    by rewrite (bool_decide_eq_false_2 _ Hne). }
  cut (NoDup (extractZCodes a)
       ∧ (length (extractZCodes a) ≤ 10)%nat
       ∧ ¬ ("Z59.0" ∈ extractZCodes a ∧ "Z59.8" ∈ extractZCodes a)
       ∧ Forall (λ code, code ≠ "Z65.1" → named code = true)
                (extractZCodes a)).
  { intros (H1 & H2 & H3 & H4). split; [done|]. split; [done|].
    split; [done|]. eapply Forall_impl; [exact H4|].
    intros code H Hc. by apply Hn, H. }
  clear Hn. subst named.
  unfold extractZCodes. cbv zeta.
  generalize (bool_decide (housing_status a = Some "homeless")).
  generalize (bool_decide (housing_status a = Some "temporary_housing")).
  generalize (bool_decide (housing_quality a = Some "inadequate")).
  generalize (food_insecurity a).
  generalize (bool_decide (employment_status a = Some "unemployed_looking")
              || bool_decide (employment_status a
                              = Some "unemployed_not_looking")).
  generalize (job_loss_recent a).
  generalize (low_income a || stability_below_30 a).
  generalize (educational_problems a), (victim_of_abuse a),
    (family_disruption a), (social_isolation a).
  compute_done.
Qed.

Lemma extractZCodes_members a :
  ("Z59.0" ∈ extractZCodes a ↔ housing_status a = Some "homeless")
  ∧ ("Z59.6" ∈ extractZCodes a
     ↔ low_income a = true
       ∨ financial_stability a = Null
       ∨ ∃ v, financial_stability a = Defined v ∧ (v < 30)%Z).
Proof.
  unfold extractZCodes. cbv zeta.
  rewrite !elem_of_push_if, !orb_true_iff, !stability_below_30_iff.
  case_bool_decide as Hh; rewrite ?elem_of_push_if, !elem_of_nil;
    (split; intuition (try discriminate; try done)).
Qed.

End ZCodeExtraction.

(** X16. The Z-codes extracted from an assessment never repeat a code and
    number at most 10; Homelessness (Z59.0) and Housing Instability
    (Z59.8) exclude each other; Z59.0 is extracted exactly for the housing
    status homeless, and Low Income (Z59.6) exactly when the low-income
    flag is set, or the financial stability is [null], or it is a number
    below 30; a stability of 0 or [null] gives Z59.6 although the
    wellness mapping treats it as missing and scores 50, and a missing
    stability gives no code.  Every extracted code except Z65.1 has a
    name in the analytics table, and a subject carrying the codes of a
    homeless assessment is eligible for every resource that lists
    Z59.0. *)
Theorem extractZCodes_shape (a : Assessment) :
  NoDup (extractZCodes a)
  ∧ (length (extractZCodes a) ≤ 10)%nat
  ∧ ¬ ("Z59.0" ∈ extractZCodes a ∧ "Z59.8" ∈ extractZCodes a)
  ∧ ("Z59.0" ∈ extractZCodes a ↔ housing_status a = Some "homeless")
  ∧ ("Z59.6" ∈ extractZCodes a
     ↔ low_income a = true
       ∨ financial_stability a = Null
       ∨ ∃ v, financial_stability a = Defined v ∧ (v < 30)%Z)
  ∧ (financial_stability a = Defined 0%Z ∨ financial_stability a = Null →
     "Z59.6" ∈ extractZCodes a
     ∧ calculateWellnessScores a !! "financial" = Some (VNum (of_Z 50)))
  ∧ (∀ code, code ∈ extractZCodes a → code ≠ "Z65.1" →
             ∃ name, getZCodeName code = VStr name ∧ name ≠ code)
  ∧ getZCodeName "Z65.1" = VStr "Z65.1"
  ∧ (∀ (e : Enrollee) (res : Resource),
       zCodes_of e = Some (extractZCodes a) →
       housing_status a = Some "homeless" →
       "Z59.0" ∈ resource_codes res →
       isEligible e res = true).
Proof.
  destruct (extractZCodes_closed a) as (Hnd & Hlen & Hex & Hnames).
  destruct (extractZCodes_members a) as (Hhome & Hlow).
  do 5 (split; [done|]). split; [|split; [|split; [done|]]].
  - intros E0. split.
    + apply Hlow. right. destruct E0 as [E0|E0]; [right|by left].
      exists 0%Z. split; [done|lia].
    + unfold calculateWellnessScores. cbv zeta.
      rewrite !lookup_insert_ne by done. rewrite lookup_insert_eq.
      destruct E0 as [-> | ->]; simpl;
        by rewrite mapScoreToPercentile_percent.
  - intros code Hin. rewrite Forall_forall in Hnames. by apply Hnames.
  - intros e res Hz Hh Hres. rewrite isEligible_codes.
    destruct (resource_codes res) as [|c cs] eqn:Ec;
      [by apply elem_of_nil in Hres|].
    apply existsb_exists. exists "Z59.0".
    split; [by apply list_elem_of_In|].
    apply bool_decide_eq_true. rewrite Hz. simpl. by apply Hhome.
Qed.

Lemma extractZCodes_shape_witness :
  "Z59.6"
  ∈ extractZCodes
      {| physical_health_score := None; phq9_score := None;
         gad7_score := None; social_support_score := None;
         education_level := None; employment_status := None;
         housing_status := None; financial_stability := Null;
         spiritual_practices := None; housing_quality := None;
         food_insecurity := false; job_loss_recent := false;
         low_income := false; educational_problems := false;
         victim_of_abuse := false; family_disruption := false;
         social_isolation := false |}.
Proof.
  destruct (extractZCodes_shape
              {| physical_health_score := None; phq9_score := None;
                 gad7_score := None; social_support_score := None;
                 education_level := None; employment_status := None;
                 housing_status := None; financial_stability := Null;
                 spiritual_practices := None; housing_quality := None;
                 food_insecurity := false; job_loss_recent := false;
                 low_income := false; educational_problems := false;
                 victim_of_abuse := false; family_disruption := false;
                 social_isolation := false |})
    as (_ & _ & _ & _ & _ & H & _).
  apply H. by right.
Defined.

(* ===================================================================== *)
(** * Authorisation of status changes *)
(* ===================================================================== *)

Section Authorisation.

Local Open Scope list_scope.

Implicit Types (w : World) (ev : Event) (evs : list Event) (id : string).

Lemma exec_snoc evs : ∀ w ev,
  exec w (evs ++ [ev]) = exec w evs ≫= λ w1, step w1 ev.
Proof.
  induction evs as [|ev0 evs IH]; intros w ev; simpl.
  - by destruct (step w ev).
  - destruct (step w ev0) as [w1|]; [apply IH|done].
Qed.

Lemma happened_in_snoc w evs ev click (P : World → Prop) :
  happened_in w evs click P → happened_in w (evs ++ [ev]) click P.
Proof.
  intros (evs1 & evs2 & w1 & -> & Hexec & HP).
  exists evs1, (evs2 ++ [ev]), w1. split; [|done].
  by rewrite <- app_assoc.
Qed.

Lemma happened_in_last w evs w1 click (P : World → Prop) :
  exec w evs = Some w1 → P w1 → happened_in w (evs ++ [click]) click P.
Proof. intros Hexec HP. by exists evs, [], w1. Qed.

(** A write of a status keeps the documents, their resources and their
    creators. *)
Lemma updateDoc_status_docs id s (docs docs' : gmap string Referral) :
  updateDoc_status id s docs = Some docs' →
  dom docs' = dom docs
  ∧ ∀ id' r', docs' !! id' = Some r' →
              ∃ r, docs !! id' = Some r
                   ∧ resourceName r' = resourceName r
                   ∧ referringUserId r' = referringUserId r.
Proof.
  unfold updateDoc_status. destruct (docs !! id) as [r0|] eqn:E; [|done].
  intros [= <-]. split.
  - apply dom_insert_lookup_L. by eexists.
  - intros id' r'. rewrite lookup_insert. case_decide as Hid.
    + subst id'. intros [= <-]. by exists r0.
    + intros E'. by exists r'.
Qed.

Lemma step_docs w ev w' :
  step w ev = Some w' →
  dom (referrals w') = dom (referrals w)
  ∧ ∀ id r', referrals w' !! id = Some r' →
             ∃ r, referrals w !! id = Some r
                  ∧ resourceName r' = resourceName r
                  ∧ referringUserId r' = referringUserId r.
Proof.
  assert (Hsame : dom (referrals w) = dom (referrals w)
                  ∧ ∀ id r', referrals w !! id = Some r' →
                             ∃ r, referrals w !! id = Some r
                                  ∧ resourceName r' = resourceName r
                                  ∧ referringUserId r' = referringUserId r).
  { split; [done|]. intros id r' E. by exists r'. }
  intros Hstep.
  destruct ev as [ |p|id0| | | |p|id0 action| | ].
  - by injection Hstep as <-.
  - by injection Hstep as <-.
  - by apply step_ClickCancel in Hstep as (r & _ & _ & _ & ->).
  - simpl in Hstep. destruct (cancelingReferralId (page w)); [|done].
    by injection Hstep as <-.
  - simpl in Hstep.
    destruct (cancelingReferralId (page w)) as [id0|]; [|done].
    injection Hstep as <-. unfold handleCancelReferral.
    destruct (updateDoc_status id0 "Cancelled" (referrals w))
      as [docs|] eqn:Eu; [|done].
    by apply updateDoc_status_docs in Eu.
  - by injection Hstep as <-.
  - by injection Hstep as <-.
  - by apply step_ClickRespond in Hstep as (r & _ & _ & _ & ->).
  - simpl in Hstep. destruct (showResponseDialog (inbox w)); [|done].
    by injection Hstep as <-.
  - simpl in Hstep. destruct (showResponseDialog (inbox w)); [|done].
    injection Hstep as <-. unfold submitResponse.
    destruct (selectedReferral (inbox w)) as [[id' action]|]; [|done].
    destruct (updateDoc_status id' (response_label action) (referrals w))
      as [docs|] eqn:Eu; [|done].
    by apply updateDoc_status_docs in Eu.
Qed.

(** How an event changes the state of the referrals page. *)
Lemma step_page w ev w' :
  step w ev = Some w' →
  page_uid (page w') = page_uid (page w)
  ∧ (page_referrals (page w') = page_referrals (page w)
     ∨ page_referrals (page w')
       = filter (λ kr, referringUserId kr.2 = page_uid (page w))
                (referrals w))
  ∧ (cancelingReferralId (page w') = cancelingReferralId (page w)
     ∨ cancelingReferralId (page w') = None
     ∨ ∃ id, ev = ClickCancel id ∧ cancelingReferralId (page w') = Some id).
Proof.
  intros Hstep.
  destruct ev as [ |p|id0| | | |p|id0 action| | ].
  - injection Hstep as <-. simpl. auto.
  - injection Hstep as <-. simpl. auto.
  - apply step_ClickCancel in Hstep as (r & _ & _ & _ & ->). simpl.
    split; [done|]. split; [by left|]. right; right. by exists id0.
  - simpl in Hstep.
    destruct (cancelingReferralId (page w)) eqn:Ec; [|done].
    injection Hstep as <-. simpl. auto.
  - simpl in Hstep.
    destruct (cancelingReferralId (page w)) as [id0|] eqn:Ec; [|done].
    injection Hstep as <-. unfold handleCancelReferral.
    destruct (updateDoc_status id0 "Cancelled" (referrals w)); simpl; auto.
  - injection Hstep as <-. simpl. auto.
  - injection Hstep as <-. simpl. auto.
  - apply step_ClickRespond in Hstep as (r & _ & _ & _ & ->). simpl. auto.
  - simpl in Hstep. destruct (showResponseDialog (inbox w)); [|done].
    injection Hstep as <-. simpl. auto.
  - simpl in Hstep. destruct (showResponseDialog (inbox w)); [|done].
    injection Hstep as <-. unfold submitResponse.
    destruct (selectedReferral (inbox w)) as [[id' action]|]; [|auto].
    destruct (updateDoc_status id' (response_label action) (referrals w));
      simpl; auto.
Qed.

(** How an event changes the response dialog of the inbox. *)
Lemma step_inbox w ev w' :
  step w ev = Some w' →
  (showResponseDialog (inbox w') = showResponseDialog (inbox w)
   ∧ selectedReferral (inbox w') = selectedReferral (inbox w))
  ∨ showResponseDialog (inbox w') = false
  ∨ ∃ id action, ev = ClickRespond id action
                 ∧ selectedReferral (inbox w') = Some (id, action).
Proof.
  intros Hstep.
  destruct ev as [ |p|id0| | | |p|id0 action| | ].
  - injection Hstep as <-. by left.
  - injection Hstep as <-. by left.
  - apply step_ClickCancel in Hstep as (r & _ & _ & _ & ->). by left.
  - simpl in Hstep. destruct (cancelingReferralId (page w)); [|done].
    injection Hstep as <-. by left.
  - simpl in Hstep.
    destruct (cancelingReferralId (page w)) as [id0|]; [|done].
    injection Hstep as <-. unfold handleCancelReferral.
    destruct (updateDoc_status id0 "Cancelled" (referrals w)); by left.
  - injection Hstep as <-. by left.
  - injection Hstep as <-. by left.
  - apply step_ClickRespond in Hstep as (r & _ & _ & _ & ->).
    right; right. by exists id0, action.
  - simpl in Hstep.
    destruct (showResponseDialog (inbox w)) eqn:Hshow; [|done].
    injection Hstep as <-. right; by left.
  - simpl in Hstep.
    destruct (showResponseDialog (inbox w)) eqn:Hshow; [|done].
    injection Hstep as <-. unfold submitResponse.
    destruct (selectedReferral (inbox w)) as [[id' action]|] eqn:Es;
      [|by left].
    destruct (updateDoc_status id' (response_label action) (referrals w));
      [right; by left|by left].
Qed.

Lemma run_invariant_start w : freshly_mounted w → run_invariant w [] w.
Proof.
  intros ((Hc & Hshow) & Hp & _).
  split; [done|]. split; [done|]. split.
  { intros id r0 r E0 E. by simplify_eq. }
  split; [rewrite Hp; apply map_Forall_empty|].
  split; [intros id; by rewrite Hc|].
  split; [by rewrite Hshow|]. done.
Qed.

Lemma run_invariant_step w evs w1 ev w2 :
  exec w evs = Some w1 →
  run_invariant w evs w1 →
  step w1 ev = Some w2 →
  run_invariant w (evs ++ [ev]) w2.
Proof.
  intros Hexec (Huid & Hdom & Hdocs & Hown & Hcancel & Hrespond & Hstatus)
    Hstep.
  destruct (step_docs w1 ev w2 Hstep) as (Hdom2 & Hdocs2).
  destruct (step_page w1 ev w2 Hstep) as (Huid2 & Hcopy2 & Hcanc2).
  assert (Hc' : ∀ id, cancelingReferralId (page w2) = Some id →
                      cancel_clicked w (evs ++ [ev]) id).
  { intros id Hc.
    destruct Hcanc2 as [E|[E|(id0 & -> & E)]].
    - apply happened_in_snoc, Hcancel. by rewrite <- E.
    - by rewrite E in Hc.
    - rewrite E in Hc. injection Hc as ->.
      apply step_ClickCancel in Hstep as (r & Er & Hs & Hp & _).
      apply (happened_in_last w evs w1); [done|].
      exists r. split; [done|]. split; [done|]. split; [|done].
      rewrite Huid. by apply (Hown id r). }
  assert (Hr' : showResponseDialog (inbox w2) = true →
                ∀ id action, selectedReferral (inbox w2) = Some (id, action) →
                             respond_clicked w (evs ++ [ev]) id action).
  { intros Hshow id action Hsel.
    destruct (step_inbox w1 ev w2 Hstep)
      as [[E1 E2]|[E|(id0 & action0 & -> & E)]].
    - apply happened_in_snoc. apply Hrespond; congruence.
    - congruence.
    - rewrite E in Hsel. injection Hsel as -> ->.
      apply step_ClickRespond in Hstep as (r & Er & Hs & Hp & _).
      apply (happened_in_last w evs w1); [done|].
      split; [|done]. unfold inbox_status_at. by rewrite Er. }
  split; [congruence|]. split; [congruence|]. split; [|split; [|split]].
  - intros id r0 r E0 E2.
    destruct (Hdocs2 id r E2) as (r1 & E1 & Hn & Hu).
    destruct (Hdocs id r0 r1 E0 E1) as [Hn1 Hu1]. split; congruence.
  - destruct Hcopy2 as [-> | ->]; [done|].
    apply map_Forall_lookup. intros id r [_ Hr]%map_lookup_filter_Some.
    simpl in Hr. congruence.
  - exact Hc'.
  - split; [exact Hr'|].
    intros id Hne.
    destruct (step_status_at w1 ev w2 id Hstep)
      as [E|[(-> & Ec & E)|(-> & Hshow & action & Hsel & E)]].
    + rewrite E in Hne |- *.
      destruct (Hstatus id Hne) as [[Hs Hcl]|(action & Hs & Hcl)].
      * left. split; [done|]. by apply happened_in_snoc.
      * right. exists action. split; [done|]. by apply happened_in_snoc.
    + left. split; [done|]. apply happened_in_snoc. by apply Hcancel.
    + right. exists action. split; [done|].
      apply happened_in_snoc. by apply Hrespond.
Qed.

Lemma exec_run_invariant w evs : ∀ w',
  freshly_mounted w → exec w evs = Some w' → run_invariant w evs w'.
Proof.
  induction evs as [|ev evs IH] using rev_ind; intros w' Hm Hexec.
  - injection Hexec as <-. by apply run_invariant_start.
  - rewrite exec_snoc in Hexec.
    destruct (exec w evs) as [w1|] eqn:E1; [|done]. simpl in Hexec.
    apply (run_invariant_step w evs w1 ev w'); [done| |done].
    by apply IH.
Qed.

End Authorisation.

(** X17. Whatever the two sessions do and whenever their listeners run,
    starting from freshly mounted pages: no referral is created or
    deleted and none changes its resource or its creator; a referral
    whose status differs from the start is Cancelled, Accepted or
    Rejected; if it is Cancelled, then earlier in the run the
    referrals-page user clicked Cancel on a card showing it as Pending,
    being its creator and holding [CANCEL_REFERRAL] at that moment; if
    it is Accepted or Rejected, then earlier in the run the inbox user
    clicked that response on a card showing it as Pending, holding
    [RESPOND_REFERRAL] at that moment.  The permission is checked when
    the button is rendered, not when the write is made: the role may
    have changed in between. *)
Theorem status_changes_authorised
    (w : World) (evs : list Event) (w' : World) :
  freshly_mounted w → exec w evs = Some w' →
  dom (referrals w') = dom (referrals w)
  ∧ (∀ id r0 r,
       referrals w !! id = Some r0 → referrals w' !! id = Some r →
       resourceName r = resourceName r0
       ∧ referringUserId r = referringUserId r0)
  ∧ (∀ id, status_at w' id ≠ status_at w id →
           (status_at w' id = Some "Cancelled" ∧ cancel_clicked w evs id)
           ∨ ∃ action, status_at w' id = Some (response_label action)
                       ∧ respond_clicked w evs id action).
Proof.
  intros Hm Hexec.
  destruct (exec_run_invariant w evs w' Hm Hexec)
    as (_ & Hdom & Hdocs & _ & _ & _ & Hstatus).
  done.
Qed.

Lemma status_changes_authorised_witness :
  freshly_mounted sample_world
  ∧ ∃ w', exec sample_world
               (sample_loading
                ++ [ClickCancel "r1";
                    PageProfile (Some {| role := Some "Partner" |});
                    ConfirmCancel])%list = Some w'
          ∧ hasPermission (page_userRole (page w')) "CANCEL_REFERRAL"
            = Normal false
          ∧ status_at w' "r1" = Some "Cancelled"
          ∧ cancel_clicked sample_world
              (sample_loading
               ++ [ClickCancel "r1";
                   PageProfile (Some {| role := Some "Partner" |});
                   ConfirmCancel])%list "r1".
Proof.
  assert (Hm : freshly_mounted sample_world) by (by repeat split).
  split; [exact Hm|].
  destruct (exec sample_world
              (sample_loading
               ++ [ClickCancel "r1";
                   PageProfile (Some {| role := Some "Partner" |});
                   ConfirmCancel])%list) as [w'|] eqn:Hexec;
    [|vm_compute in Hexec; discriminate].
  exists w'. split; [reflexivity|].
  assert (Hw : hasPermission (page_userRole (page w')) "CANCEL_REFERRAL"
               = Normal false
               ∧ status_at w' "r1" = Some "Cancelled").
  { vm_compute in Hexec. injection Hexec as <-. split; reflexivity. }
  destruct Hw as [Hp Hs]. split; [exact Hp|]. split; [exact Hs|].
  destruct (status_changes_authorised sample_world _ w' Hm Hexec)
    as (_ & _ & Hstatus).
  destruct (Hstatus "r1") as [[_ Hc]|(action & Ha & _)].
  - rewrite Hs. discriminate.
  - exact Hc.
  - rewrite Hs in Ha. by destruct action.
Defined.

(* ===================================================================== *)
(** * The wellness-dimension chart *)
(* ===================================================================== *)

Section DimensionChart.

Implicit Types (enrollees : list Enrollee) (dim : string).

(** Updating every key of a duplicate-free list, each from its own
    current value, acts pointwise. *)
Lemma foldl_update_lookup (g : string → option number → number)
    (dims : list string) (m : gmap string number) (k : string) :
  NoDup dims →
  foldl (λ m d, <[d := g d (m !! d)]> m) m dims !! k
  = if bool_decide (k ∈ dims) then Some (g k (m !! k)) else m !! k.
Proof.
  revert m. induction dims as [|d dims IH]; intros m Hnd.
  - done.
  - apply NoDup_cons in Hnd as [Hd Hnd]. cbn [foldl]. rewrite IH by done.
    destruct (decide (k = d)) as [->|Hne].
    + rewrite (bool_decide_eq_false_2 _ Hd), lookup_insert_eq.
      rewrite bool_decide_eq_true_2; [done|by left].
    + rewrite lookup_insert_ne by done.
      destruct (decide (k ∈ dims)) as [Hin|Hin].
      * rewrite !bool_decide_eq_true_2; [done|by right|done].
      * rewrite !bool_decide_eq_false_2; [done| |done].
        intros [->|?]%elem_of_cons; done.
Qed.

Lemma dimensions_NoDup : NoDup dimensions.
Proof. compute_done. Qed.

Lemma dimensionAverages_init_lookup dim :
  dimensionAverages_init !! dim
  = if bool_decide (dim ∈ dimensions) then Some (of_Z 0) else None.
Proof.
  case_bool_decide as Hd.
  - repeat (apply elem_of_cons in Hd as [->|Hd]; [reflexivity|]).
    by apply elem_of_nil in Hd.
  - apply not_elem_of_list_to_map_1. rewrite <- list_fmap_compose.
    by rewrite list_fmap_id.
Qed.

Lemma chart_add_scores_lookup scores (m : gmap string number) dim :
  chart_add_scores scores m !! dim
  = if bool_decide (dim ∈ dimensions)
    then Some (js_add (read_number m dim) (score_or_zero (scores !! dim)))
    else m !! dim.
Proof.
  unfold chart_add_scores, read_number.
  apply (foldl_update_lookup
           (λ d o, js_add (default NaN o) (score_or_zero (scores !! d)))).
  apply dimensions_NoDup.
Qed.

(** The zero-filled total of a dimension over the enrollees. *)
Lemma chart_sums_lookup enrollees (m : gmap string number) (t : Z) dim :
  dim ∈ dimensions → m !! dim = Some (of_Z t) →
  foldl (λ averages enrollee,
           match wellnessScores_of enrollee with
           | Some scores => chart_add_scores scores averages
           | None => averages
           end) m enrollees !! dim
  = Some (of_Z (t + foldr Z.add 0%Z
                      ((λ e, default 0%Z (recorded dim e)) <$> enrollees))).
Proof.
  intros Hd. revert m t.
  induction enrollees as [|e enrollees IH]; intros m t Hm.
  - simpl. by rewrite Z.add_0_r.
  - cbn [foldl fmap list_fmap foldr]. unfold recorded at 1.
    destruct (wellnessScores_of e) as [scores|] eqn:E; simpl.
    + rewrite (IH _ (t + default 0%Z (scores !! dim))%Z).
      * do 2 f_equal. lia.
      * rewrite chart_add_scores_lookup, bool_decide_eq_true_2 by done.
        unfold read_number. rewrite Hm, score_or_zero_default.
        change (default NaN (Some (of_Z t))) with (of_Z t).
        by rewrite js_add_of_Z.
    + rewrite (IH _ t Hm). do 2 f_equal.
Qed.

Lemma dimensionAverages_lookup enrollees dim :
  dim ∈ dimensions → enrollees ≠ [] →
  dimensionAverages enrollees !! dim
  = Some (of_Z ((2 * foldr Z.add 0%Z
                       ((λ e, default 0%Z (recorded dim e)) <$> enrollees)
                 + Z.of_nat (length enrollees))
                / (2 * Z.of_nat (length enrollees)))).
Proof.
  intros Hd Hne. unfold dimensionAverages.
  assert (Hn : (0 < length enrollees)%nat).
  { destruct enrollees; [done|simpl; lia]. }
  rewrite (proj2 (Nat.ltb_lt _ _) Hn). cbv zeta.
  rewrite (foldl_update_lookup
             (λ d o, Math_round (js_div (default NaN o)
                                        (of_nat (length enrollees)))))
    by apply dimensions_NoDup.
  rewrite bool_decide_eq_true_2 by done.
  rewrite (chart_sums_lookup enrollees _ 0 dim Hd).
  - simpl default. unfold of_Z at 1. rewrite js_div_of_nat by done.
    unfold Math_round. rewrite round_half_up_ratio by lia.
    by rewrite Z.add_0_l.
  - by rewrite dimensionAverages_init_lookup, bool_decide_eq_true_2.
Qed.

Lemma dimensionAverages_dom enrollees :
  dom (dimensionAverages enrollees) = list_to_set dimensions.
Proof.
  apply set_eq. intros k. rewrite elem_of_dom, elem_of_list_to_set.
  unfold dimensionAverages.
  destruct (0 <? length enrollees)%nat.
  - cbv zeta.
    rewrite (foldl_update_lookup
               (λ d o, Math_round (js_div (default NaN o)
                                          (of_nat (length enrollees)))))
      by apply dimensions_NoDup.
    case_bool_decide as Hk; [by split; [|eexists]|].
    assert (H : ∀ (m : gmap string number), m !! k = None →
              foldl (λ averages enrollee,
                       match wellnessScores_of enrollee with
                       | Some scores => chart_add_scores scores averages
                       | None => averages
                       end) m enrollees !! k = None).
    { induction enrollees as [|e l IH]; intros m Hm; [done|].
      cbn [foldl]. apply IH. destruct (wellnessScores_of e); [|done].
      by rewrite chart_add_scores_lookup, bool_decide_eq_false_2. }
    rewrite H.
    + split; [by intros [? ?]|done].
    + by rewrite dimensionAverages_init_lookup, bool_decide_eq_false_2.
  - rewrite dimensionAverages_init_lookup.
    case_bool_decide; split;
    first [done|by eexists|by intros [? ?]].
Qed.

Lemma calculateWellnessDimensions_lookup enrollees dim :
  calculateWellnessDimensions enrollees !! dim
  = if bool_decide (dim ∈ dimensions)
    then
      let scores := omap (recorded dim) enrollees in
      Some (if (0 <? length scores)%nat
            then js_div (js_sum (of_Z <$> scores)) (of_nat (length scores))
            else of_Z 0)
    else None.
Proof.
  unfold calculateWellnessDimensions.
  rewrite (foldl_update_lookup
             (λ d _,
                let scores :=
                  omap (λ e, wellnessScores_of e ≫= (.!! d)) enrollees in
                if (0 <? length scores)%nat
                then js_div (js_sum (of_Z <$> scores))
                            (of_nat (length scores))
                else of_Z 0))
    by apply dimensions_NoDup.
  by rewrite lookup_empty.
Qed.

Lemma calculateWellnessDimensions_dom enrollees :
  dom (calculateWellnessDimensions enrollees) = list_to_set dimensions.
Proof.
  apply set_eq. intros k. rewrite elem_of_dom, elem_of_list_to_set.
  rewrite calculateWellnessDimensions_lookup.
  case_bool_decide; split;
    first [done|by eexists|by intros [? ?]].
Qed.

(** Missing values add nothing to the zero-filled total. *)
Lemma recorded_total dim enrollees :
  foldr Z.add 0%Z ((λ e, default 0%Z (recorded dim e)) <$> enrollees)
  = foldr Z.add 0%Z (omap (recorded dim) enrollees).
Proof.
  induction enrollees as [|e l IH]; [done|].
  cbn [fmap list_fmap foldr omap list_omap].
  destruct (recorded dim e); simpl; fold (omap (recorded dim) l); lia.
Qed.

Lemma recorded_length dim enrollees :
  (length (omap (recorded dim) enrollees) ≤ length enrollees)%nat.
Proof.
  induction enrollees as [|e l IH]; [done|].
  cbn [omap list_omap]. destruct (recorded dim e); simpl;
    fold (omap (recorded dim) l); lia.
Qed.

Lemma recorded_all dim enrollees :
  (∀ e, e ∈ enrollees → is_Some (recorded dim e)) →
  length (omap (recorded dim) enrollees) = length enrollees.
Proof.
  induction enrollees as [|e l IH]; intros Hall; [done|].
  cbn [omap list_omap]. destruct (Hall e) as [v ->]; [by left|].
  simpl. fold (omap (recorded dim) l). f_equal. apply IH.
  intros e' He'. apply Hall. by right.
Qed.

Lemma recorded_range (lo hi : Z) dim enrollees :
  (∀ e v, e ∈ enrollees → recorded dim e = Some v → (lo ≤ v ≤ hi)%Z) →
  (lo * Z.of_nat (length (omap (recorded dim) enrollees))
   ≤ foldr Z.add 0%Z (omap (recorded dim) enrollees)
   ≤ hi * Z.of_nat (length (omap (recorded dim) enrollees)))%Z.
Proof.
  induction enrollees as [|e l IH]; intros Hall; [simpl; lia|].
  cbn [omap list_omap].
  assert (Hl : ∀ e v, e ∈ l → recorded dim e = Some v → (lo ≤ v ≤ hi)%Z).
  { intros e' v He'. apply Hall. by right. }
  specialize (IH Hl).
  destruct (recorded dim e) as [v|] eqn:E; fold (omap (recorded dim) l).
  - pose proof (Hall e v ltac:(by left) E). simpl. lia.
  - exact IH.
Qed.

(** Dividing a non-negative total by more subjects than recorded it can
    only lower the rounded mean. *)
Lemma more_subjects_lower (t k n : Z) :
  (0 ≤ t)%Z → (0 < k ≤ n)%Z →
  ((2 * t + n) / (2 * n) ≤ (2 * t + k) / (2 * k))%Z.
Proof.
  intros Ht Hk. apply Z.div_le_lower_bound; [lia|].
  pose proof (Z.mul_div_le (2 * t + n) (2 * n) ltac:(lia)).
  pose proof (Z.div_pos (2 * t + n) (2 * n) ltac:(lia) ltac:(lia)).
  nia.
Qed.

Lemma rounded_mean (scores : list Z) :
  (0 < length scores)%nat →
  Math_round (js_div (js_sum (of_Z <$> scores)) (of_nat (length scores)))
  = of_Z ((2 * foldr Z.add 0%Z scores + Z.of_nat (length scores))
          / (2 * Z.of_nat (length scores))).
Proof.
  intros Hn. rewrite js_sum_of_Z. unfold of_Z at 1.
  rewrite js_div_of_nat by done. unfold Math_round.
  by rewrite round_half_up_ratio by lia.
Qed.

Lemma recorded_nonneg dim enrollees :
  (∀ e v, e ∈ enrollees → recorded dim e = Some v → (0 ≤ v)%Z) →
  (0 ≤ foldr Z.add 0%Z (omap (recorded dim) enrollees))%Z.
Proof.
  induction enrollees as [|e l IH]; intros Hpos; [done|].
  cbn [omap list_omap].
  assert (0 ≤ foldr Z.add 0 (omap (recorded dim) l))%Z as Hl.
  { apply IH. intros e' v He'. apply Hpos. by right. }
  destruct (recorded dim e) as [v|] eqn:E;
    fold (omap (recorded dim) l); [|done].
  pose proof (Hpos e v ltac:(by left) E). simpl. lia.
Qed.

End DimensionChart.

(** X18. The dashboard's [WellnessDimensionChart] and the analytics
    service's [calculateWellnessDimensions] both return exactly the 8
    dimensions.  The chart's value is always an integer: it divides the
    zero-filled total by the number of all enrollees, where the service
    divides the recorded total by the number of enrollees recording the
    dimension.  So for one of the 8 dimensions: when every enrollee
    records it, the chart shows [Math.round] of the service's average;
    when the recorded values are not negative the chart shows at most
    that; and when they lie within 0..100 so does the chart's value. *)
Theorem dimension_chart_vs_service (enrollees : list Enrollee) (dim : string) :
  dim ∈ dimensions →
  let chart := dimensionAverages enrollees in
  let service := calculateWellnessDimensions enrollees in
  dom chart = list_to_set dimensions
  ∧ dom service = list_to_set dimensions
  ∧ (∃ z, chart !! dim = Some (of_Z z))
  ∧ ((∀ e, e ∈ enrollees → is_Some (recorded dim e)) →
     chart !! dim = Math_round <$> service !! dim)
  ∧ ((∀ e v, e ∈ enrollees → recorded dim e = Some v → (0 ≤ v)%Z) →
     ∃ c s, chart !! dim = Some c ∧ service !! dim = Some s
            ∧ js_le c (Math_round s) = true)
  ∧ ((∀ e v, e ∈ enrollees → recorded dim e = Some v → (0 ≤ v ≤ 100)%Z) →
     ∃ z, chart !! dim = Some (of_Z z) ∧ (0 ≤ z ≤ 100)%Z).
Proof.
  intros Hd chart service.
  split; [apply dimensionAverages_dom|].
  split; [apply calculateWellnessDimensions_dom|].
  assert (Hs : service !! dim
               = Some (if (0 <? length (omap (recorded dim) enrollees))%nat
                       then js_div
                              (js_sum (of_Z <$> omap (recorded dim) enrollees))
                              (of_nat (length (omap (recorded dim) enrollees)))
                       else of_Z 0)).
  { unfold service. rewrite calculateWellnessDimensions_lookup.
    by rewrite bool_decide_eq_true_2. }
  destruct (decide (enrollees = [])) as [->|Hne].
  { assert (Hc : chart !! dim = Some (of_Z 0)).
    { unfold chart, dimensionAverages. simpl.
      by rewrite dimensionAverages_init_lookup, bool_decide_eq_true_2. }
    rewrite Hc, Hs. simpl.
    split; [by eexists|]. split; [done|].
    split; [by intros _; eexists _, _|].
    intros _. exists 0%Z. split; [done|lia]. }
  assert (Hn : (0 < length enrollees)%nat).
  { destruct enrollees; [done|simpl; lia]. }
  pose proof (dimensionAverages_lookup enrollees dim Hd Hne) as Hc.
  fold chart in Hc. rewrite recorded_total in Hc.
  pose proof (recorded_length dim enrollees) as Hlen.
  rewrite Hc, Hs. clear Hc Hs.
  split; [by eexists|]. split; [|split].
  - intros Hall. apply recorded_all in Hall.
    assert (Hk : (0 < length (omap (recorded dim) enrollees))%nat) by lia.
    rewrite (proj2 (Nat.ltb_lt _ _) Hk).
    cbn [fmap option_fmap option_map]. f_equal.
    rewrite rounded_mean by done. by rewrite Hall.
  - intros Hpos. eexists _, _. split; [done|]. split; [done|].
    apply recorded_nonneg in Hpos.
    destruct (length (omap (recorded dim) enrollees)) as [|k] eqn:Ek.
    + assert (omap (recorded dim) enrollees = []) as ->.
      { by destruct (omap (recorded dim) enrollees). }
      simpl. apply js_le_of_Z.
      replace (round_half_up (Qc_of_Z 0)) with 0%Z by reflexivity.
      rewrite Z.div_small by lia. done.
    + rewrite (proj2 (Nat.ltb_lt _ _) (Nat.lt_0_succ k)).
      rewrite <- Ek, rounded_mean by lia. apply js_le_of_Z.
      apply more_subjects_lower; [done|lia].
  - intros Hrange. eexists. split; [done|].
    pose proof (recorded_range 0 100 dim enrollees Hrange) as Hr.
    apply rounded_ratio_range; lia.
Qed.

Lemma dimension_chart_vs_service_witness :
  "physical" ∈ dimensions
  ∧ dimensionAverages [enrollee_with None (uniform_scores 80);
                       enrollee_with None (uniform_scores 61)] !! "physical"
    = Math_round
      <$> calculateWellnessDimensions
            [enrollee_with None (uniform_scores 80);
             enrollee_with None (uniform_scores 61)] !! "physical".
Proof.
  assert (Hd : "physical" ∈ dimensions) by (by left).
  split; [exact Hd|].
  destruct (dimension_chart_vs_service
              [enrollee_with None (uniform_scores 80);
               enrollee_with None (uniform_scores 61)] "physical" Hd)
    as (_ & _ & _ & Hall & _).
  apply Hall. intros e He.
  repeat (apply elem_of_cons in He as [->|He]; [by eexists|]).
  by apply elem_of_nil in He.
Defined.

(* ===================================================================== *)
(** * LS/CMI scores, risk profile and timeline entry *)
(* ===================================================================== *)

Section RiskProfiles.

Lemma number_or_zero (o : option Z) : number_or o 0 = of_Z (default 0%Z o).
Proof.
  rewrite number_or_of_Z. destruct o as [z|]; [|done].
  case_bool_decide; by subst.
Qed.

Lemma lscmi_totalScore_points (a : LSCMIFields) :
  lscmi_totalScore (extractLSCMIScores a) = of_Z (lscmi_points a).
Proof.
  unfold lscmi_totalScore, extractLSCMIScores, lscmi_points, lscmi_fields.
  cbn [fmap list_fmap snd]. rewrite !number_or_zero.
  exact (js_sum_of_Z
           ((λ f : LSCMIFields → option Z, default 0%Z (f a))
            <$> lscmi_fields)).
Qed.

Lemma js_le_leb (a b : Z) : js_le (of_Z a) (of_Z b) = (a <=? b)%Z.
Proof.
  apply Bool.eq_iff_eq_true. by rewrite js_le_Z_of_Z, Z.leb_le.
Qed.

Lemma calculateRiskTier_of_Z (t : Z) :
  calculateRiskTier (of_Z t)
  = if (t <=? 11)%Z then 1%Z else if (t <=? 31)%Z then 2%Z else 3%Z.
Proof.
  unfold calculateRiskTier. rewrite !js_le_leb.
  repeat match goal with |- context [(?a <=? ?b)%Z] =>
    destruct (Z.leb_spec a b) end; lia.
Qed.

Lemma lscmi_points_mono (a a' : LSCMIFields) :
  Forall (λ f : LSCMIFields → option Z,
            (default 0 (f a) ≤ default 0 (f a'))%Z) lscmi_fields →
  (lscmi_points a ≤ lscmi_points a')%Z.
Proof.
  unfold lscmi_points. induction 1 as [|f fs Hf _ IH]; [done|].
  rewrite !fmap_cons. cbn [foldr]. lia.
Qed.

End RiskProfiles.

(** X19. The risk profile and the timeline entry derived from an external
    assessment agree on tier, LS/CMI scores, wellness scores and Z-codes.
    [extractLSCMIScores] always returns the same ten domains; the total
    score is the sum of the ten recorded scores, a missing one counting
    nothing; the tier is 1 exactly up to a total of 11, 2 above 11 and up
    to 31, 3 above 31; and an assessment that scores at least as much in
    every domain never gets a lower tier.  The tier depends on nothing
    but the ten scores. *)
Theorem risk_profile_tier (now now' : string) (a a' : ExternalAssessment) :
  let p := mapAssessmentToRiskProfile now a in
  let p' := mapAssessmentToRiskProfile now' a' in
  let e := formatAssessmentForTimeline a in
  let total := lscmi_points (lscmi a) in
  fst <$> rp_lscmiScores p
  = ["criminal"; "education"; "financial"; "family"; "accommodation";
     "leisure"; "companions"; "alcohol"; "attitudes"; "antisocial"]
  ∧ tl_totalScore e = of_Z total
  ∧ (tl_tier e = rp_tier p ∧ tl_scores e = rp_lscmiScores p
     ∧ tl_wellnessScores e = rp_wellnessScores p
     ∧ tl_zCodes e = rp_zCodes p)
  ∧ (rp_tier p = 1%Z ↔ (total ≤ 11)%Z)
  ∧ (rp_tier p = 2%Z ↔ (11 < total ≤ 31)%Z)
  ∧ (rp_tier p = 3%Z ↔ (31 < total)%Z)
  ∧ (Forall (λ f : LSCMIFields → option Z,
               (default 0 (f (lscmi a)) ≤ default 0 (f (lscmi a')))%Z)
            lscmi_fields →
     (rp_tier p ≤ rp_tier p')%Z)
  ∧ (lscmi a = lscmi a' → rp_tier p = rp_tier p').
Proof.
  intros p p' e total.
  assert (Ht : ∀ n x, rp_tier (mapAssessmentToRiskProfile n x)
                      = if (lscmi_points (lscmi x) <=? 11)%Z then 1%Z
                        else if (lscmi_points (lscmi x) <=? 31)%Z then 2%Z
                        else 3%Z).
  { intros n x. unfold mapAssessmentToRiskProfile. cbn [rp_tier].
    by rewrite lscmi_totalScore_points, calculateRiskTier_of_Z. }
  split; [reflexivity|].
  split; [apply lscmi_totalScore_points|].
  split; [done|].
  unfold p, p'. rewrite !Ht. fold total.
  split; [|split; [|split; [|split]]].
  - destruct (Z.leb_spec total 11), (Z.leb_spec total 31); split; lia.
  - destruct (Z.leb_spec total 11), (Z.leb_spec total 31); split; lia.
  - destruct (Z.leb_spec total 11), (Z.leb_spec total 31); split; lia.
  - intros Hle. apply lscmi_points_mono in Hle. fold total in Hle.
    destruct (Z.leb_spec total 11), (Z.leb_spec total 31),
      (Z.leb_spec (lscmi_points (lscmi a')) 11),
      (Z.leb_spec (lscmi_points (lscmi a')) 31); lia.
  - intros <-. done.
Qed.
